(** * The native debugger interface of the runtime (runtime/jit/debugger_interface.cc)

    A shallow embedding of the GDB JIT interface bookkeeping: the two
    intrusive doubly linked lists (JIT code entries and DEX file entries),
    the descriptor, the two timestamps, the two lookup tables, the memory
    usage accumulator and the notification call through
    [__jit_debug_register_code_ptr].

    Heap objects live in typed stores keyed by their address; a C pointer is
    an [option ptr] with [None] for [nullptr].  Every function of the source
    is a computation in a small state-and-failure monad: a computation either
    finishes, aborts on a failed check, or touches storage that is not live
    (undefined behaviour). *)

From stdpp Require Import numbers list gmap.

Local Open Scope Z_scope.

(** ** Machine integers and object sizes (LP64) *)

Definition wrap32 (z : Z) : Z := z mod 2 ^ 32.
Definition wrap64 (z : Z) : Z := z mod 2 ^ 64.

(** [sizeof(JITCodeEntry)]: three pointers, a [uint64_t], a [uint32_t] and
    four bytes of padding. *)
Definition sizeof_JITCodeEntry : Z := 40.
(** The size of a [void] pointer. *)
Definition sizeof_voidp : Z := 8.

(** ** Records of the interface *)

Abbreviation ptr := positive.

Inductive JITAction : Set :=
  | JIT_NOACTION
  | JIT_REGISTER_FN
  | JIT_UNREGISTER_FN.

Definition JITAction_value (a : JITAction) : Z :=
  match a with
  | JIT_NOACTION => 0
  | JIT_REGISTER_FN => 1
  | JIT_UNREGISTER_FN => 2
  end.

Record JITCodeEntry : Type := mkJITCodeEntry {
  next_ : option ptr;
  prev_ : option ptr;
  symfile_addr_ : option ptr;
  symfile_size_ : Z;
  ref_count : Z
}.

Record JITDescriptor : Type := mkJITDescriptor {
  version_ : Z;
  action_flag_ : Z;
  relevant_entry_ : option ptr;
  first_entry_ : option ptr
}.

Record DEXFileEntry : Type := mkDEXFileEntry {
  dex_next_ : option ptr;
  dex_prev_ : option ptr;
  dexfile_ : Z
}.

Definition set_next_ (v : option ptr) (e : JITCodeEntry) : JITCodeEntry :=
  mkJITCodeEntry v (prev_ e) (symfile_addr_ e) (symfile_size_ e) (ref_count e).
Definition set_prev_ (v : option ptr) (e : JITCodeEntry) : JITCodeEntry :=
  mkJITCodeEntry (next_ e) v (symfile_addr_ e) (symfile_size_ e) (ref_count e).
Definition set_ref_count (v : Z) (e : JITCodeEntry) : JITCodeEntry :=
  mkJITCodeEntry (next_ e) (prev_ e) (symfile_addr_ e) (symfile_size_ e) v.

Definition set_dex_next_ (v : option ptr) (e : DEXFileEntry) : DEXFileEntry :=
  mkDEXFileEntry v (dex_prev_ e) (dexfile_ e).
Definition set_dex_prev_ (v : option ptr) (e : DEXFileEntry) : DEXFileEntry :=
  mkDEXFileEntry (dex_next_ e) v (dexfile_ e).

Definition set_action_flag_ (v : Z) (d : JITDescriptor) : JITDescriptor :=
  mkJITDescriptor (version_ d) v (relevant_entry_ d) (first_entry_ d).
Definition set_relevant_entry_ (v : option ptr) (d : JITDescriptor) : JITDescriptor :=
  mkJITDescriptor (version_ d) (action_flag_ d) v (first_entry_ d).
Definition set_first_entry_ (v : option ptr) (d : JITDescriptor) : JITDescriptor :=
  mkJITDescriptor (version_ d) (action_flag_ d) (relevant_entry_ d) v.

(** ** The memory of the module

    The three stores hold the objects made by [new]; the other fields are the
    globals of the source, under their own names. *)

Record Mem : Type := mkMem {
  jit_heap : gmap ptr JITCodeEntry;
  blob_heap : gmap ptr (list Byte.byte);
  dex_heap : gmap ptr DEXFileEntry;
  __jit_debug_descriptor : JITDescriptor;
  __jit_debug_descriptor_timestamp : Z;
  __art_debug_dexfiles : option ptr;
  __art_debug_dexfiles_timestamp : Z;
  g_jit_debug_mem_usage : Z;
  g_dexfile_entries : gmap Z ptr;
  g_jit_code_entries : gmap Z (option ptr)
}.

Definition upd_jit_heap (f : gmap ptr JITCodeEntry → gmap ptr JITCodeEntry) (m : Mem) : Mem :=
  mkMem (f (jit_heap m)) (blob_heap m) (dex_heap m) (__jit_debug_descriptor m)
    (__jit_debug_descriptor_timestamp m) (__art_debug_dexfiles m)
    (__art_debug_dexfiles_timestamp m) (g_jit_debug_mem_usage m)
    (g_dexfile_entries m) (g_jit_code_entries m).
Definition upd_blob_heap (f : gmap ptr (list Byte.byte) → gmap ptr (list Byte.byte)) (m : Mem) : Mem :=
  mkMem (jit_heap m) (f (blob_heap m)) (dex_heap m) (__jit_debug_descriptor m)
    (__jit_debug_descriptor_timestamp m) (__art_debug_dexfiles m)
    (__art_debug_dexfiles_timestamp m) (g_jit_debug_mem_usage m)
    (g_dexfile_entries m) (g_jit_code_entries m).
Definition upd_dex_heap (f : gmap ptr DEXFileEntry → gmap ptr DEXFileEntry) (m : Mem) : Mem :=
  mkMem (jit_heap m) (blob_heap m) (f (dex_heap m)) (__jit_debug_descriptor m)
    (__jit_debug_descriptor_timestamp m) (__art_debug_dexfiles m)
    (__art_debug_dexfiles_timestamp m) (g_jit_debug_mem_usage m)
    (g_dexfile_entries m) (g_jit_code_entries m).
Definition upd_descriptor (f : JITDescriptor → JITDescriptor) (m : Mem) : Mem :=
  mkMem (jit_heap m) (blob_heap m) (dex_heap m) (f (__jit_debug_descriptor m))
    (__jit_debug_descriptor_timestamp m) (__art_debug_dexfiles m)
    (__art_debug_dexfiles_timestamp m) (g_jit_debug_mem_usage m)
    (g_dexfile_entries m) (g_jit_code_entries m).
Definition upd_descriptor_timestamp (f : Z → Z) (m : Mem) : Mem :=
  mkMem (jit_heap m) (blob_heap m) (dex_heap m) (__jit_debug_descriptor m)
    (f (__jit_debug_descriptor_timestamp m)) (__art_debug_dexfiles m)
    (__art_debug_dexfiles_timestamp m) (g_jit_debug_mem_usage m)
    (g_dexfile_entries m) (g_jit_code_entries m).
Definition upd_dexfiles (f : option ptr → option ptr) (m : Mem) : Mem :=
  mkMem (jit_heap m) (blob_heap m) (dex_heap m) (__jit_debug_descriptor m)
    (__jit_debug_descriptor_timestamp m) (f (__art_debug_dexfiles m))
    (__art_debug_dexfiles_timestamp m) (g_jit_debug_mem_usage m)
    (g_dexfile_entries m) (g_jit_code_entries m).
Definition upd_dexfiles_timestamp (f : Z → Z) (m : Mem) : Mem :=
  mkMem (jit_heap m) (blob_heap m) (dex_heap m) (__jit_debug_descriptor m)
    (__jit_debug_descriptor_timestamp m) (__art_debug_dexfiles m)
    (f (__art_debug_dexfiles_timestamp m)) (g_jit_debug_mem_usage m)
    (g_dexfile_entries m) (g_jit_code_entries m).
Definition upd_mem_usage (f : Z → Z) (m : Mem) : Mem :=
  mkMem (jit_heap m) (blob_heap m) (dex_heap m) (__jit_debug_descriptor m)
    (__jit_debug_descriptor_timestamp m) (__art_debug_dexfiles m)
    (__art_debug_dexfiles_timestamp m) (f (g_jit_debug_mem_usage m))
    (g_dexfile_entries m) (g_jit_code_entries m).
Definition upd_dexfile_entries (f : gmap Z ptr → gmap Z ptr) (m : Mem) : Mem :=
  mkMem (jit_heap m) (blob_heap m) (dex_heap m) (__jit_debug_descriptor m)
    (__jit_debug_descriptor_timestamp m) (__art_debug_dexfiles m)
    (__art_debug_dexfiles_timestamp m) (g_jit_debug_mem_usage m)
    (f (g_dexfile_entries m)) (g_jit_code_entries m).
Definition upd_jit_code_entries (f : gmap Z (option ptr) → gmap Z (option ptr)) (m : Mem) : Mem :=
  mkMem (jit_heap m) (blob_heap m) (dex_heap m) (__jit_debug_descriptor m)
    (__jit_debug_descriptor_timestamp m) (__art_debug_dexfiles m)
    (__art_debug_dexfiles_timestamp m) (g_jit_debug_mem_usage m)
    (g_dexfile_entries m) (f (g_jit_code_entries m)).

(** The statically initialised globals: descriptor [{1, JIT_NOACTION,
    nullptr, nullptr}], both timestamps 0, both lists and tables empty. *)
Definition initial_mem : Mem :=
  mkMem ∅ ∅ ∅ (mkJITDescriptor 1 (JITAction_value JIT_NOACTION) None None)
    0 None 0 0 ∅ ∅.

(** ** What an observer can see happen

    The lock operations of [MutexLock] and the call through
    [__jit_debug_register_code_ptr] are recorded, each with the memory as it
    is at that instant (the view of a handler installed on the notification
    function, or of another thread contending for the lock). *)

Inductive Event : Type :=
  | EvAcquire (m : Mem)
  | EvRelease (m : Mem)
  | EvNotify (m : Mem).

Record State : Type := mkState {
  mem : Mem;
  log : list Event
}.

Definition initial_state : State := mkState initial_mem [].

(** ** The monad *)

Inductive outcome (A : Type) : Type :=
  | Done (a : A)
  | CheckFailure
  | Undefined.
Arguments Done {A} a.
Arguments CheckFailure {A}.
Arguments Undefined {A}.

Definition M (A : Type) : Type := State → outcome (A * State).

#[global] Instance M_ret : MRet M := λ A a s, Done (a, s).
#[global] Instance M_bind : MBind M := λ A B f c s,
  match c s with
  | Done (a, s') => f a s'
  | CheckFailure => CheckFailure
  | Undefined => Undefined
  end.

Definition gets {A} (f : Mem → A) : M A := λ s, Done (f (mem s), s).
Definition update (f : Mem → Mem) : M unit :=
  λ s, Done (tt, mkState (f (mem s)) (log s)).
Definition emit (ev : Mem → Event) : M unit :=
  λ s, Done (tt, mkState (mem s) (log s ++ [ev (mem s)])).
Definition undefined {A} : M A := λ _, Undefined.
Definition CHECK (b : bool) : M unit :=
  λ s, if b then Done (tt, s) else CheckFailure.

(** Result of a computation as final state only. *)
Definition exec {A} (c : M A) (s : State) : option State :=
  match c s with
  | Done (_, s') => Some s'
  | _ => None
  end.

(** ** Storage *)

(** [new T]: an address at which no object of that type is live.  The
    throwing [new] never returns [nullptr], so the source's
    [CHECK(entry != nullptr)] and [CHECK(symfile_copy != nullptr)] after it
    always pass and the allocations below return a [ptr]. *)
Definition alloc {V} (h : gmap ptr V) : ptr := fresh (dom h).

(** [p->f] for [p] a pointer to a [JITCodeEntry]. *)
Definition rd_jit {A} (p : option ptr) (f : JITCodeEntry → A) : M A :=
  match p with
  | None => undefined
  | Some x =>
      h ← gets jit_heap;
      match h !! x with
      | Some e => mret (f e)
      | None => undefined
      end
  end.

(** [p->f = v] for [p] a pointer to a [JITCodeEntry], as the setter [g] of field [f]. *)
Definition wr_jit (p : option ptr) (g : JITCodeEntry → JITCodeEntry) : M unit :=
  match p with
  | None => undefined
  | Some x =>
      h ← gets jit_heap;
      match h !! x with
      | Some _ => update (upd_jit_heap (alter g x))
      | None => undefined
      end
  end.

(** [new JITCodeEntry] followed by the assignments to all its fields. *)
Definition new_JITCodeEntry (e : JITCodeEntry) : M ptr :=
  h ← gets jit_heap;
  let x := alloc h in
  update (upd_jit_heap <[x := e]>);;
  mret x.

(** [delete p] for [p] a pointer to a [JITCodeEntry]. *)
Definition delete_JITCodeEntry (p : option ptr) : M unit :=
  match p with
  | None => mret tt
  | Some x =>
      h ← gets jit_heap;
      match h !! x with
      | Some _ => update (upd_jit_heap (delete x))
      | None => undefined
      end
  end.

(** [new uint8_t[n]] and [memcpy] of [n] bytes into it. *)
Definition new_bytes (bs : list Byte.byte) : M ptr :=
  h ← gets blob_heap;
  let x := alloc h in
  update (upd_blob_heap <[x := bs]>);;
  mret x.

(** [delete[] p]; deleting [nullptr] does nothing. *)
Definition delete_bytes (p : option ptr) : M unit :=
  match p with
  | None => mret tt
  | Some x =>
      h ← gets blob_heap;
      match h !! x with
      | Some _ => update (upd_blob_heap (delete x))
      | None => undefined
      end
  end.

Definition rd_dex {A} (p : option ptr) (f : DEXFileEntry → A) : M A :=
  match p with
  | None => undefined
  | Some x =>
      h ← gets dex_heap;
      match h !! x with
      | Some e => mret (f e)
      | None => undefined
      end
  end.

Definition wr_dex (p : option ptr) (g : DEXFileEntry → DEXFileEntry) : M unit :=
  match p with
  | None => undefined
  | Some x =>
      h ← gets dex_heap;
      match h !! x with
      | Some _ => update (upd_dex_heap (alter g x))
      | None => undefined
      end
  end.

(** [new DEXFileEntry()] followed by the assignments to all its fields. *)
Definition new_DEXFileEntry (e : DEXFileEntry) : M ptr :=
  h ← gets dex_heap;
  let x := alloc h in
  update (upd_dex_heap <[x := e]>);;
  mret x.

Definition delete_DEXFileEntry (p : option ptr) : M unit :=
  match p with
  | None => mret tt
  | Some x =>
      h ← gets dex_heap;
      match h !! x with
      | Some _ => update (upd_dex_heap (delete x))
      | None => undefined
      end
  end.

(** [std::unordered_map::emplace]: inserts unless the key is present. *)
Definition emplace {V} (k : Z) (v : V) (t : gmap Z V) : gmap Z V :=
  match t !! k with
  | None => <[k := v]> t
  | Some _ => t
  end.

(** The call through the pointer [__jit_debug_register_code_ptr]. *)
Definition __jit_debug_register_code : M unit := emit EvNotify.

(** ** The functions of the source *)

Section debugger_interface.

(** [kEnableDChecks]: whether [DCHECK]s are compiled in (debug builds). *)
Variable kEnableDChecks : bool.

Definition DCHECK (c : M bool) : M unit :=
  if kEnableDChecks then b ← c; CHECK b else mret tt.

Definition RegisterDexFileForNative (dexfile_header : Z) : M unit :=
  emit EvAcquire;;
  found ← gets (λ m, g_dexfile_entries m !! dexfile_header);
  match found with
  | None =>
      head ← gets __art_debug_dexfiles;
      x ← new_DEXFileEntry (mkDEXFileEntry head None dexfile_header);
      let entry := Some x in
      next ← rd_dex entry dex_next_;
      match next with
      | Some _ => wr_dex next (set_dex_prev_ entry)
      | None => mret tt
      end;;
      update (upd_dexfiles (λ _, entry));;
      update (upd_dexfiles_timestamp (λ t, wrap32 (t + 1)));;
      update (upd_dexfile_entries (emplace dexfile_header x))
  | Some _ => mret tt
  end;;
  emit EvRelease.

Definition DeregisterDexFileForNative (dexfile_header : Z) : M unit :=
  emit EvAcquire;;
  it ← gets (λ m, g_dexfile_entries m !! dexfile_header);
  match it with
  | Some x =>
      let entry := Some x in
      prev ← rd_dex entry dex_prev_;
      match prev with
      | Some _ => next ← rd_dex entry dex_next_; wr_dex prev (set_dex_next_ next)
      | None => next ← rd_dex entry dex_next_; update (upd_dexfiles (λ _, next))
      end;;
      next ← rd_dex entry dex_next_;
      match next with
      | Some _ => prev ← rd_dex entry dex_prev_; wr_dex next (set_dex_prev_ prev)
      | None => mret tt
      end;;
      update (upd_dexfiles_timestamp (λ t, wrap32 (t + 1)));;
      delete_DEXFileEntry entry;;
      update (upd_dexfile_entries (delete dexfile_header))
  | None => mret tt
  end;;
  emit EvRelease.

Definition CreateJITCodeEntry (symfile : list Byte.byte) : M (option ptr) :=
  DCHECK (mret (negb (Nat.eqb (length symfile) 0)));;
  symfile_copy ← new_bytes symfile;
  first ← gets (λ m, first_entry_ (__jit_debug_descriptor m));
  x ← new_JITCodeEntry
         (mkJITCodeEntry first None (Some symfile_copy) (Z.of_nat (length symfile)) 0);
  let entry := Some x in
  next ← rd_jit entry next_;
  match next with
  | Some _ => wr_jit next (set_prev_ entry)
  | None => mret tt
  end;;
  size ← rd_jit entry symfile_size_;
  update (upd_mem_usage (λ u, wrap64 (u + wrap64 (sizeof_JITCodeEntry + size))));;
  update (upd_descriptor (set_first_entry_ entry));;
  update (upd_descriptor (set_relevant_entry_ entry));;
  update (upd_descriptor (set_action_flag_ (JITAction_value JIT_REGISTER_FN)));;
  update (upd_descriptor_timestamp (λ t, wrap32 (t + 1)));;
  __jit_debug_register_code;;
  mret entry.

Definition DeleteJITCodeEntry (entry : option ptr) : M unit :=
  prev ← rd_jit entry prev_;
  match prev with
  | Some _ => next ← rd_jit entry next_; wr_jit prev (set_next_ next)
  | None => next ← rd_jit entry next_; update (upd_descriptor (set_first_entry_ next))
  end;;
  next ← rd_jit entry next_;
  match next with
  | Some _ => prev ← rd_jit entry prev_; wr_jit next (set_prev_ prev)
  | None => mret tt
  end;;
  size ← rd_jit entry symfile_size_;
  update (upd_mem_usage (λ u, wrap64 (u - wrap64 (sizeof_JITCodeEntry + size))));;
  update (upd_descriptor (set_relevant_entry_ entry));;
  update (upd_descriptor (set_action_flag_ (JITAction_value JIT_UNREGISTER_FN)));;
  update (upd_descriptor_timestamp (λ t, wrap32 (t + 1)));;
  __jit_debug_register_code;;
  addr ← rd_jit entry symfile_addr_;
  delete_bytes addr;;
  delete_JITCodeEntry entry.

(** [g_jit_code_entries[code_address]]: the mapped pointer, after inserting
    [nullptr] under a key that is absent. *)
Definition g_jit_code_entries_subscript (code_address : Z) : M (option ptr) :=
  t ← gets g_jit_code_entries;
  match t !! code_address with
  | Some v => mret v
  | None => update (upd_jit_code_entries <[code_address := None]>);; mret None
  end.

Definition IncrementJITCodeEntryRefcount (entry : option ptr) (code_address : Z) : M unit :=
  DCHECK (mret (bool_decide (entry ≠ None)));;
  DCHECK (t ← gets g_jit_code_entries; mret (bool_decide (t !! code_address = None)));;
  n ← rd_jit entry ref_count;
  wr_jit entry (set_ref_count (wrap32 (n + 1)));;
  update (upd_jit_code_entries (emplace code_address entry)).

Definition DecrementJITCodeEntryRefcount (entry : option ptr) (code_address : Z) : M unit :=
  DCHECK (mret (bool_decide (entry ≠ None)));;
  DCHECK (v ← g_jit_code_entries_subscript code_address; mret (bool_decide (v = entry)));;
  n ← rd_jit entry ref_count;
  wr_jit entry (set_ref_count (wrap32 (n - 1)));;
  (if bool_decide (wrap32 (n - 1) = 0) then DeleteJITCodeEntry entry else mret tt);;
  update (upd_jit_code_entries (delete code_address)).

Definition GetJITCodeEntry (code_address : Z) : M (option ptr) :=
  it ← gets (λ m, g_jit_code_entries m !! code_address);
  match it with
  | None => mret None
  | Some v => mret v
  end.

Definition GetJITCodeEntryMemUsage : M Z :=
  u ← gets g_jit_debug_mem_usage;
  n ← gets (λ m, Z.of_nat (size (g_jit_code_entries m)));
  mret (wrap64 (u + wrap64 (wrap64 (n * 2) * sizeof_voidp))).

End debugger_interface.

(** ** Walking a list

    [walk f h n p] follows the link [f] from [p] for at most [n] objects and
    returns the addresses it visits; it fails when it meets an address with
    no live object or when [n] objects did not reach [nullptr]. *)

Fixpoint walk {N} (f : N → option ptr) (h : gmap ptr N) (fuel : nat)
    (p : option ptr) : option (list ptr) :=
  match p with
  | None => Some []
  | Some x =>
      match fuel with
      | O => None
      | S fuel' =>
          match h !! x with
          | Some e => cons x <$> walk f h fuel' (f e)
          | None => None
          end
      end
  end.

(** [chain f h l p]: following [f] from [p] visits exactly [l], then [nullptr]. *)
Fixpoint chain {N} (f : N → option ptr) (h : gmap ptr N) (l : list ptr)
    (p : option ptr) : Prop :=
  match l with
  | [] => p = None
  | x :: l' => p = Some x ∧ ∃ e, h !! x = Some e ∧ chain f h l' (f e)
  end.

(** A well-formed doubly linked list with head [p]: the forward walk from the
    head visits [l], the backward walk from the last object visits [l]
    reversed, no object is visited twice and the objects visited are exactly
    the live ones. *)
Definition dll {N} (nxt prv : N → option ptr) (h : gmap ptr N) (l : list ptr)
    (p : option ptr) : Prop :=
  chain nxt h l p ∧ chain prv h (reverse l) (last l) ∧ NoDup l ∧
  ∀ x, x ∈ l ↔ is_Some (h !! x).

(** * Vocabulary of the properties *)

(** ** Linking and unlinking

    The two lists are linked and unlinked by the same four assignments; they
    are written once, for any record with a forward and a backward link. *)

(** The store with [g] applied to the object [p] points to, if any. *)
Definition alter_at {N} (g : N → N) (p : option ptr) (h : gmap ptr N) : gmap ptr N :=
  match p with
  | Some y => alter g y h
  | None => h
  end.

(** The store without the object [p] points to, if any. *)
Definition delete_at {N} (p : option ptr) (h : gmap ptr N) : gmap ptr N :=
  match p with
  | Some y => delete y h
  | None => h
  end.

(** The store after the new object [x] was linked in front of head [p]. *)
Definition linked {N} (set_prv : option ptr → N → N) (x : ptr) (e0 : N)
    (p : option ptr) (h : gmap ptr N) : gmap ptr N :=
  alter_at (set_prv (Some x)) p (<[x := e0]> h).

(** The store after the object [x], holding [e], was unlinked and released. *)
Definition unlinked {N} (nxt prv : N → option ptr)
    (set_nxt set_prv : option ptr → N → N) (x : ptr) (e : N)
    (h : gmap ptr N) : gmap ptr N :=
  delete x (alter_at (set_prv (prv e)) (nxt e) (alter_at (set_nxt (nxt e)) (prv e) h)).

(** ** What each function does to the memory

    The memory a call leaves behind, as a function of the memory it starts
    from; the lemmas [*_run] show that the monadic definitions compute
    exactly these. *)

(** The memory when [DeleteJITCodeEntry] calls the notification function. *)
Definition unlinked_mem (x : ptr) (e : JITCodeEntry) (m : Mem) : Mem :=
  upd_descriptor_timestamp (λ t, wrap32 (t + 1))
    (upd_descriptor (set_action_flag_ (JITAction_value JIT_UNREGISTER_FN))
      (upd_descriptor (set_relevant_entry_ (Some x))
        (upd_mem_usage (λ u, wrap64 (u - wrap64 (sizeof_JITCodeEntry + symfile_size_ e)))
          (upd_descriptor
             (λ d, match prev_ e with
                   | Some _ => d
                   | None => set_first_entry_ (next_ e) d
                   end)
             (upd_jit_heap
                (λ h, alter_at (set_prev_ (prev_ e)) (next_ e)
                        (alter_at (set_next_ (next_ e)) (prev_ e) h)) m))))).

(** The memory when [DeleteJITCodeEntry] returns. *)
Definition deleted_mem (x : ptr) (e : JITCodeEntry) (m : Mem) : Mem :=
  upd_jit_heap (delete x)
    (upd_blob_heap (delete_at (symfile_addr_ e)) (unlinked_mem x e m)).

(** The entry that the next [CreateJITCodeEntry] will return. *)
Definition next_entry (m : Mem) : ptr := alloc (jit_heap m).

(** The memory when [CreateJITCodeEntry] calls the notification function,
    which is also the memory when it returns. *)
Definition created_mem (symfile : list Byte.byte) (m : Mem) : Mem :=
  let first := first_entry_ (__jit_debug_descriptor m) in
  let e0 := mkJITCodeEntry first None (Some (alloc (blob_heap m)))
              (Z.of_nat (length symfile)) 0 in
  upd_descriptor_timestamp (λ t, wrap32 (t + 1))
    (upd_descriptor (set_action_flag_ (JITAction_value JIT_REGISTER_FN))
      (upd_descriptor (set_relevant_entry_ (Some (next_entry m)))
        (upd_descriptor (set_first_entry_ (Some (next_entry m)))
          (upd_mem_usage
             (λ u, wrap64 (u + wrap64 (sizeof_JITCodeEntry + Z.of_nat (length symfile))))
             (upd_jit_heap (linked set_prev_ (next_entry m) e0 first)
                (upd_blob_heap <[alloc (blob_heap m) := symfile]> m)))))).

(** The memory after [IncrementJITCodeEntryRefcount] on the live entry [x]. *)
Definition incremented_mem (x : ptr) (e : JITCodeEntry) (code_address : Z) (m : Mem) : Mem :=
  upd_jit_code_entries (emplace code_address (Some x))
    (upd_jit_heap (alter (set_ref_count (wrap32 (ref_count e + 1))) x) m).

(** The memory of [DecrementJITCodeEntryRefcount] after the count of the
    live entry [x] was written back. *)
Definition decremented_mem (x : ptr) (e : JITCodeEntry) (m : Mem) : Mem :=
  upd_jit_heap (alter (set_ref_count (wrap32 (ref_count e - 1))) x) m.

(** The memory after [RegisterDexFileForNative] of a header that is not in
    the table. *)
Definition registered_mem (dexfile_header : Z) (m : Mem) : Mem :=
  let x := alloc (dex_heap m) in
  let head := __art_debug_dexfiles m in
  upd_dexfile_entries (emplace dexfile_header x)
    (upd_dexfiles_timestamp (λ t, wrap32 (t + 1))
      (upd_dexfiles (λ _, Some x)
        (upd_dex_heap
           (linked set_dex_prev_ x (mkDEXFileEntry head None dexfile_header) head) m))).

(** The memory after [DeregisterDexFileForNative] of a header that the table
    maps to the live entry [x]. *)
Definition deregistered_mem (dexfile_header : Z) (x : ptr) (e : DEXFileEntry) (m : Mem) : Mem :=
  upd_dexfile_entries (delete dexfile_header)
    (upd_dex_heap (delete x)
      (upd_dexfiles_timestamp (λ t, wrap32 (t + 1))
        (upd_dexfiles
           (λ p, match dex_prev_ e with
                 | Some _ => p
                 | None => dex_next_ e
                 end)
           (upd_dex_heap
              (λ h, alter_at (set_dex_prev_ (dex_prev_ e)) (dex_next_ e)
                      (alter_at (set_dex_next_ (dex_next_ e)) (dex_prev_ e) h)) m)))).

(** ** The invariant *)

(** The bytes [CreateJITCodeEntry] adds to the accumulator for an entry. *)
Definition entry_bytes (e : JITCodeEntry) : Z :=
  sizeof_JITCodeEntry + symfile_size_ e.

(** The bytes of all live code entries. *)
Definition total_bytes (h : gmap ptr JITCodeEntry) : Z :=
  map_fold (λ _ e acc, entry_bytes e + acc) 0 h.

Abbreviation jit_linked := (linked set_prev_).
Abbreviation jit_unlinked := (unlinked next_ prev_ set_next_ set_prev_).
Abbreviation dex_linked := (linked set_dex_prev_).
Abbreviation dex_unlinked := (unlinked dex_next_ dex_prev_ set_dex_next_ set_dex_prev_).

(** The code entries: the list from [first_entry_] is well formed and holds
    exactly the live entries, each entry owns a live copy of its symbol file
    that no other entry points to and whose length is the recorded size, and
    the accumulator holds the bytes of the live entries. *)
Record jit_inv (m : Mem) : Prop := {
  jit_list :
    ∃ l, dll next_ prev_ (jit_heap m) l (first_entry_ (__jit_debug_descriptor m));
  jit_blob_live : ∀ x e,
    jit_heap m !! x = Some e →
    ∃ b, symfile_addr_ e = Some b ∧ is_Some (blob_heap m !! b);
  jit_blob_inj : ∀ x y ex ey,
    jit_heap m !! x = Some ex → jit_heap m !! y = Some ey →
    symfile_addr_ ex = symfile_addr_ ey → x = y;
  jit_usage : g_jit_debug_mem_usage m = wrap64 (total_bytes (jit_heap m));
  jit_blob_size : ∀ x e b bs,
    jit_heap m !! x = Some e → symfile_addr_ e = Some b →
    blob_heap m !! b = Some bs → symfile_size_ e = Z.of_nat (length bs)
}.

(** The DEX files: the list from [__art_debug_dexfiles] is well formed and
    holds exactly the live entries, and the table maps each header to the
    entry that carries it. *)
Record dex_inv (m : Mem) : Prop := {
  dex_list :
    ∃ l, dll dex_next_ dex_prev_ (dex_heap m) l (__art_debug_dexfiles m);
  dex_index : ∀ k x,
    g_dexfile_entries m !! k = Some x ↔
    ∃ e, dex_heap m !! x = Some e ∧ dexfile_ e = k
}.

(** The invariant of the module: both lists with their tables. *)
Definition Inv (m : Mem) : Prop := jit_inv m ∧ dex_inv m.

(** ** Calls of the interface *)

(** A call of one of the six functions that change the memory. *)
Inductive Op : Type :=
  | OpRegisterDexFile (dexfile_header : Z)
  | OpDeregisterDexFile (dexfile_header : Z)
  | OpCreate (symfile : list Byte.byte)
  | OpDelete (entry : option ptr)
  | OpIncrement (entry : option ptr) (code_address : Z)
  | OpDecrement (entry : option ptr) (code_address : Z).

(** The call [o] in a build with debug checks [d]; the entry that
    [CreateJITCodeEntry] returns is dropped. *)
Definition call (d : bool) (o : Op) : M unit :=
  match o with
  | OpRegisterDexFile h => RegisterDexFileForNative h
  | OpDeregisterDexFile h => DeregisterDexFileForNative h
  | OpCreate symfile => CreateJITCodeEntry d symfile;; mret tt
  | OpDelete entry => DeleteJITCodeEntry entry
  | OpIncrement entry a => IncrementJITCodeEntryRefcount d entry a
  | OpDecrement entry a => DecrementJITCodeEntryRefcount d entry a
  end.

(** The calls [ops] one after the other; the sequence stops at the first
    call that does not return. *)
Fixpoint calls (d : bool) (ops : list Op) : M unit :=
  match ops with
  | [] => mret tt
  | o :: ops' => call d o;; calls d ops'
  end.

(** The state after a sequence of calls, or the starting state when a call
    of the sequence does not return. *)
Definition after (d : bool) (ops : list Op) (s : State) : State :=
  match calls d ops s with
  | Done (_, s') => s'
  | _ => s
  end.

(** ** Example states *)

Definition elf_magic : list Byte.byte := [Byte.x7f; Byte.x45; Byte.x4c; Byte.x46].

(** Three DEX files registered and the middle one gone again, two code
    entries, the older one attached to two code addresses. *)
Definition busy_ops : list Op :=
  [OpRegisterDexFile 4096; OpRegisterDexFile 8192; OpRegisterDexFile 12288;
   OpDeregisterDexFile 8192;
   OpCreate elf_magic; OpCreate [Byte.x00; Byte.x01];
   OpIncrement (Some 1%positive) 4096; OpIncrement (Some 1%positive) 8192].

Definition busy_state : State := after true busy_ops initial_state.

(** Three DEX files registered and three code entries created. *)
Definition three_each_ops : list Op :=
  [OpRegisterDexFile 4096; OpRegisterDexFile 8192; OpRegisterDexFile 12288;
   OpCreate elf_magic; OpCreate [Byte.x00; Byte.x01]; OpCreate [Byte.xff]].

(** The state these calls lead to. *)
Definition three_each : State := after true three_each_ops initial_state.

(** The same, and then the middle entry of each list taken out. *)
Definition splice_ops : list Op :=
  three_each_ops ++ [OpDeregisterDexFile 8192; OpDelete (Some 2%positive)].

(** ** What the properties speak of *)

(** The entries of the DEX file list that carry a given header. *)
Definition dex_entries_of (dexfile_header : Z) (m : Mem) : option (list ptr) :=
  filter (λ y, dexfile_ <$> dex_heap m !! y = Some dexfile_header) <$>
    walk dex_next_ (dex_heap m) (size (dex_heap m)) (__art_debug_dexfiles m).

(** What a debugger reads is the same in [m] and [m']: the descriptor, both
    timestamps, the head of the DEX file list, every DEX file entry, and the
    links, symbol file and size of every code entry. *)
Record same_for_debugger (m m' : Mem) : Prop := {
  same_descriptor : __jit_debug_descriptor m' = __jit_debug_descriptor m;
  same_descriptor_timestamp :
    __jit_debug_descriptor_timestamp m' = __jit_debug_descriptor_timestamp m;
  same_dexfiles : __art_debug_dexfiles m' = __art_debug_dexfiles m;
  same_dexfiles_timestamp :
    __art_debug_dexfiles_timestamp m' = __art_debug_dexfiles_timestamp m;
  same_dex_heap : dex_heap m' = dex_heap m;
  same_blob_heap : blob_heap m' = blob_heap m;
  same_entries : ∀ y,
    set_ref_count 0 <$> jit_heap m' !! y = set_ref_count 0 <$> jit_heap m !! y
}.

(** The code entries reached from [first_entry_] by following [next_]. *)
Definition jit_entries (m : Mem) : option (list ptr) :=
  walk next_ (jit_heap m) (size (jit_heap m))
    (first_entry_ (__jit_debug_descriptor m)).

(** 2^32, the number of values of [ref_count]. *)
Definition two_to_32 : nat := Z.to_nat (2 ^ 32).

(** The code addresses 0, 1, ..., 2^32. *)
Definition many_addresses : list Z := 0 :: (Z.of_nat <$> seq 1 two_to_32).

(** The bytes the query is meant to report: record and symbol file of every
    live code entry, and two pointers for every code address in the table. *)
Definition accounted_bytes (m : Mem) : Z :=
  total_bytes (jit_heap m)
  + 2 * sizeof_voidp * Z.of_nat (size (g_jit_code_entries m)).

(** The value [GetJITCodeEntryMemUsage] returns. *)
Definition mem_usage (s : State) : option Z :=
  match GetJITCodeEntryMemUsage s with
  | Done (u, _) => Some u
  | _ => None
  end.

(** A list is well formed when the walk by the forward link from the head
    ends and visits every live object once, and the walk by the backward
    link from the last object visited gives the same objects in reverse. *)
Definition well_formed_list {N} (nxt prv : N → option ptr) (h : gmap ptr N)
    (head : option ptr) : Prop :=
  ∃ l, walk nxt h (size h) head = Some l ∧
       walk prv h (size h) (last l) = Some (reverse l) ∧
       NoDup l ∧ ∀ x, x ∈ l ↔ is_Some (h !! x).

(** The calls of [RegisterDexFileForNative] in a sequence. *)
Fixpoint registrations (ops : list Op) : nat :=
  match ops with
  | [] => 0
  | OpRegisterDexFile _ :: ops' => S (registrations ops')
  | _ :: ops' => registrations ops'
  end.

(** The calls of [DeregisterDexFileForNative] in a sequence. *)
Fixpoint deregistrations (ops : list Op) : nat :=
  match ops with
  | [] => 0
  | OpDeregisterDexFile _ :: ops' => S (deregistrations ops')
  | _ :: ops' => deregistrations ops'
  end.

(** Every registration in [ops] is of a header that is not registered at
    that point and every deregistration is of a header that is, starting
    with the headers [live] registered. *)
Fixpoint distinct_addresses (live : gset Z) (ops : list Op) : bool :=
  match ops with
  | [] => true
  | OpRegisterDexFile h :: ops' =>
      bool_decide (h ∉ live) && distinct_addresses (live ∪ {[h]}) ops'
  | OpDeregisterDexFile h :: ops' =>
      bool_decide (h ∈ live) && distinct_addresses (live ∖ {[h]}) ops'
  | _ :: ops' => distinct_addresses live ops'
  end.

(** The event is a notification that announces the action [a]. *)
Definition notifies (a : JITAction) (ev : Event) : bool :=
  match ev with
  | EvNotify m =>
      bool_decide (action_flag_ (__jit_debug_descriptor m) = JITAction_value a)
  | _ => false
  end.

(** The number of notifications in a log that announce the action [a]. *)
Fixpoint notified (a : JITAction) (lg : list Event) : nat :=
  match lg with
  | [] => 0
  | ev :: lg' => (if notifies a ev then 1 else 0) + notified a lg'
  end.

(** Registered minus unregistered notifications is the number of live
    code entries. *)
Definition jit_counted (s : State) : Prop :=
  notified JIT_REGISTER_FN (log s)
  = (notified JIT_UNREGISTER_FN (log s) + size (jit_heap (mem s)))%nat.

(** The DEX files reached from [__art_debug_dexfiles] by following
    [dex_next_]. *)
Definition dex_entries (m : Mem) : option (list ptr) :=
  walk dex_next_ (dex_heap m) (size (dex_heap m)) (__art_debug_dexfiles m).

(** The event is an acquisition or a release of the lock. *)
Definition is_lock_event (ev : Event) : bool :=
  match ev with
  | EvAcquire _ | EvRelease _ => true
  | EvNotify _ => false
  end.

(** The calls of [CreateJITCodeEntry] in a sequence. *)
Fixpoint creations (ops : list Op) : nat :=
  match ops with
  | [] => 0
  | OpCreate _ :: ops' => S (creations ops')
  | _ :: ops' => creations ops'
  end.

(** The calls of [DeleteJITCodeEntry] in a sequence. *)
Fixpoint deletions (ops : list Op) : nat :=
  match ops with
  | [] => 0
  | OpDelete _ :: ops' => S (deletions ops')
  | _ :: ops' => deletions ops'
  end.

(** The calls of [DecrementJITCodeEntryRefcount] in a sequence. *)
Fixpoint detaches (ops : list Op) : nat :=
  match ops with
  | [] => 0
  | OpDecrement _ _ :: ops' => S (detaches ops')
  | _ :: ops' => detaches ops'
  end.

(** The sequence calls [RegisterDexFileForNative] and
    [DeregisterDexFileForNative] only. *)
Fixpoint dex_only (ops : list Op) : bool :=
  match ops with
  | [] => true
  | OpRegisterDexFile _ :: ops' | OpDeregisterDexFile _ :: ops' => dex_only ops'
  | _ :: _ => false
  end.

(** The calls of a sequence that change the DEX file list, when the headers
    [live] are registered at its start: the registrations of a header that
    is not registered at that point and the deregistrations of one that
    is. *)
Fixpoint dex_changes (live : gset Z) (ops : list Op) : nat :=
  match ops with
  | [] => 0
  | OpRegisterDexFile h :: ops' =>
      if bool_decide (h ∈ live) then dex_changes live ops'
      else S (dex_changes (live ∪ {[h]}) ops')
  | OpDeregisterDexFile h :: ops' =>
      if bool_decide (h ∈ live) then S (dex_changes (live ∖ {[h]}) ops')
      else dex_changes live ops'
  | _ :: ops' => dex_changes live ops'
  end.

(** The part of the memory that belongs to the code entries. *)
Definition jit_state (m : Mem) :=
  (jit_heap m, blob_heap m, __jit_debug_descriptor m,
   __jit_debug_descriptor_timestamp m, g_jit_debug_mem_usage m, g_jit_code_entries m).

(** The part of the memory that belongs to the DEX files. *)
Definition dex_state (m : Mem) :=
  (dex_heap m, __art_debug_dexfiles m, __art_debug_dexfiles_timestamp m,
   g_dexfile_entries m).

(** What an entry holds besides its links. *)
Definition entry_data (e : JITCodeEntry) : option ptr * Z * Z :=
  (symfile_addr_ e, symfile_size_ e, ref_count e).

(** The number of notifications in a log. *)
Fixpoint notifications (lg : list Event) : nat :=
  match lg with
  | [] => 0
  | EvNotify _ :: lg' => S (notifications lg')
  | _ :: lg' => notifications lg'
  end.

(** The memory that the most recent notification of a log was made in. *)
Fixpoint last_notified (lg : list Event) : option Mem :=
  match lg with
  | [] => None
  | ev :: lg' =>
      match last_notified lg', ev with
      | Some m, _ => Some m
      | None, EvNotify m => Some m
      | None, _ => None
      end
  end.

(** The descriptor is as the most recent notification showed it (as
    statically initialised, if there was none), its version is 1 and its
    timestamp is the number of notifications made, modulo 2^32. *)
Definition descriptor_tracked (s : State) : Prop :=
  version_ (__jit_debug_descriptor (mem s)) = 1 ∧
  __jit_debug_descriptor_timestamp (mem s) = wrap32 (Z.of_nat (notifications (log s))) ∧
  match last_notified (log s) with
  | Some m =>
      __jit_debug_descriptor (mem s) = __jit_debug_descriptor m ∧
      __jit_debug_descriptor_timestamp (mem s) = __jit_debug_descriptor_timestamp m
  | None => __jit_debug_descriptor (mem s) = __jit_debug_descriptor initial_mem
  end.

(** Every live copy of a symbol file belongs to a live code entry, and
    there are as many copies as entries. *)
Definition blobs_owned (m : Mem) : Prop :=
  (∀ b, is_Some (blob_heap m !! b) →
        ∃ x e, jit_heap m !! x = Some e ∧ symfile_addr_ e = Some b) ∧
  size (blob_heap m) = size (jit_heap m).

(** The computation never ends in a failed [CHECK]. *)
Definition no_check {A} (c : M A) : Prop := ∀ s, c s ≠ CheckFailure.

(** * Lemmas *)

Section chains.
Context {N : Type} (f : N → option ptr).
Implicit Types (h : gmap ptr N) (l : list ptr) (p : option ptr).

Lemma chain_walk h l p fuel :
  chain f h l p → (length l ≤ fuel)%nat → walk f h fuel p = Some l.
Proof.
  revert p fuel. induction l as [|x l IH]; intros p fuel Hc Hlen; simpl in *.
  - subst p. by destruct fuel.
  - destruct Hc as (-> & e & He & Hc). destruct fuel as [|fuel]; [lia|].
    simpl. rewrite He. rewrite (IH (f e) fuel Hc); [done | lia].
Qed.

Lemma walk_chain h l p fuel :
  walk f h fuel p = Some l → chain f h l p.
Proof.
  revert p l. induction fuel as [|fuel IH]; intros p l Hw.
  - destruct p; simpl in Hw; [done|]. by inversion Hw.
  - destruct p as [x|]; simpl in Hw; [|by inversion Hw].
    destruct (h !! x) as [e|] eqn:He; [|done].
    destruct (walk f h fuel (f e)) as [l'|] eqn:Hw'; [|done].
    inversion Hw; subst l. simpl. split; [done|]. exists e. split; [done|].
    by apply IH.
Qed.

Lemma chain_head h l p : chain f h l p → p = head l.
Proof. destruct l; simpl; [done|]. by intros [-> _]. Qed.

(** The chain only reads the link [f] of the objects it visits. *)
Lemma chain_agree h h' l p :
  (∀ x e, x ∈ l → h !! x = Some e → ∃ e', h' !! x = Some e' ∧ f e' = f e) →
  chain f h l p → chain f h' l p.
Proof.
  revert p. induction l as [|x l IH]; intros p Hag Hc; simpl in *; [done|].
  destruct Hc as (-> & e & He & Hc). split; [done|].
  destruct (Hag x e) as (e' & He' & Hf); [set_solver | done |].
  exists e'. split; [done|]. rewrite Hf. apply IH; [|done].
  intros y ey Hy. apply Hag. set_solver.
Qed.

(** The link of an object in the middle of a chain is its successor. *)
Lemma chain_lookup_mid h l1 x l2 p e :
  chain f h (l1 ++ x :: l2) p → h !! x = Some e → f e = head l2.
Proof.
  revert p. induction l1 as [|y l1 IH]; intros p Hc Hx; simpl in *.
  - destruct Hc as (_ & e' & He' & Hc). simplify_eq. by eapply chain_head.
  - destruct Hc as (_ & e' & _ & Hc). by eapply IH.
Qed.

(** Every object of a chain is live. *)
Lemma chain_live h l p x : chain f h l p → x ∈ l → is_Some (h !! x).
Proof.
  revert p. induction l as [|y l IH]; intros p Hc Hx; simpl in *.
  - by apply elem_of_nil in Hx.
  - destruct Hc as (_ & e & He & Hc).
    apply elem_of_cons in Hx as [->|Hx]; [by exists e | by eapply IH].
Qed.

(** Taking [x] out of a chain: the predecessor of [x], if there is one, gets
    the link of [x]; the links of the others are as before. *)
Lemma chain_remove h h' l1 x l2 p e :
  chain f h (l1 ++ x :: l2) p →
  NoDup (l1 ++ x :: l2) →
  h !! x = Some e →
  (∀ y ey, y ∈ l1 ++ l2 → last l1 ≠ Some y → h !! y = Some ey →
     ∃ ey', h' !! y = Some ey' ∧ f ey' = f ey) →
  (∀ y ey, last l1 = Some y → h !! y = Some ey →
     ∃ ey', h' !! y = Some ey' ∧ f ey' = f e) →
  chain f h' (l1 ++ l2) (match l1 with [] => f e | _ => p end).
Proof.
  revert p. induction l1 as [|y l1 IH]; intros p Hc Hnd Hx Hothers Hpred.
  - simpl in *. destruct Hc as (_ & e' & He' & Hc). simplify_eq.
    eapply chain_agree; [|done]. intros z ez Hz Hez. by apply Hothers.
  - simpl in Hc. destruct Hc as (-> & ey & Hey & Hc).
    simpl in Hnd. apply NoDup_cons in Hnd as [Hy Hnd].
    simpl. split; [done|]. destruct l1 as [|z l1].
    + destruct (Hpred y ey) as (ey' & Hey' & Hf); [done..|].
      exists ey'. split; [done|]. rewrite Hf. simpl in *.
      destruct Hc as (_ & e' & He' & Hc). simplify_eq.
      eapply chain_agree; [|done]. intros z ez Hz Hez.
      apply Hothers; [set_solver | | done]. intros [= ->]. set_solver.
    + destruct (Hothers y ey) as (ey' & Hey' & Hf); [set_solver | | done |].
      { intros Hl. rewrite last_cons_cons in Hl.
        apply Hy. apply elem_of_app. left. by apply last_Some_elem_of. }
      exists ey'. split; [done|]. rewrite Hf.
      apply (IH (f ey)); [done..| |].
      * intros w ew Hw Hlast. apply Hothers; [set_solver|].
        by rewrite last_cons_cons.
      * intros w ew Hlast. apply Hpred. by rewrite last_cons_cons.
Qed.

(** Putting a new object [x] at the end of a chain: the last object, if there
    is one, gets [x] as its link. *)
Lemma chain_snoc h h' l x p e :
  chain f h l p →
  NoDup l → x ∉ l →
  h' !! x = Some e → f e = None →
  (∀ y ey, y ∈ l → last l ≠ Some y → h !! y = Some ey →
     ∃ ey', h' !! y = Some ey' ∧ f ey' = f ey) →
  (∀ y ey, last l = Some y → h !! y = Some ey →
     ∃ ey', h' !! y = Some ey' ∧ f ey' = Some x) →
  chain f h' (l ++ [x]) (match l with [] => Some x | _ => p end).
Proof.
  revert p. induction l as [|y l IH]; intros p Hc Hnd Hx He Hf Hothers Hlast.
  - simpl. split; [done|]. exists e. by rewrite Hf.
  - simpl in Hc. destruct Hc as (-> & ey & Hey & Hc).
    apply NoDup_cons in Hnd as [Hy Hnd].
    simpl. split; [done|]. destruct l as [|z l].
    + destruct (Hlast y ey) as (ey' & Hey' & Hf'); [done..|].
      exists ey'. split; [done|]. rewrite Hf'. simpl. split; [done|].
      exists e. by rewrite Hf.
    + destruct (Hothers y ey) as (ey' & Hey' & Hf'); [set_solver | | done |].
      { intros Hl. rewrite last_cons_cons in Hl.
        apply Hy. by apply last_Some_elem_of. }
      exists ey'. split; [done|]. rewrite Hf'.
      pose proof (chain_head _ _ _ Hc) as Hhd. simpl in Hhd.
      specialize (IH (f ey)). rewrite Hhd in IH |- *. rewrite Hhd in Hc.
      apply IH; [done | done | set_solver | done | done | |].
      * intros w ew Hw Hl. apply Hothers; [set_solver|].
        by rewrite last_cons_cons.
      * intros w ew Hl. apply Hlast. by rewrite last_cons_cons.
Qed.

End chains.

Lemma alter_at_lookup {N A} (φ : N → A) (g : N → N) p (h : gmap ptr N) y ey :
  (∀ e, φ (g e) = φ e) → h !! y = Some ey →
  ∃ ey', alter_at g p h !! y = Some ey' ∧ φ ey' = φ ey.
Proof.
  intros Hg Hy. destruct p as [z|]; simpl; [|by eauto].
  rewrite lookup_alter. case_decide; simplify_eq; [|by eauto].
  rewrite Hy. simpl. eauto.
Qed.

Lemma alter_at_lookup_inv {N A} (φ : N → A) (g : N → N) p (h : gmap ptr N) y ey' :
  (∀ e, φ (g e) = φ e) → alter_at g p h !! y = Some ey' →
  ∃ ey, h !! y = Some ey ∧ φ ey' = φ ey.
Proof.
  intros Hg Hy. destruct p as [z|]; simpl in Hy; [|by eauto].
  rewrite lookup_alter in Hy. case_decide; simplify_eq; [|by eauto].
  destruct (h !! y) as [ey|]; simplify_eq/=. eauto.
Qed.

Lemma alter_at_is_Some {N} (g : N → N) p (h : gmap ptr N) y :
  is_Some (alter_at g p h !! y) ↔ is_Some (h !! y).
Proof. destruct p; simpl; [apply lookup_alter_is_Some | done]. Qed.

(** ** Linking and unlinking, for any record with two links *)

Section links.
Context {N : Type} (nxt prv : N → option ptr)
  (set_nxt set_prv : option ptr → N → N).
Hypothesis nxt_set_nxt : ∀ v e, nxt (set_nxt v e) = v.
Hypothesis prv_set_nxt : ∀ v e, prv (set_nxt v e) = prv e.
Hypothesis nxt_set_prv : ∀ v e, nxt (set_prv v e) = nxt e.
Hypothesis prv_set_prv : ∀ v e, prv (set_prv v e) = v.
Implicit Types (h : gmap ptr N) (l : list ptr) (p : option ptr).

Lemma dll_elem h l p x e : dll nxt prv h l p → h !! x = Some e → x ∈ l.
Proof using Type. intros (_ & _ & _ & Hl) Hx. apply Hl. by exists e. Qed.

Lemma dll_head h l p : dll nxt prv h l p → p = head l.
Proof using Type. intros (Hc & _). by eapply chain_head. Qed.

(** The links of an object of the list are its neighbours in [l]. *)
Lemma dll_neighbours h l1 x l2 p e :
  dll nxt prv h (l1 ++ x :: l2) p → h !! x = Some e →
  nxt e = head l2 ∧ prv e = last l1.
Proof using Type.
  clear nxt_set_nxt prv_set_nxt nxt_set_prv prv_set_prv. clear set_nxt set_prv.
  intros (Hn & Hp & _ & _) Hx. split.
  - by eapply chain_lookup_mid.
  - rewrite reverse_app, reverse_cons, <-(assoc_L (++)) in Hp. simpl in Hp.
    rewrite <-head_reverse. by eapply chain_lookup_mid.
Qed.

Lemma linked_lookup_new x e0 p h l :
  dll nxt prv h l p → h !! x = None → linked set_prv x e0 p h !! x = Some e0.
Proof using Type.
  clear nxt_set_nxt prv_set_nxt nxt_set_prv prv_set_prv. clear set_nxt.
  intros Hd Hx. unfold linked. destruct p as [n|]; simpl.
  - rewrite lookup_alter_ne; [by rewrite lookup_insert_eq|].
    intros ->. pose proof (dll_head _ _ _ Hd) as Hh.
    destruct Hd as (_ & _ & _ & Hl). destruct l as [|y l]; [done|].
    simpl in Hh. simplify_eq. specialize (Hl y). rewrite Hx in Hl.
    destruct Hl as [Hl _]. destruct Hl; [set_solver|done].
  - by rewrite lookup_insert_eq.
Qed.

Lemma linked_lookup_old x e0 p h y ey :
  y ≠ x → h !! y = Some ey →
  ∃ ey', linked set_prv x e0 p h !! y = Some ey' ∧ nxt ey' = nxt ey ∧
         prv ey' = (if decide (p = Some y) then Some x else prv ey).
Proof.
  intros Hne Hy. unfold linked. destruct p as [n|]; simpl.
  - rewrite lookup_alter. destruct (decide (n = y)) as [->|Hn].
    + rewrite lookup_insert_ne by done. rewrite Hy. simpl. eexists. split; [done|].
      rewrite nxt_set_prv, prv_set_prv. by rewrite decide_True.
    + rewrite lookup_insert_ne by done. exists ey. split; [done|].
      rewrite decide_False by congruence. done.
  - rewrite lookup_insert_ne by done. exists ey. split; [done|].
    done.
Qed.

(** Linking a new object at the front keeps the list well formed. *)
Lemma dll_linked h l p x e0 :
  dll nxt prv h l p → h !! x = None → nxt e0 = p → prv e0 = None →
  dll nxt prv (linked set_prv x e0 p h) (x :: l) (Some x).
Proof.
  intros Hd Hx Hn0 Hp0.
  pose proof (linked_lookup_new x e0 p h l Hd Hx) as Hnew.
  pose proof (dll_head _ _ _ Hd) as Hhead.
  destruct Hd as (Hn & Hp & Hnd & Hl).
  assert (x ∉ l) as Hxl.
  { intros Hin. apply Hl in Hin. rewrite Hx in Hin. by destruct Hin. }
  split; [|split; [|split]].
  - simpl. split; [done|]. exists e0. split; [done|]. rewrite Hn0.
    eapply chain_agree; [|done]. intros y ey Hy Hey.
    destruct (linked_lookup_old x e0 p h y ey) as (ey' & ? & ? & _); [set_solver|done|].
    by exists ey'.
  - rewrite reverse_cons.
    replace (last (x :: l)) with
      (match reverse l with [] => Some x | _ => last l end).
    2:{ rewrite last_cons. destruct l as [|z l] using rev_ind; [done|].
        rewrite reverse_snoc, last_snoc. done. }
    eapply chain_snoc; [done| | | done | done | |].
    + by rewrite reverse_Permutation.
    + by rewrite elem_of_reverse.
    + intros y ey Hy Hlast Hey. rewrite last_reverse in Hlast.
      destruct (linked_lookup_old x e0 p h y ey) as (ey' & ? & _ & Hpv).
      { rewrite elem_of_reverse in Hy. set_solver. }
      { done. }
      exists ey'. split; [done|]. rewrite Hpv. rewrite decide_False; [done|].
      by rewrite Hhead.
    + intros y ey Hlast Hey. rewrite last_reverse in Hlast.
      destruct (linked_lookup_old x e0 p h y ey) as (ey' & ? & _ & Hpv).
      { intros ->. apply Hxl. destruct l; simplify_eq/=; set_solver. }
      { done. }
      exists ey'. split; [done|]. rewrite Hpv. rewrite decide_True; [done|].
      by rewrite Hhead.
  - apply NoDup_cons. done.
  - intros y. destruct (decide (y = x)) as [->|Hne].
    + rewrite Hnew. split; [by eexists | set_solver].
    + rewrite elem_of_cons. rewrite Hl. split.
      * intros [?|[ey Hey]]; [done|].
        destruct (linked_lookup_old x e0 p h y ey) as (ey' & ? & _); [done..|].
        by exists ey'.
      * intros Hs. right. unfold linked in Hs. destruct p; simpl in Hs.
        -- rewrite lookup_alter_is_Some in Hs. by rewrite lookup_insert_ne in Hs.
        -- by rewrite lookup_insert_ne in Hs.
Qed.

Lemma unlinked_lookup x e h y ey :
  y ≠ x → h !! y = Some ey →
  ∃ ey', unlinked nxt prv set_nxt set_prv x e h !! y = Some ey' ∧
         nxt ey' = (if decide (prv e = Some y) then nxt e else nxt ey) ∧
         prv ey' = (if decide (nxt e = Some y) then prv e else prv ey).
Proof.
  intros Hne Hy. unfold unlinked. rewrite lookup_delete_ne by done.
  destruct (nxt e) as [nn|], (prv e) as [pp|]; simpl;
    rewrite ?lookup_alter; repeat case_decide; simplify_eq;
    rewrite ?lookup_alter_eq, ?lookup_alter_ne, ?Hy by done; simpl;
    eexists; (split; [done|]);
    rewrite ?nxt_set_nxt, ?prv_set_nxt, ?nxt_set_prv, ?prv_set_prv; done.
Qed.

Lemma unlinked_is_Some x e h y :
  is_Some (unlinked nxt prv set_nxt set_prv x e h !! y) ↔ y ≠ x ∧ is_Some (h !! y).
Proof.
  unfold unlinked. destruct (decide (y = x)) as [->|Hne].
  - rewrite lookup_delete_eq. split; [by intros [] | by intros []].
  - rewrite lookup_delete_ne by done.
    destruct (nxt e), (prv e); simpl; rewrite ?lookup_alter_is_Some; naive_solver.
Qed.

(** Unlinking an object from any position keeps the list well formed. *)
Lemma dll_unlinked h l1 x l2 p e :
  dll nxt prv h (l1 ++ x :: l2) p → h !! x = Some e →
  dll nxt prv (unlinked nxt prv set_nxt set_prv x e h) (l1 ++ l2)
    (match prv e with Some _ => p | None => nxt e end).
Proof.
  intros Hd Hx. destruct (dll_neighbours _ _ _ _ _ _ Hd Hx) as [Hnx Hpv].
  destruct Hd as (Hn & Hp & Hnd & Hl).
  assert (∀ y, y ∈ l1 ++ l2 → y ≠ x) as Hneq.
  { intros y Hy ->. apply NoDup_app in Hnd as (_ & H1 & H2).
    apply NoDup_cons in H2 as [H2 _]. apply elem_of_app in Hy as [Hy|Hy]; [|done].
    apply (H1 x Hy). set_solver. }
  split; [|split; [|split]].
  - replace (match prv e with Some _ => p | None => nxt e end)
      with (match l1 with [] => nxt e | _ => p end).
    2:{ rewrite Hpv. destruct l1 as [|z l1] using rev_ind; [done|].
        rewrite last_snoc. by destruct l1. }
    eapply chain_remove; [done..| |].
    + intros y ey Hy Hlast Hey.
      destruct (unlinked_lookup x e h y ey) as (ey' & ? & Hf & _); [by apply Hneq|done|].
      exists ey'. split; [done|]. rewrite Hf, decide_False; [done|]. by rewrite Hpv.
    + intros y ey Hlast Hey.
      destruct (unlinked_lookup x e h y ey) as (ey' & ? & Hf & _); [|done|].
      { apply Hneq. apply elem_of_app. left. by apply last_Some_elem_of. }
      exists ey'. split; [done|]. rewrite Hf, decide_True; [done|]. by rewrite Hpv.
  - rewrite reverse_app, reverse_cons, <-(assoc_L (++)) in Hp. simpl in Hp.
    rewrite reverse_app.
    replace (last (l1 ++ l2))
      with (match reverse l2 with [] => prv e | _ => last (l1 ++ x :: l2) end).
    2:{ rewrite Hpv. destruct l2 as [|z l2] using rev_ind.
        - by rewrite app_nil_r.
        - rewrite reverse_snoc. rewrite !last_app, last_cons, last_snoc. done. }
    eapply chain_remove; [done | | done | |].
    + assert (reverse l2 ++ x :: reverse l1 ≡ₚ l1 ++ x :: l2) as ->; [|done].
      rewrite !reverse_Permutation, <-!Permutation_middle.
      by rewrite (comm (++) l2).
    + intros y ey Hy Hlast Hey. rewrite last_reverse in Hlast.
      destruct (unlinked_lookup x e h y ey) as (ey' & ? & _ & Hf); [|done|].
      { apply Hneq. rewrite elem_of_app, !elem_of_reverse in Hy.
        rewrite elem_of_app. tauto. }
      exists ey'. split; [done|]. rewrite Hf, decide_False; [done|]. by rewrite Hnx.
    + intros y ey Hlast Hey. rewrite last_reverse in Hlast.
      destruct (unlinked_lookup x e h y ey) as (ey' & ? & _ & Hf); [|done|].
      { apply Hneq. apply elem_of_app. right. destruct l2; simplify_eq/=; set_solver. }
      exists ey'. split; [done|]. rewrite Hf, decide_True; [done|]. by rewrite Hnx.
  - apply NoDup_app in Hnd as (H1 & H2 & H3). apply NoDup_cons in H3 as [H3 H4].
    apply NoDup_app. split; [done|]. split; [|done].
    intros y Hy Hy2. apply (H2 y Hy). set_solver.
  - intros y. rewrite unlinked_is_Some, <-Hl. split.
    + intros Hy. split; [by apply Hneq | set_solver].
    + intros [Hne Hy]. set_solver.
Qed.

(** Changing fields other than the links keeps the list well formed. *)
Lemma dll_alter_other h l p g x :
  (∀ e, nxt (g e) = nxt e) → (∀ e, prv (g e) = prv e) →
  dll nxt prv h l p → dll nxt prv (alter g x h) l p.
Proof using Type.
  clear nxt_set_nxt prv_set_nxt nxt_set_prv prv_set_prv. clear set_nxt set_prv.
  intros Hgn Hgp (Hn & Hp & Hnd & Hl).
  assert (∀ y ey, h !! y = Some ey →
    ∃ ey', alter g x h !! y = Some ey' ∧ nxt ey' = nxt ey ∧ prv ey' = prv ey) as Hag.
  { intros y ey Hy. rewrite lookup_alter. case_decide; simplify_eq.
    - rewrite Hy. simpl. eauto.
    - eauto. }
  split; [|split; [|split]].
  - eapply chain_agree; [|done]. intros y ey _ Hy.
    destruct (Hag y ey Hy) as (ey' & ? & ? & ?). eauto.
  - eapply chain_agree; [|done]. intros y ey _ Hy.
    destruct (Hag y ey Hy) as (ey' & ? & ? & ?). eauto.
  - done.
  - intros y. by rewrite lookup_alter_is_Some.
Qed.

(** The two walks of a well-formed list. *)
Lemma dll_walk h l p :
  dll nxt prv h l p →
  walk nxt h (size h) p = Some l ∧
  walk prv h (size h) (last l) = Some (reverse l).
Proof using Type.
  clear nxt_set_nxt prv_set_nxt nxt_set_prv prv_set_prv. clear set_nxt set_prv.
  intros (Hn & Hp & Hnd & Hl).
  assert (length l ≤ size h)%nat as Hlen.
  { rewrite <-size_dom, <-(size_list_to_set (C := gset ptr) l Hnd).
    apply subseteq_size. intros y Hy. apply elem_of_dom, Hl.
    by apply elem_of_list_to_set in Hy. }
  split; apply chain_walk; try done. by rewrite length_reverse.
Qed.

(** The head of a well-formed list is live. *)
Lemma dll_head_live h l p n : dll nxt prv h l p → p = Some n → is_Some (h !! n).
Proof using Type.
  clear nxt_set_nxt prv_set_nxt nxt_set_prv prv_set_prv. clear set_nxt set_prv.
  intros Hd ->. pose proof (dll_head _ _ _ Hd) as Hh.
  destruct Hd as (_ & _ & _ & Hl). apply Hl.
  destruct l; simplify_eq/=. set_solver.
Qed.

(** The neighbours of an object of a well-formed list are live objects
    other than itself. *)
Lemma dll_live_neighbours h l p x e :
  dll nxt prv h l p → h !! x = Some e →
  (∀ pp, prv e = Some pp → pp ≠ x ∧ is_Some (h !! pp)) ∧
  (∀ nn, nxt e = Some nn → nn ≠ x ∧ is_Some (h !! nn)).
Proof using Type.
  clear nxt_set_nxt prv_set_nxt nxt_set_prv prv_set_prv. clear set_nxt set_prv.
  intros Hd Hx. pose proof (dll_elem _ _ _ _ _ Hd Hx) as Hin.
  apply list_elem_of_split in Hin as (l1 & l2 & ->).
  destruct (dll_neighbours _ _ _ _ _ _ Hd Hx) as [Hnx Hpv].
  destruct Hd as (_ & _ & Hnd & Hl).
  apply NoDup_app in Hnd as (_ & H1 & H2). apply NoDup_cons in H2 as [H2 _].
  split.
  - intros pp Hpp. rewrite Hpv in Hpp. apply last_Some_elem_of in Hpp. split.
    + intros ->. apply (H1 x Hpp). set_solver.
    + apply Hl. set_solver.
  - intros nn Hnn. rewrite Hnx in Hnn.
    assert (nn ∈ l2) as Hin by (destruct l2; simplify_eq/=; set_solver).
    split.
    + by intros ->.
    + apply Hl. set_solver.
Qed.

End links.

(** ** Running the functions

    Each function, under the conditions in which it returns, computes the
    memory given above. *)

Ltac run_unfold :=
  unfold rd_jit, wr_jit, delete_JITCodeEntry, delete_bytes, new_bytes,
    new_JITCodeEntry, rd_dex, wr_dex, new_DEXFileEntry, delete_DEXFileEntry,
    __jit_debug_register_code;
  unfold mbind, M_bind, mret, M_ret, gets, update, emit, undefined, CHECK.

(** Resolves the next lookup the computation is waiting for. *)
Ltac run_lookup :=
  match goal with
  | H : ?t = _ |- context [match ?t with _ => _ end] => rewrite H
  | |- context [match alter ?g ?i ?t !! ?k with _ => _ end] =>
      first
        [ rewrite (lookup_alter_ne g t i k) by done
        | let E := fresh "E" in
          destruct (alter g i t !! k) eqn:E;
          [| exfalso; apply lookup_alter_None in E; congruence ] ]
  | |- context [match <[?i := ?v]> ?t !! ?k with _ => _ end] =>
      first
        [ rewrite (lookup_insert_eq t i v)
        | rewrite (lookup_insert_ne t i k v) by done ]
  | |- context [bool_decide ?P] =>
      first
        [ rewrite (bool_decide_eq_true_2 P) by (done || congruence)
        | rewrite (bool_decide_eq_false_2 P) by (done || congruence) ]
  end.

Ltac run := repeat (simpl; run_lookup); simpl.

Lemma DeleteJITCodeEntry_run x e s :
  jit_heap (mem s) !! x = Some e →
  (∀ pp, prev_ e = Some pp → pp ≠ x ∧ is_Some (jit_heap (mem s) !! pp)) →
  (∀ nn, next_ e = Some nn → nn ≠ x ∧ is_Some (jit_heap (mem s) !! nn)) →
  (∀ b, symfile_addr_ e = Some b → is_Some (blob_heap (mem s) !! b)) →
  DeleteJITCodeEntry (Some x) s =
    Done (tt, mkState (deleted_mem x e (mem s))
                (log s ++ [EvNotify (unlinked_mem x e (mem s))])).
Proof.
  intros Hx Hp Hn Hb. destruct s as [m lg]. simpl in *.
  unfold DeleteJITCodeEntry, deleted_mem, unlinked_mem. run_unfold. run.
  destruct (prev_ e) as [pp|] eqn:Hpe;
    [destruct (Hp pp eq_refl) as [Hne [epp Hpp]]|];
  (destruct (next_ e) as [nn|] eqn:Hne';
    [destruct (Hn nn eq_refl) as [Hne2 [enn Hnn]]|]);
  (destruct (symfile_addr_ e) as [b|] eqn:Hbe;
    [destruct (Hb b eq_refl) as [bs Hbs]|]);
  run; rewrite ?Hpe, ?Hne'; reflexivity.
Qed.

Lemma alloc_fresh {V} (h : gmap ptr V) : h !! alloc h = None.
Proof. apply not_elem_of_dom. unfold alloc. apply is_fresh. Qed.

Lemma DeleteJITCodeEntry_dead entry s :
  (∀ x, entry = Some x → jit_heap (mem s) !! x = None) →
  DeleteJITCodeEntry entry s = Undefined.
Proof.
  intros Hdead. unfold DeleteJITCodeEntry. run_unfold.
  destruct entry as [x|]; [|done]. simpl. by rewrite (Hdead x eq_refl).
Qed.

Lemma CreateJITCodeEntry_run d symfile s :
  (d = true → symfile ≠ []) →
  (∀ n, first_entry_ (__jit_debug_descriptor (mem s)) = Some n →
        is_Some (jit_heap (mem s) !! n)) →
  CreateJITCodeEntry d symfile s =
    Done (Some (next_entry (mem s)),
          mkState (created_mem symfile (mem s))
            (log s ++ [EvNotify (created_mem symfile (mem s))])).
Proof.
  intros Hne Hfirst. destruct s as [m lg]. simpl in *.
  pose proof (alloc_fresh (jit_heap m)) as Hfresh.
  unfold CreateJITCodeEntry, created_mem, next_entry, linked, DCHECK in *.
  assert ((if d then negb (length symfile =? 0)%nat else true) = true) as Hchk.
  { destruct d; [|done]. destruct symfile; [by destruct Hne|done]. }
  destruct d; run_unfold; simpl; [rewrite Hchk|]; run;
  (destruct (first_entry_ (__jit_debug_descriptor m)) as [n|] eqn:Hf;
    [destruct (Hfirst n eq_refl) as [en Hn];
     assert (n ≠ alloc (jit_heap m)) by congruence;
     assert (alloc (jit_heap m) ≠ n) by congruence|]);
  run; reflexivity.
Qed.

Lemma IncrementJITCodeEntryRefcount_run d x e a s :
  jit_heap (mem s) !! x = Some e →
  (d = true → g_jit_code_entries (mem s) !! a = None) →
  IncrementJITCodeEntryRefcount d (Some x) a s =
    Done (tt, mkState (incremented_mem x e a (mem s)) (log s)).
Proof.
  intros Hx Ha. destruct s as [m lg]. simpl in *.
  unfold IncrementJITCodeEntryRefcount, incremented_mem, DCHECK.
  destruct d; [specialize (Ha eq_refl)|]; run_unfold; run; reflexivity.
Qed.

Arguments DeleteJITCodeEntry : simpl never.

Lemma DecrementJITCodeEntryRefcount_run_keep d x e a s :
  jit_heap (mem s) !! x = Some e →
  (d = true → g_jit_code_entries (mem s) !! a = Some (Some x)) →
  wrap32 (ref_count e - 1) ≠ 0 →
  DecrementJITCodeEntryRefcount d (Some x) a s =
    Done (tt, mkState (upd_jit_code_entries (delete a) (decremented_mem x e (mem s)))
                (log s)).
Proof.
  intros Hx Ha Hrc. destruct s as [m lg]. simpl in *.
  unfold DecrementJITCodeEntryRefcount, decremented_mem, DCHECK,
    g_jit_code_entries_subscript.
  destruct d; [specialize (Ha eq_refl)|]; run_unfold; run; reflexivity.
Qed.

Lemma DecrementJITCodeEntryRefcount_run_delete d x e a s :
  let e' := set_ref_count (wrap32 (ref_count e - 1)) e in
  jit_heap (mem s) !! x = Some e →
  (d = true → g_jit_code_entries (mem s) !! a = Some (Some x)) →
  wrap32 (ref_count e - 1) = 0 →
  (∀ pp, prev_ e = Some pp → pp ≠ x ∧ is_Some (jit_heap (mem s) !! pp)) →
  (∀ nn, next_ e = Some nn → nn ≠ x ∧ is_Some (jit_heap (mem s) !! nn)) →
  (∀ b, symfile_addr_ e = Some b → is_Some (blob_heap (mem s) !! b)) →
  DecrementJITCodeEntryRefcount d (Some x) a s =
    Done (tt, mkState
                (upd_jit_code_entries (delete a)
                   (deleted_mem x e' (decremented_mem x e (mem s))))
                (log s ++ [EvNotify (unlinked_mem x e' (decremented_mem x e (mem s)))])).
Proof.
  intros e' Hx Ha Hrc Hp Hn Hb. destruct s as [m lg]. simpl in *.
  assert (DeleteJITCodeEntry (Some x) (mkState (decremented_mem x e m) lg) =
    Done (tt, mkState (deleted_mem x e' (decremented_mem x e m))
                (lg ++ [EvNotify (unlinked_mem x e' (decremented_mem x e m))])))
    as Hdel.
  { apply (DeleteJITCodeEntry_run x e' (mkState (decremented_mem x e m) lg)); simpl.
    - by rewrite lookup_alter_eq, Hx.
    - intros pp Hpp. destruct (Hp pp Hpp) as [? ?]. split; [done|].
      by rewrite lookup_alter_is_Some.
    - intros nn Hnn. destruct (Hn nn Hnn) as [? ?]. split; [done|].
      by rewrite lookup_alter_is_Some.
    - done. }
  unfold DecrementJITCodeEntryRefcount, DCHECK, g_jit_code_entries_subscript.
  unfold decremented_mem in *. simpl in Hdel.
  destruct d; [specialize (Ha eq_refl)|]; run_unfold; run; reflexivity.
Qed.

Lemma RegisterDexFileForNative_run_new dexfile_header s :
  g_dexfile_entries (mem s) !! dexfile_header = None →
  (∀ n, __art_debug_dexfiles (mem s) = Some n → is_Some (dex_heap (mem s) !! n)) →
  RegisterDexFileForNative dexfile_header s =
    Done (tt, mkState (registered_mem dexfile_header (mem s))
                (log s ++ [EvAcquire (mem s);
                           EvRelease (registered_mem dexfile_header (mem s))])).
Proof.
  intros Hk Hhead. destruct s as [m lg]. simpl in *.
  pose proof (alloc_fresh (dex_heap m)) as Hfresh.
  unfold RegisterDexFileForNative, registered_mem, linked.
  run_unfold; run;
  (destruct (__art_debug_dexfiles m) as [n|] eqn:Hf;
    [destruct (Hhead n eq_refl) as [en Hn];
     assert (n ≠ alloc (dex_heap m)) by congruence;
     assert (alloc (dex_heap m) ≠ n) by congruence|]);
  run; rewrite <-(assoc_L (++)); reflexivity.
Qed.

Lemma RegisterDexFileForNative_run_old dexfile_header x s :
  g_dexfile_entries (mem s) !! dexfile_header = Some x →
  RegisterDexFileForNative dexfile_header s =
    Done (tt, mkState (mem s) (log s ++ [EvAcquire (mem s); EvRelease (mem s)])).
Proof.
  intros Hk. destruct s as [m lg]. simpl in *.
  unfold RegisterDexFileForNative.
  run_unfold; run. rewrite <-(assoc_L (++)); reflexivity.
Qed.

Lemma DeregisterDexFileForNative_run_absent dexfile_header s :
  g_dexfile_entries (mem s) !! dexfile_header = None →
  DeregisterDexFileForNative dexfile_header s =
    Done (tt, mkState (mem s) (log s ++ [EvAcquire (mem s); EvRelease (mem s)])).
Proof.
  intros Hk. destruct s as [m lg]. simpl in *.
  unfold DeregisterDexFileForNative.
  run_unfold; run. rewrite <-(assoc_L (++)); reflexivity.
Qed.

Lemma DeregisterDexFileForNative_run_present dexfile_header x e s :
  g_dexfile_entries (mem s) !! dexfile_header = Some x →
  dex_heap (mem s) !! x = Some e →
  (∀ pp, dex_prev_ e = Some pp → pp ≠ x ∧ is_Some (dex_heap (mem s) !! pp)) →
  (∀ nn, dex_next_ e = Some nn → nn ≠ x ∧ is_Some (dex_heap (mem s) !! nn)) →
  DeregisterDexFileForNative dexfile_header s =
    Done (tt, mkState (deregistered_mem dexfile_header x e (mem s))
                (log s ++ [EvAcquire (mem s);
                           EvRelease (deregistered_mem dexfile_header x e (mem s))])).
Proof.
  intros Hk Hx Hp Hn. destruct s as [m lg]. simpl in *.
  unfold DeregisterDexFileForNative, deregistered_mem. run_unfold. run.
  destruct (dex_prev_ e) as [pp|] eqn:Hpe;
    [destruct (Hp pp eq_refl) as [Hne [epp Hpp]]|];
  (destruct (dex_next_ e) as [nn|] eqn:Hne';
    [destruct (Hn nn eq_refl) as [Hne2 [enn Hnn]]|]);
  run; rewrite ?Hpe, ?Hne', <-(assoc_L (++)); reflexivity.
Qed.

(** ** Bytes accounted to the live code entries *)

Lemma total_bytes_empty : total_bytes ∅ = 0.
Proof. unfold total_bytes. by rewrite map_fold_empty. Qed.

Lemma total_bytes_insert h x e :
  h !! x = None → total_bytes (<[x := e]> h) = entry_bytes e + total_bytes h.
Proof.
  intros Hx. unfold total_bytes. rewrite map_fold_insert_L; [done| |done].
  intros. lia.
Qed.

Lemma total_bytes_delete h x e :
  h !! x = Some e → total_bytes h = entry_bytes e + total_bytes (delete x h).
Proof.
  intros Hx. unfold total_bytes. rewrite (map_fold_delete_L _ _ x e h); [done| |done].
  intros. lia.
Qed.

Lemma total_bytes_alter h g x :
  (∀ e, symfile_size_ (g e) = symfile_size_ e) →
  total_bytes (alter g x h) = total_bytes h.
Proof.
  intros Hg. destruct (h !! x) as [e|] eqn:Hx.
  - rewrite (total_bytes_delete h x e Hx).
    rewrite (total_bytes_delete (alter g x h) x (g e)).
    2:{ by rewrite lookup_alter_eq, Hx. }
    rewrite delete_alter_eq. unfold entry_bytes. by rewrite Hg.
  - by rewrite alter_id'.
Qed.

Lemma total_bytes_alter_at h g p :
  (∀ e, symfile_size_ (g e) = symfile_size_ e) →
  total_bytes (alter_at g p h) = total_bytes h.
Proof. intros Hg. destruct p; simpl; [by apply total_bytes_alter | done]. Qed.

(** ** The invariant *)

Lemma jit_dll_linked h l p x e0 :
  dll next_ prev_ h l p → h !! x = None → next_ e0 = p → prev_ e0 = None →
  dll next_ prev_ (jit_linked x e0 p h) (x :: l) (Some x).
Proof. by apply (dll_linked next_ prev_ set_next_ set_prev_). Qed.

Lemma jit_dll_unlinked h l1 x l2 p e :
  dll next_ prev_ h (l1 ++ x :: l2) p → h !! x = Some e →
  dll next_ prev_ (jit_unlinked x e h) (l1 ++ l2)
    (match prev_ e with Some _ => p | None => next_ e end).
Proof. by apply (dll_unlinked next_ prev_ set_next_ set_prev_). Qed.

Lemma dex_dll_linked h l p x e0 :
  dll dex_next_ dex_prev_ h l p → h !! x = None →
  dex_next_ e0 = p → dex_prev_ e0 = None →
  dll dex_next_ dex_prev_ (dex_linked x e0 p h) (x :: l) (Some x).
Proof. by apply (dll_linked dex_next_ dex_prev_ set_dex_next_ set_dex_prev_). Qed.

Lemma dex_dll_unlinked h l1 x l2 p e :
  dll dex_next_ dex_prev_ h (l1 ++ x :: l2) p → h !! x = Some e →
  dll dex_next_ dex_prev_ (dex_unlinked x e h) (l1 ++ l2)
    (match dex_prev_ e with Some _ => p | None => dex_next_ e end).
Proof. by apply (dll_unlinked dex_next_ dex_prev_ set_dex_next_ set_dex_prev_). Qed.

Lemma dll_empty {N} (nxt prv : N → option ptr) : dll nxt prv ∅ [] None.
Proof.
  repeat split; try done; try constructor.
  - by intros ?%elem_of_nil.
  - rewrite lookup_empty. by intros [].
Qed.

Lemma Inv_initial : Inv initial_mem.
Proof.
  split; constructor; simpl.
  - exists []. apply dll_empty.
  - intros x e. by rewrite lookup_empty.
  - intros x y ex ey. by rewrite lookup_empty.
  - by rewrite total_bytes_empty.
  - intros x e b bs. by rewrite lookup_empty.
  - exists []. apply dll_empty.
  - intros k x. rewrite lookup_empty. split; [done|].
    intros (e & He & _). by rewrite lookup_empty in He.
Qed.

Lemma wrap64_add_l a b : wrap64 (wrap64 a + b) = wrap64 (a + b).
Proof. unfold wrap64. by rewrite Zplus_mod_idemp_l. Qed.
Lemma wrap64_add_r a b : wrap64 (a + wrap64 b) = wrap64 (a + b).
Proof. unfold wrap64. by rewrite Zplus_mod_idemp_r. Qed.
Lemma wrap64_sub_l a b : wrap64 (wrap64 a - b) = wrap64 (a - b).
Proof. unfold wrap64. by rewrite Zminus_mod_idemp_l. Qed.
Lemma wrap64_sub_r a b : wrap64 (a - wrap64 b) = wrap64 (a - b).
Proof. unfold wrap64. by rewrite Zminus_mod_idemp_r. Qed.
Lemma wrap64_idemp a : wrap64 (wrap64 a) = wrap64 a.
Proof. unfold wrap64. by rewrite Zmod_mod. Qed.

Lemma jit_inv_created symfile m : jit_inv m → jit_inv (created_mem symfile m).
Proof.
  intros [(l & Hd) Hlive Hinj Hu Hsz].
  pose proof (alloc_fresh (jit_heap m)) as Hx.
  pose proof (alloc_fresh (blob_heap m)) as Hb.
  set (x := alloc (jit_heap m)) in *. set (b := alloc (blob_heap m)) in *.
  set (first := first_entry_ (__jit_debug_descriptor m)) in *.
  set (e0 := mkJITCodeEntry first None (Some b) (Z.of_nat (length symfile)) 0).
  assert (∀ y ey', jit_linked x e0 first (jit_heap m) !! y = Some ey' →
    ∃ ey, <[x := e0]> (jit_heap m) !! y = Some ey ∧
          symfile_addr_ ey' = symfile_addr_ ey) as Hback.
  { intros y ey' Hy. unfold linked in Hy.
    by apply (alter_at_lookup_inv symfile_addr_) in Hy. }
  assert (∀ y ey', jit_linked x e0 first (jit_heap m) !! y = Some ey' →
    ∃ ey, <[x := e0]> (jit_heap m) !! y = Some ey ∧
          symfile_addr_ ey' = symfile_addr_ ey ∧
          symfile_size_ ey' = symfile_size_ ey) as Hback2.
  { intros y ey' Hy. unfold linked in Hy.
    apply (alter_at_lookup_inv (λ e, (symfile_addr_ e, symfile_size_ e))) in Hy
      as (ey & Hey & [= ? ?]); [|done]. by exists ey. }
  assert (∀ y ey, <[x := e0]> (jit_heap m) !! y = Some ey →
    ∃ b', symfile_addr_ ey = Some b' ∧
          is_Some (<[b := symfile]> (blob_heap m) !! b') ∧
          (b' = b ↔ y = x)) as Hown.
  { intros y ey Hy. destruct (decide (y = x)) as [->|Hne].
    - rewrite lookup_insert_eq in Hy. simplify_eq. exists b.
      split; [done|]. split; [by rewrite lookup_insert_eq|done].
    - rewrite lookup_insert_ne in Hy by done.
      destruct (Hlive y ey Hy) as (b' & Hb' & Hsome). exists b'.
      split; [done|]. assert (b' ≠ b) by (intros ->; rewrite Hb in Hsome; by destruct Hsome).
      split; [by rewrite lookup_insert_ne|]. split; [done|]. by intros ->. }
  constructor; simpl; fold x b first e0.
  - exists (x :: l). by apply jit_dll_linked.
  - intros y ey' Hy. destruct (Hback y ey' Hy) as (ey & Hey & Heq).
    destruct (Hown y ey Hey) as (b' & Hb' & Hsome & _).
    exists b'. by rewrite Heq.
  - intros y z ey' ez' Hy Hz Heq.
    destruct (Hback y ey' Hy) as (ey & Hey & Heqy).
    destruct (Hback z ez' Hz) as (ez & Hez & Heqz).
    destruct (Hown y ey Hey) as (by' & Hby & _ & Hyx).
    destruct (Hown z ez Hez) as (bz' & Hbz & _ & Hzx).
    assert (by' = bz') as -> by congruence.
    destruct (decide (y = x)) as [->|Hney].
    + symmetry. apply Hzx. by apply Hyx.
    + destruct (decide (z = x)) as [->|Hnez].
      * apply Hyx. by apply Hzx.
      * rewrite lookup_insert_ne in Hey, Hez by done.
        apply (Hinj y z ey ez Hey Hez). congruence.
  - rewrite Hu. unfold jit_linked, linked.
    rewrite total_bytes_alter_at by done.
    rewrite total_bytes_insert by done.
    rewrite wrap64_add_r, wrap64_add_l. unfold entry_bytes. simpl. f_equal. lia.
  - intros y ey' b' bs Hy Hb' Hbs.
    destruct (Hback2 y ey' Hy) as (ey & Hey & Heqa & Heqs). rewrite Heqs.
    destruct (decide (y = x)) as [->|Hne].
    + rewrite lookup_insert_eq in Hey. injection Hey as <-. simpl in *.
      assert (b' = b) as -> by congruence.
      rewrite lookup_insert_eq in Hbs. by injection Hbs as <-.
    + rewrite lookup_insert_ne in Hey by done.
      destruct (Hlive y ey Hey) as (b'' & Hb'' & Hsome).
      assert (b'' = b') as -> by congruence.
      assert (b' ≠ b) by (intros ->; rewrite Hb in Hsome; by destruct Hsome).
      rewrite lookup_insert_ne in Hbs by done.
      by apply (Hsz y ey b' bs).
Qed.

Lemma unlinked_lookup_inv {N A} (nxt prv : N → option ptr)
    (set_nxt set_prv : option ptr → N → N) (φ : N → A) x e (h : gmap ptr N) y ey' :
  (∀ v e, φ (set_nxt v e) = φ e) → (∀ v e, φ (set_prv v e) = φ e) →
  unlinked nxt prv set_nxt set_prv x e h !! y = Some ey' →
  y ≠ x ∧ ∃ ey, h !! y = Some ey ∧ φ ey' = φ ey.
Proof.
  intros Hn Hp Hy. unfold unlinked in Hy. rewrite lookup_delete in Hy.
  case_decide; [done|]. split; [done|].
  apply (alter_at_lookup_inv φ) in Hy as (e1 & Hy & Heq1); [|done].
  apply (alter_at_lookup_inv φ) in Hy as (e2 & Hy & Heq2); [|done].
  exists e2. split; [done|]. congruence.
Qed.

Lemma unlinked_lookup_fwd {N A} (nxt prv : N → option ptr)
    (set_nxt set_prv : option ptr → N → N) (φ : N → A) x e (h : gmap ptr N) y ey :
  (∀ v e, φ (set_nxt v e) = φ e) → (∀ v e, φ (set_prv v e) = φ e) →
  y ≠ x → h !! y = Some ey →
  ∃ ey', unlinked nxt prv set_nxt set_prv x e h !! y = Some ey' ∧ φ ey' = φ ey.
Proof.
  intros Hn Hp Hne Hy. unfold unlinked. rewrite lookup_delete_ne by done.
  destruct (alter_at_lookup φ (set_nxt (nxt e)) (prv e) h y ey)
    as (e1 & He1 & Hs1); [done..|].
  destruct (alter_at_lookup φ (set_prv (prv e)) (nxt e)
              (alter_at (set_nxt (nxt e)) (prv e) h) y e1)
    as (e2 & He2 & Hs2); [done..|].
  exists e2. split; [done|]. congruence.
Qed.

Lemma total_bytes_unlinked x e h :
  h !! x = Some e →
  total_bytes h = entry_bytes e + total_bytes (jit_unlinked x e h).
Proof.
  intros Hx. unfold unlinked.
  destruct (alter_at_lookup symfile_size_ (set_next_ (next_ e)) (prev_ e) h x e)
    as (e1 & He1 & Hs1); [done..|].
  set (h1 := alter_at (set_next_ (next_ e)) (prev_ e) h) in *.
  destruct (alter_at_lookup symfile_size_ (set_prev_ (prev_ e)) (next_ e) h1 x e1)
    as (e2 & He2 & Hs2); [done..|].
  rewrite <-(total_bytes_alter_at h (set_next_ (next_ e)) (prev_ e)) by done.
  fold h1.
  rewrite <-(total_bytes_alter_at h1 (set_prev_ (prev_ e)) (next_ e)) by done.
  rewrite (total_bytes_delete _ x e2 He2). unfold entry_bytes. congruence.
Qed.

Lemma jit_inv_deleted x e m :
  jit_inv m → jit_heap m !! x = Some e → jit_inv (deleted_mem x e m).
Proof.
  intros [(l & Hd) Hlive Hinj Hu Hsz] Hx.
  destruct (Hlive x e Hx) as (bx & Hbx & _).
  constructor; simpl.
  - pose proof (dll_elem _ _ _ _ _ _ _ Hd Hx) as Hin.
    apply list_elem_of_split in Hin as (l1 & l2 & ->).
    exists (l1 ++ l2).
    pose proof (jit_dll_unlinked _ _ _ _ _ _ Hd Hx) as Hd'.
    unfold unlinked in Hd'. by destruct (prev_ e).
  - intros y ey' Hy.
    apply (unlinked_lookup_inv _ _ _ _ symfile_addr_) in Hy as (Hne & ey & Hey & Heq);
      [|done..].
    destruct (Hlive y ey Hey) as (b' & Hb' & Hsome). exists b'.
    split; [congruence|]. rewrite Hbx. simpl. rewrite lookup_delete_ne; [done|].
    intros <-. apply Hne. apply (Hinj y x ey e Hey Hx). congruence.
  - intros y z ey' ez' Hy Hz Heq.
    apply (unlinked_lookup_inv _ _ _ _ symfile_addr_) in Hy as (_ & ey & Hey & Heqy);
      [|done..].
    apply (unlinked_lookup_inv _ _ _ _ symfile_addr_) in Hz as (_ & ez & Hez & Heqz);
      [|done..].
    apply (Hinj y z ey ez Hey Hez). congruence.
  - rewrite Hu, (total_bytes_unlinked x e _ Hx).
    rewrite wrap64_sub_r, wrap64_sub_l. unfold entry_bytes, unlinked. f_equal. lia.
  - intros y ey' b' bs Hy Hb' Hbs.
    apply (unlinked_lookup_inv _ _ _ _ (λ e, (symfile_addr_ e, symfile_size_ e)))
      in Hy as (Hne & ey & Hey & [= Heqa Heqs]); [|done..].
    rewrite Heqs. rewrite Hbx in Hbs. simpl in Hbs.
    apply lookup_delete_Some in Hbs as [_ Hbs].
    apply (Hsz y ey b' bs); [done|congruence|done].
Qed.

Lemma jit_inv_set_ref_count v x m :
  jit_inv m → jit_inv (upd_jit_heap (alter (set_ref_count v) x) m).
Proof.
  intros [(l & Hd) Hlive Hinj Hu Hsz].
  assert (∀ y ey', alter (set_ref_count v) x (jit_heap m) !! y = Some ey' →
    ∃ ey, jit_heap m !! y = Some ey ∧ symfile_addr_ ey' = symfile_addr_ ey) as Hback.
  { intros y ey' Hy.
    by apply (alter_at_lookup_inv symfile_addr_ _ (Some x)) in Hy. }
  assert (∀ y ey', alter (set_ref_count v) x (jit_heap m) !! y = Some ey' →
    ∃ ey, jit_heap m !! y = Some ey ∧ symfile_addr_ ey' = symfile_addr_ ey ∧
          symfile_size_ ey' = symfile_size_ ey) as Hback2.
  { intros y ey' Hy.
    apply (alter_at_lookup_inv (λ e, (symfile_addr_ e, symfile_size_ e)) _ (Some x))
      in Hy as (ey & Hey & [= ? ?]); [|done]. by exists ey. }
  constructor; simpl.
  - exists l. by apply dll_alter_other.
  - intros y ey' Hy. destruct (Hback y ey' Hy) as (ey & Hey & Heq).
    destruct (Hlive y ey Hey) as (b & ? & ?). exists b. split; [congruence|done].
  - intros y z ey' ez' Hy Hz Heq.
    destruct (Hback y ey' Hy) as (ey & Hey & Heqy).
    destruct (Hback z ez' Hz) as (ez & Hez & Heqz).
    apply (Hinj y z ey ez Hey Hez). congruence.
  - by rewrite total_bytes_alter.
  - intros y ey' b bs Hy Hb Hbs.
    destruct (Hback2 y ey' Hy) as (ey & Hey & Heqa & Heqs). rewrite Heqs.
    apply (Hsz y ey b bs); [done|congruence|done].
Qed.

(** The invariant of the code entries does not read the table of code
    addresses, and the DEX side is a separate part of the memory. *)
Lemma jit_inv_frame m m' :
  jit_heap m' = jit_heap m → blob_heap m' = blob_heap m →
  __jit_debug_descriptor m' = __jit_debug_descriptor m →
  g_jit_debug_mem_usage m' = g_jit_debug_mem_usage m →
  jit_inv m → jit_inv m'.
Proof.
  intros Hh Hb Hd Hu [Hl Hlive Hinj Hus Hsz].
  constructor; rewrite ?Hh, ?Hb, ?Hd, ?Hu; done.
Qed.

Lemma jit_inv_code_entries f m : jit_inv m → jit_inv (upd_jit_code_entries f m).
Proof. by apply jit_inv_frame. Qed.

Lemma dex_inv_frame m m' :
  dex_heap m' = dex_heap m → __art_debug_dexfiles m' = __art_debug_dexfiles m →
  g_dexfile_entries m' = g_dexfile_entries m →
  dex_inv m → dex_inv m'.
Proof.
  intros Hh Hd Hi [Hl Hidx]. constructor; rewrite ?Hh, ?Hd, ?Hi; done.
Qed.

Lemma dex_inv_registered dexfile_header m :
  dex_inv m → g_dexfile_entries m !! dexfile_header = None →
  dex_inv (registered_mem dexfile_header m).
Proof.
  intros [(l & Hd) Hidx] Hk.
  pose proof (alloc_fresh (dex_heap m)) as Hx.
  set (x := alloc (dex_heap m)) in *.
  set (head := __art_debug_dexfiles m) in *.
  set (e0 := mkDEXFileEntry head None dexfile_header).
  constructor; simpl; fold x head e0.
  - exists (x :: l). by apply dex_dll_linked.
  - intros k y. unfold emplace. rewrite Hk. split.
    + intros Hy. destruct (decide (k = dexfile_header)) as [->|Hne].
      * rewrite lookup_insert_eq in Hy. injection Hy as <-.
        destruct (alter_at_lookup dexfile_ (set_dex_prev_ (Some x)) head
                    (<[x := e0]> (dex_heap m)) x e0) as (e' & He' & Heq); [done| |].
        { by rewrite lookup_insert_eq. }
        exists e'. split; [done|]. by rewrite Heq.
      * rewrite lookup_insert_ne in Hy by done.
        apply Hidx in Hy as (e & He & Hk').
        destruct (alter_at_lookup dexfile_ (set_dex_prev_ (Some x)) head
                    (<[x := e0]> (dex_heap m)) y e) as (e' & He' & Heq); [done| |].
        { rewrite lookup_insert_ne; [done|]. intros ->. congruence. }
        exists e'. split; [done|]. congruence.
    + intros (e' & He' & Hk').
      apply (alter_at_lookup_inv dexfile_) in He' as (e & He & Heq); [|done].
      destruct (decide (y = x)) as [->|Hne].
      * rewrite lookup_insert_eq in He. injection He as <-. simpl in Heq.
        rewrite <-Hk', Heq. by rewrite lookup_insert_eq.
      * rewrite lookup_insert_ne in He by done.
        assert (g_dexfile_entries m !! k = Some y) as Hy.
        { apply Hidx. exists e. split; [done|]. congruence. }
        rewrite lookup_insert_ne; [done|]. intros <-. congruence.
Qed.

Lemma dex_inv_deregistered dexfile_header x e m :
  dex_inv m → g_dexfile_entries m !! dexfile_header = Some x →
  dex_heap m !! x = Some e →
  dex_inv (deregistered_mem dexfile_header x e m).
Proof.
  intros [(l & Hd) Hidx] Hk Hx.
  constructor; simpl.
  - pose proof (dll_elem _ _ _ _ _ _ _ Hd Hx) as Hin.
    apply list_elem_of_split in Hin as (l1 & l2 & ->).
    exists (l1 ++ l2).
    pose proof (dex_dll_unlinked _ _ _ _ _ _ Hd Hx) as Hd'.
    unfold unlinked in Hd'. by destruct (dex_prev_ e).
  - intros k y. split.
    + intros Hy. rewrite lookup_delete in Hy. case_decide as Hne; [done|].
      pose proof Hy as Hy'. apply Hidx in Hy' as (ey & Hey & Hk').
      assert (y ≠ x) as Hyx.
      { intros ->. apply Hne. simplify_eq.
        apply Hidx in Hk as (e' & He' & Hk). congruence. }
      destruct (unlinked_lookup_fwd dex_next_ dex_prev_ set_dex_next_ set_dex_prev_
                  dexfile_ x e (dex_heap m) y ey) as (ey' & Hey' & Heq); [done..|].
      exists ey'. split; [done|]. congruence.
    + intros (ey' & Hey' & Hk').
      apply (unlinked_lookup_inv _ _ _ _ dexfile_) in Hey' as (Hne & ey & Hey & Heq);
        [|done..].
      assert (g_dexfile_entries m !! k = Some y) as Hy.
      { apply Hidx. exists ey. split; [done|]. congruence. }
      rewrite lookup_delete_ne; [done|]. intros <-. congruence.
Qed.

(** ** What a call that returns has done *)

Lemma jit_inv_delete_pre m x e :
  jit_inv m → jit_heap m !! x = Some e →
  (∀ pp, prev_ e = Some pp → pp ≠ x ∧ is_Some (jit_heap m !! pp)) ∧
  (∀ nn, next_ e = Some nn → nn ≠ x ∧ is_Some (jit_heap m !! nn)) ∧
  (∀ b, symfile_addr_ e = Some b → is_Some (blob_heap m !! b)).
Proof.
  intros [(l & Hd) Hlive _ _ _] Hx.
  destruct (dll_live_neighbours _ _ _ _ _ _ _ Hd Hx) as [Hp Hn].
  split; [done|]. split; [done|].
  intros b Hb. destruct (Hlive x e Hx) as (b' & Hb' & Hsome). congruence.
Qed.

Lemma jit_inv_first_live m n :
  jit_inv m → first_entry_ (__jit_debug_descriptor m) = Some n →
  is_Some (jit_heap m !! n).
Proof. intros [(l & Hd) _ _ _ _] Hn. by eapply dll_head_live. Qed.

Lemma dex_inv_first_live m n :
  dex_inv m → __art_debug_dexfiles m = Some n → is_Some (dex_heap m !! n).
Proof. intros [(l & Hd) _] Hn. by eapply dll_head_live. Qed.

Lemma DeleteJITCodeEntry_live x e s :
  jit_inv (mem s) → jit_heap (mem s) !! x = Some e →
  DeleteJITCodeEntry (Some x) s =
    Done (tt, mkState (deleted_mem x e (mem s))
                (log s ++ [EvNotify (unlinked_mem x e (mem s))])).
Proof.
  intros Hinv Hx. destruct (jit_inv_delete_pre _ _ _ Hinv Hx) as (? & ? & ?).
  by apply DeleteJITCodeEntry_run.
Qed.

Lemma DeleteJITCodeEntry_Done entry s r s' :
  jit_inv (mem s) → DeleteJITCodeEntry entry s = Done (r, s') →
  ∃ x e, entry = Some x ∧ jit_heap (mem s) !! x = Some e ∧
    s' = mkState (deleted_mem x e (mem s))
           (log s ++ [EvNotify (unlinked_mem x e (mem s))]).
Proof.
  intros Hinv Hrun. destruct entry as [x|].
  - destruct (jit_heap (mem s) !! x) as [e|] eqn:Hx.
    + rewrite (DeleteJITCodeEntry_live x e) in Hrun by done.
      exists x, e. by simplify_eq.
    + rewrite DeleteJITCodeEntry_dead in Hrun; [done|]. by intros ? [= <-].
  - rewrite DeleteJITCodeEntry_dead in Hrun; done.
Qed.

Lemma CreateJITCodeEntry_Done d symfile s r s' :
  jit_inv (mem s) → CreateJITCodeEntry d symfile s = Done (r, s') →
  (d = true → symfile ≠ []) ∧ r = Some (next_entry (mem s)) ∧
  s' = mkState (created_mem symfile (mem s))
         (log s ++ [EvNotify (created_mem symfile (mem s))]).
Proof.
  intros Hinv Hrun.
  assert (d = true → symfile ≠ []) as Hne.
  { intros -> ->. revert Hrun. unfold CreateJITCodeEntry, DCHECK.
    run_unfold. simpl. done. }
  rewrite CreateJITCodeEntry_run in Hrun; [by simplify_eq|done|].
  intros n. by apply jit_inv_first_live.
Qed.

Lemma IncrementJITCodeEntryRefcount_Done d entry a s r s' :
  IncrementJITCodeEntryRefcount d entry a s = Done (r, s') →
  ∃ x e, entry = Some x ∧ jit_heap (mem s) !! x = Some e ∧
    (d = true → g_jit_code_entries (mem s) !! a = None) ∧
    s' = mkState (incremented_mem x e a (mem s)) (log s).
Proof.
  intros Hrun. destruct entry as [x|].
  - destruct (jit_heap (mem s) !! x) as [e|] eqn:Hx.
    + assert (d = true → g_jit_code_entries (mem s) !! a = None) as Ha.
      { intros ->. destruct (g_jit_code_entries (mem s) !! a) eqn:Ha; [|done].
        revert Hrun. unfold IncrementJITCodeEntryRefcount, DCHECK.
        run_unfold. run. done. }
      rewrite (IncrementJITCodeEntryRefcount_run d x e) in Hrun by done.
      exists x, e. by simplify_eq.
    + revert Hrun. unfold IncrementJITCodeEntryRefcount, DCHECK.
      destruct d; run_unfold; simpl; [case_bool_decide|]; run; done.
  - revert Hrun. unfold IncrementJITCodeEntryRefcount, DCHECK.
    destruct d; run_unfold; simpl; done.
Qed.

Lemma DecrementJITCodeEntryRefcount_Done_pre d entry a s r s' :
  DecrementJITCodeEntryRefcount d entry a s = Done (r, s') →
  ∃ x e, entry = Some x ∧ jit_heap (mem s) !! x = Some e ∧
    (d = true → g_jit_code_entries (mem s) !! a = Some (Some x)).
Proof.
  intros Hrun. destruct entry as [x|].
  - destruct (jit_heap (mem s) !! x) as [e|] eqn:Hx.
    + exists x, e. split; [done|]. split; [done|].
      intros ->. revert Hrun.
      unfold DecrementJITCodeEntryRefcount, DCHECK, g_jit_code_entries_subscript.
      run_unfold. run.
      destruct (g_jit_code_entries (mem s) !! a) as [[y|]|] eqn:Ha; simpl;
        try case_bool_decide; simplify_eq; done.
    + revert Hrun.
      unfold DecrementJITCodeEntryRefcount, DCHECK, g_jit_code_entries_subscript.
      destruct d; run_unfold; run;
        [destruct (g_jit_code_entries (mem s) !! a) as [v|]; simpl;
         try case_bool_decide; simpl; rewrite ?Hx|]; done.
  - revert Hrun. unfold DecrementJITCodeEntryRefcount, DCHECK.
    destruct d; run_unfold; simpl; done.
Qed.

Lemma DecrementJITCodeEntryRefcount_Done d entry a s r s' :
  jit_inv (mem s) →
  DecrementJITCodeEntryRefcount d entry a s = Done (r, s') →
  ∃ x e, entry = Some x ∧ jit_heap (mem s) !! x = Some e ∧
    (d = true → g_jit_code_entries (mem s) !! a = Some (Some x)) ∧
    let e' := set_ref_count (wrap32 (ref_count e - 1)) e in
    s' = if bool_decide (wrap32 (ref_count e - 1) = 0)
         then mkState
                (upd_jit_code_entries (delete a)
                   (deleted_mem x e' (decremented_mem x e (mem s))))
                (log s ++ [EvNotify (unlinked_mem x e' (decremented_mem x e (mem s)))])
         else mkState (upd_jit_code_entries (delete a) (decremented_mem x e (mem s)))
                (log s).
Proof.
  intros Hinv Hrun.
  destruct (DecrementJITCodeEntryRefcount_Done_pre _ _ _ _ _ _ Hrun)
    as (x & e & -> & Hx & Ha).
  exists x, e. split; [done|]. split; [done|]. split; [done|]. intros e'.
  case_bool_decide as Hrc.
  - destruct (jit_inv_delete_pre _ _ _ Hinv Hx) as (? & ? & ?).
    rewrite (DecrementJITCodeEntryRefcount_run_delete d x e) in Hrun by done.
    by simplify_eq.
  - rewrite (DecrementJITCodeEntryRefcount_run_keep d x e) in Hrun by done.
    by simplify_eq.
Qed.

Lemma RegisterDexFileForNative_Done dexfile_header s r s' :
  dex_inv (mem s) → RegisterDexFileForNative dexfile_header s = Done (r, s') →
  s' = match g_dexfile_entries (mem s) !! dexfile_header with
       | Some _ => mkState (mem s) (log s ++ [EvAcquire (mem s); EvRelease (mem s)])
       | None => mkState (registered_mem dexfile_header (mem s))
                   (log s ++ [EvAcquire (mem s);
                              EvRelease (registered_mem dexfile_header (mem s))])
       end.
Proof.
  intros Hinv Hrun.
  destruct (g_dexfile_entries (mem s) !! dexfile_header) as [x|] eqn:Hk.
  - rewrite (RegisterDexFileForNative_run_old _ x) in Hrun by done. by simplify_eq.
  - rewrite RegisterDexFileForNative_run_new in Hrun; [by simplify_eq|done|].
    intros n. by apply dex_inv_first_live.
Qed.

Lemma DeregisterDexFileForNative_Done dexfile_header s :
  dex_inv (mem s) →
  DeregisterDexFileForNative dexfile_header s =
    Done (tt,
      match g_dexfile_entries (mem s) !! dexfile_header with
      | Some x =>
          match dex_heap (mem s) !! x with
          | Some e => mkState (deregistered_mem dexfile_header x e (mem s))
                        (log s ++ [EvAcquire (mem s);
                                   EvRelease (deregistered_mem dexfile_header x e (mem s))])
          | None => s
          end
      | None => mkState (mem s) (log s ++ [EvAcquire (mem s); EvRelease (mem s)])
      end).
Proof.
  intros Hinv.
  destruct (g_dexfile_entries (mem s) !! dexfile_header) as [x|] eqn:Hk.
  - pose proof Hk as Hk'. apply (dex_index _ Hinv) in Hk' as (e & Hx & _).
    rewrite Hx. destruct Hinv as [(l & Hd) _].
    destruct (dll_live_neighbours _ _ _ _ _ _ _ Hd Hx) as [Hp Hn].
    by apply DeregisterDexFileForNative_run_present.
  - by apply DeregisterDexFileForNative_run_absent.
Qed.

(** ** Sequences of calls *)

Lemma bind_Done {A B} (c : M A) (k : A → M B) s r s' :
  (c ≫= k) s = Done (r, s') →
  ∃ a s1, c s = Done (a, s1) ∧ k a s1 = Done (r, s').
Proof.
  unfold mbind, M_bind. destruct (c s) as [[a s1]| |]; [|done..].
  intros Hk. by exists a, s1.
Qed.

Lemma bind_run {A B} (c : M A) (k : A → M B) s a s1 :
  c s = Done (a, s1) → (c ≫= k) s = k a s1.
Proof. unfold mbind, M_bind. by intros ->. Qed.

Lemma Inv_call d o s r s' :
  Inv (mem s) → call d o s = Done (r, s') → Inv (mem s').
Proof.
  intros [Hj Hd] Hrun. destruct o as [h|h|symfile|entry|entry a|entry a]; simpl in Hrun.
  - apply RegisterDexFileForNative_Done in Hrun; [|done]. subst s'.
    destruct (g_dexfile_entries (mem s) !! h) eqn:Hk; simpl; [done|].
    split; [by apply (jit_inv_frame (mem s)) | by apply dex_inv_registered].
  - rewrite DeregisterDexFileForNative_Done in Hrun by done. simplify_eq.
    destruct (g_dexfile_entries (mem s) !! h) as [x|] eqn:Hk; simpl; [|done].
    destruct (dex_heap (mem s) !! x) as [e|] eqn:Hx; simpl; [|done].
    split; [by apply (jit_inv_frame (mem s)) | by apply dex_inv_deregistered].
  - apply bind_Done in Hrun as (x & s1 & Hrun & Hret).
    apply CreateJITCodeEntry_Done in Hrun as (_ & _ & ->); [|done].
    unfold mret, M_ret in Hret. simplify_eq. simpl.
    split; [by apply jit_inv_created | by apply (dex_inv_frame (mem s))].
  - apply DeleteJITCodeEntry_Done in Hrun as (x & e & -> & Hx & ->); [|done]. simpl.
    split; [by apply jit_inv_deleted | by apply (dex_inv_frame (mem s))].
  - apply IncrementJITCodeEntryRefcount_Done in Hrun as (x & e & -> & Hx & _ & ->).
    simpl. split; [|by apply (dex_inv_frame (mem s))].
    by apply jit_inv_code_entries, jit_inv_set_ref_count.
  - apply DecrementJITCodeEntryRefcount_Done in Hrun as (x & e & -> & Hx & _ & ->);
      [|done].
    pose proof (jit_inv_set_ref_count (wrap32 (ref_count e - 1)) x _ Hj) as Hj'.
    case_bool_decide; simpl.
    + split; [|by apply (dex_inv_frame (mem s))].
      assert (jit_heap (decremented_mem x e (mem s)) !! x
              = Some (set_ref_count (wrap32 (ref_count e - 1)) e)) as Hx'.
      { simpl. by rewrite lookup_alter_eq, Hx. }
      by apply jit_inv_code_entries, (jit_inv_deleted x).
    + split; [|by apply (dex_inv_frame (mem s))].
      by apply jit_inv_code_entries.
Qed.

Lemma Inv_calls d ops s r s' :
  Inv (mem s) → calls d ops s = Done (r, s') → Inv (mem s').
Proof.
  revert s. induction ops as [|o ops IH]; intros s Hinv Hrun; simpl in Hrun.
  - unfold mret, M_ret in Hrun. by simplify_eq.
  - apply bind_Done in Hrun as (a & s1 & Hcall & Hrest).
    eapply IH; [|done]. by eapply Inv_call.
Qed.

(** ** The entries of a list, read by walking it *)

Lemma dex_entries_dll m l :
  dll dex_next_ dex_prev_ (dex_heap m) l (__art_debug_dexfiles m) →
  dex_entries m = Some l.
Proof. intros Hd. unfold dex_entries. by destruct (dll_walk _ _ _ _ _ Hd) as [-> _]. Qed.

Lemma jit_entries_dll m l :
  dll next_ prev_ (jit_heap m) l (first_entry_ (__jit_debug_descriptor m)) →
  jit_entries m = Some l.
Proof. intros Hd. unfold jit_entries. by destruct (dll_walk _ _ _ _ _ Hd) as [-> _]. Qed.

Lemma dex_entries_inv m l :
  dex_inv m → dex_entries m = Some l →
  dll dex_next_ dex_prev_ (dex_heap m) l (__art_debug_dexfiles m).
Proof.
  intros [(l0 & Hd) _] Hl. rewrite (dex_entries_dll _ _ Hd) in Hl. by simplify_eq.
Qed.

Lemma jit_entries_inv m l :
  jit_inv m → jit_entries m = Some l →
  dll next_ prev_ (jit_heap m) l (first_entry_ (__jit_debug_descriptor m)).
Proof.
  intros [(l0 & Hd) _ _ _ _] Hl. rewrite (jit_entries_dll _ _ Hd) in Hl. by simplify_eq.
Qed.

(** Linking a new object leaves a field that the link setter does not touch
    as it is in every other object. *)
Lemma linked_lookup_field {N A} (φ : N → A) (set_prv : option ptr → N → N)
    x e0 p (h : gmap ptr N) y ey :
  (∀ v e, φ (set_prv v e) = φ e) → y ≠ x → h !! y = Some ey →
  ∃ ey', linked set_prv x e0 p h !! y = Some ey' ∧ φ ey' = φ ey.
Proof.
  intros Hφ Hne Hy. unfold linked. apply alter_at_lookup; [done|].
  by rewrite lookup_insert_ne.
Qed.

(** So does unlinking an object. *)
Lemma unlinked_lookup_field {N A} (nxt prv : N → option ptr)
    (set_nxt set_prv : option ptr → N → N) (φ : N → A) x e (h : gmap ptr N) y :
  (∀ v e, φ (set_nxt v e) = φ e) → (∀ v e, φ (set_prv v e) = φ e) →
  y ≠ x →
  φ <$> unlinked nxt prv set_nxt set_prv x e h !! y = φ <$> h !! y.
Proof.
  intros Hn Hp Hne.
  destruct (h !! y) as [ey|] eqn:Hy.
  - destruct (unlinked_lookup_fwd nxt prv set_nxt set_prv φ x e h y ey)
      as (ey' & -> & Hf); [done..|]. simpl. by rewrite Hf.
  - destruct (unlinked nxt prv set_nxt set_prv x e h !! y) as [ey'|] eqn:Hy'; [|done].
    apply (unlinked_lookup_inv nxt prv set_nxt set_prv φ) in Hy'
      as (_ & ey & Hey & _); [|done..]. congruence.
Qed.

(** [RegisterDexFileForNative] returns for every header. *)
Lemma RegisterDexFileForNative_total dexfile_header s :
  dex_inv (mem s) →
  RegisterDexFileForNative dexfile_header s =
    Done (tt,
      match g_dexfile_entries (mem s) !! dexfile_header with
      | Some _ => mkState (mem s) (log s ++ [EvAcquire (mem s); EvRelease (mem s)])
      | None => mkState (registered_mem dexfile_header (mem s))
                  (log s ++ [EvAcquire (mem s);
                             EvRelease (registered_mem dexfile_header (mem s))])
      end).
Proof.
  intros Hinv. destruct (g_dexfile_entries (mem s) !! dexfile_header) as [x|] eqn:Hk.
  - by apply (RegisterDexFileForNative_run_old _ x).
  - apply RegisterDexFileForNative_run_new; [done|].
    intros n. by apply dex_inv_first_live.
Qed.

(** ** The example state *)

Lemma busy_state_run : calls true busy_ops initial_state = Done (tt, busy_state).
Proof. vm_compute. reflexivity. Qed.

Lemma busy_state_Inv : Inv (mem busy_state).
Proof. exact (Inv_calls _ _ initial_state _ _ Inv_initial busy_state_run). Qed.

Lemma three_each_run : calls true three_each_ops initial_state = Done (tt, three_each).
Proof. vm_compute. reflexivity. Qed.

Lemma three_each_Inv : Inv (mem three_each).
Proof. exact (Inv_calls _ _ initial_state _ _ Inv_initial three_each_run). Qed.

(** * The properties *)

(** ** Deregistering a DEX file that is not registered *)

(** C4: for a header that the table does not hold,
    [DeregisterDexFileForNative] returns without error and leaves the whole
    memory as it was: the list of DEX files, its timestamp and the table are
    unchanged.  The only trace of the call is the lock being taken and given
    back. *)
Theorem deregister_unregistered_is_noop dexfile_header s :
  g_dexfile_entries (mem s) !! dexfile_header = None →
  ∃ s', DeregisterDexFileForNative dexfile_header s = Done (tt, s') ∧
        mem s' = mem s ∧
        __art_debug_dexfiles (mem s') = __art_debug_dexfiles (mem s) ∧
        dex_heap (mem s') = dex_heap (mem s) ∧
        __art_debug_dexfiles_timestamp (mem s') = __art_debug_dexfiles_timestamp (mem s) ∧
        g_dexfile_entries (mem s') = g_dexfile_entries (mem s) ∧
        log s' = log s ++ [EvAcquire (mem s); EvRelease (mem s)].
Proof.
  intros Hk. eexists. split; [by apply DeregisterDexFileForNative_run_absent|].
  by simpl.
Qed.

Lemma deregister_unregistered_is_noop_witness :
  ∃ s', DeregisterDexFileForNative 8192 busy_state = Done (tt, s') ∧
        mem s' = mem busy_state ∧
        __art_debug_dexfiles (mem s') = __art_debug_dexfiles (mem busy_state) ∧
        dex_heap (mem s') = dex_heap (mem busy_state) ∧
        __art_debug_dexfiles_timestamp (mem s') =
          __art_debug_dexfiles_timestamp (mem busy_state) ∧
        g_dexfile_entries (mem s') = g_dexfile_entries (mem busy_state) ∧
        log s' = log busy_state ++ [EvAcquire (mem busy_state); EvRelease (mem busy_state)].
Proof.
  apply (deregister_unregistered_is_noop 8192 busy_state). vm_compute. reflexivity.
Defined.

(** ** Registering a DEX file twice *)

Lemma filter_none {A} (P : A → Prop) `{∀ y, Decision (P y)} (l : list A) :
  (∀ y, y ∈ l → ¬ P y) → filter P l = [].
Proof.
  induction l as [|z l IH]; intros HP; [done|].
  rewrite filter_cons_False by (apply HP; set_solver).
  apply IH. intros y Hy. apply HP. set_solver.
Qed.

Lemma filter_unique {A} (P : A → Prop) `{∀ y, Decision (P y)} (l : list A) x :
  NoDup l → x ∈ l → (∀ y, y ∈ l → P y ↔ y = x) → filter P l = [x].
Proof.
  induction l as [|z l IH]; intros Hnd Hin HP.
  - by apply elem_of_nil in Hin.
  - apply NoDup_cons in Hnd as [Hz Hnd].
    destruct (decide (P z)) as [Hpz|Hpz].
    + rewrite filter_cons_True by done.
      apply HP in Hpz as ->; [|set_solver]. f_equal.
      apply filter_none. intros y Hy Hpy.
      apply HP in Hpy as ->; [done|set_solver].
    + rewrite filter_cons_False by done.
      apply IH; [done| |].
      * apply elem_of_cons in Hin as [->|Hin]; [|done].
        exfalso. apply Hpz. apply HP; [set_solver|done].
      * intros y Hy. apply HP. set_solver.
Qed.

(** C3: registering a header twice.  Both calls return; the second one
    changes nothing in memory (list, table and timestamp are as the first
    call left them); afterwards exactly one entry of the list carries the
    header; and if the header was not registered before, the timestamp was
    bumped once over the two calls.  A call for a header that is already in
    the table never changes the memory. *)
Theorem register_twice_is_idempotent dexfile_header s :
  dex_inv (mem s) →
  ∃ s1 s2,
    RegisterDexFileForNative dexfile_header s = Done (tt, s1) ∧
    RegisterDexFileForNative dexfile_header s1 = Done (tt, s2) ∧
    mem s2 = mem s1 ∧
    (∃ x, dex_entries_of dexfile_header (mem s2) = Some [x]) ∧
    (g_dexfile_entries (mem s) !! dexfile_header = None →
       __art_debug_dexfiles_timestamp (mem s2) =
         wrap32 (__art_debug_dexfiles_timestamp (mem s) + 1)) ∧
    (is_Some (g_dexfile_entries (mem s) !! dexfile_header) → mem s1 = mem s).
Proof.
  intros Hinv.
  assert (∃ s1, RegisterDexFileForNative dexfile_header s = Done (tt, s1) ∧
     dex_inv (mem s1) ∧ is_Some (g_dexfile_entries (mem s1) !! dexfile_header) ∧
     (g_dexfile_entries (mem s) !! dexfile_header = None →
        __art_debug_dexfiles_timestamp (mem s1) =
          wrap32 (__art_debug_dexfiles_timestamp (mem s) + 1)) ∧
     (is_Some (g_dexfile_entries (mem s) !! dexfile_header) → mem s1 = mem s))
    as (s1 & Hrun1 & Hinv1 & [x Hx] & Hts & Hsame).
  { destruct (g_dexfile_entries (mem s) !! dexfile_header) as [x|] eqn:Hk.
    - eexists. split; [by apply (RegisterDexFileForNative_run_old _ x)|]. simpl.
      rewrite Hk. by eauto.
    - eexists. split.
      { apply RegisterDexFileForNative_run_new; [done|].
        intros n. by apply dex_inv_first_live. }
      simpl. split; [by apply dex_inv_registered|].
      unfold emplace. rewrite Hk, lookup_insert_eq.
      split; [by eauto|]. split; [done|]. by intros []. }
  exists s1. eexists. split; [done|].
  split; [by apply (RegisterDexFileForNative_run_old _ x)|]. simpl.
  split; [done|]. split; [|done].
  exists x. unfold dex_entries_of.
  destruct Hinv1 as [(l & Hd) Hidx].
  destruct (dll_walk _ _ _ _ _ Hd) as [-> _]. simpl. f_equal.
  destruct Hd as (_ & _ & Hnd & Hl).
  pose proof Hx as Hx'. apply Hidx in Hx' as (e & He & Hk).
  apply filter_unique; [done| |].
  - apply Hl. by exists e.
  - intros y Hy. split.
    + intros Hf. destruct (dex_heap (mem s1) !! y) as [ey|] eqn:Hey; [|done].
      simpl in Hf. assert (g_dexfile_entries (mem s1) !! dexfile_header = Some y).
      { apply Hidx. exists ey. split; [done|]. congruence. }
      congruence.
    + intros ->. rewrite He. simpl. by rewrite Hk.
Qed.

Lemma register_twice_is_idempotent_witness :
  ∃ s1 s2,
    RegisterDexFileForNative 8192 busy_state = Done (tt, s1) ∧
    RegisterDexFileForNative 8192 s1 = Done (tt, s2) ∧
    mem s2 = mem s1 ∧
    (∃ x, dex_entries_of 8192 (mem s2) = Some [x]) ∧
    (g_dexfile_entries (mem busy_state) !! 8192 = None →
       __art_debug_dexfiles_timestamp (mem s2) =
         wrap32 (__art_debug_dexfiles_timestamp (mem busy_state) + 1)) ∧
    (is_Some (g_dexfile_entries (mem busy_state) !! 8192) → mem s1 = mem busy_state).
Proof.
  apply (register_twice_is_idempotent 8192 busy_state). apply busy_state_Inv.
Defined.

(** ** Creating a code entry *)

(** C9: for a non-empty symbol file, [CreateJITCodeEntry] returns a new
    entry whose symbol file is a buffer that was not allocated before the
    call, that no other entry points to, and that holds exactly the bytes
    passed in; the recorded size is the number of those bytes and the
    reference count is 0. *)
Theorem create_copies_symfile d symfile s :
  jit_inv (mem s) → symfile ≠ [] →
  ∃ x b e s',
    CreateJITCodeEntry d symfile s = Done (Some x, s') ∧
    jit_heap (mem s) !! x = None ∧
    jit_heap (mem s') !! x = Some e ∧
    symfile_addr_ e = Some b ∧
    blob_heap (mem s) !! b = None ∧
    blob_heap (mem s') !! b = Some symfile ∧
    symfile_size_ e = Z.of_nat (length symfile) ∧
    ref_count e = 0 ∧
    (∀ y ey, y ≠ x → jit_heap (mem s') !! y = Some ey → symfile_addr_ ey ≠ Some b).
Proof.
  intros Hinv Hne.
  pose proof (jit_inv_created symfile _ Hinv) as Hinv'.
  destruct Hinv as [(l & Hd) _ _ _ _].
  set (e0 := mkJITCodeEntry (first_entry_ (__jit_debug_descriptor (mem s))) None
               (Some (alloc (blob_heap (mem s)))) (Z.of_nat (length symfile)) 0).
  assert (jit_heap (created_mem symfile (mem s)) !! next_entry (mem s) = Some e0) as Hnew.
  { simpl. eapply (linked_lookup_new next_ prev_); [exact Hd|]. apply alloc_fresh. }
  exists (next_entry (mem s)), (alloc (blob_heap (mem s))), e0. eexists.
  split.
  { apply CreateJITCodeEntry_run; [done|]. intros n. by eapply dll_head_live. }
  simpl. split; [apply alloc_fresh|]. split; [exact Hnew|]. split; [done|].
  split; [apply alloc_fresh|]. split; [by rewrite lookup_insert_eq|].
  split; [done|]. split; [done|].
  intros y ey Hy Hey Hb. apply Hy.
  by apply (jit_blob_inj _ Hinv' y (next_entry (mem s)) ey e0 Hey Hnew).
Qed.

Lemma create_copies_symfile_witness :
  ∃ x b e s',
    CreateJITCodeEntry true elf_magic busy_state = Done (Some x, s') ∧
    jit_heap (mem busy_state) !! x = None ∧
    jit_heap (mem s') !! x = Some e ∧
    symfile_addr_ e = Some b ∧
    blob_heap (mem busy_state) !! b = None ∧
    blob_heap (mem s') !! b = Some elf_magic ∧
    symfile_size_ e = Z.of_nat (length elf_magic) ∧
    ref_count e = 0 ∧
    (∀ y ey, y ≠ x → jit_heap (mem s') !! y = Some ey → symfile_addr_ ey ≠ Some b).
Proof.
  apply (create_copies_symfile true elf_magic busy_state).
  - apply busy_state_Inv.
  - discriminate.
Defined.

(** ** What the notification function sees *)

(** C2: right after [CreateJITCodeEntry] the descriptor names the new entry
    as first and as relevant entry, with action [JIT_REGISTER_FN]; and
    whenever an entry is deleted, by [DeleteJITCodeEntry] itself or by the
    [DecrementJITCodeEntryRefcount] that brings its count to zero, the one
    notification of that call sees a descriptor whose relevant entry is the
    entry being deleted and whose action is [JIT_UNREGISTER_FN].  Creation
    of a non-empty symbol file and deletion of a live entry do return. *)
Theorem descriptor_coherence d s :
  jit_inv (mem s) →
  (∀ symfile r s', CreateJITCodeEntry d symfile s = Done (r, s') →
     is_Some r ∧
     first_entry_ (__jit_debug_descriptor (mem s')) = r ∧
     relevant_entry_ (__jit_debug_descriptor (mem s')) = r ∧
     action_flag_ (__jit_debug_descriptor (mem s')) = JITAction_value JIT_REGISTER_FN) ∧
  (∀ entry r s', DeleteJITCodeEntry entry s = Done (r, s') →
     ∃ m, log s' = log s ++ [EvNotify m] ∧
          relevant_entry_ (__jit_debug_descriptor m) = entry ∧
          action_flag_ (__jit_debug_descriptor m) = JITAction_value JIT_UNREGISTER_FN) ∧
  (∀ entry a r s' x,
     DecrementJITCodeEntryRefcount d entry a s = Done (r, s') →
     entry = Some x → jit_heap (mem s') !! x = None →
     ∃ m, log s' = log s ++ [EvNotify m] ∧
          relevant_entry_ (__jit_debug_descriptor m) = entry ∧
          action_flag_ (__jit_debug_descriptor m) = JITAction_value JIT_UNREGISTER_FN) ∧
  (∀ symfile, symfile ≠ [] → ∃ r s', CreateJITCodeEntry d symfile s = Done (r, s')) ∧
  (∀ x, is_Some (jit_heap (mem s) !! x) →
     ∃ s', DeleteJITCodeEntry (Some x) s = Done (tt, s')).
Proof.
  intros Hinv. repeat split.
  - apply CreateJITCodeEntry_Done in H as (_ & -> & _); [by eexists|done].
  - apply CreateJITCodeEntry_Done in H as (_ & -> & ->); done.
  - apply CreateJITCodeEntry_Done in H as (_ & -> & ->); done.
  - apply CreateJITCodeEntry_Done in H as (_ & -> & ->); done.
  - intros entry r s' Hrun.
    apply DeleteJITCodeEntry_Done in Hrun as (x & e & -> & Hx & ->); [|done].
    eexists. split; [done|]. done.
  - intros entry a r s' x Hrun -> Hgone.
    apply DecrementJITCodeEntryRefcount_Done in Hrun as (x' & e & [= <-] & Hx & _ & ->);
      [|done].
    case_bool_decide.
    + eexists. split; [done|]. done.
    + simpl in Hgone. rewrite lookup_alter_eq, Hx in Hgone. done.
  - intros symfile Hne. eexists _, _. apply CreateJITCodeEntry_run; [done|].
    intros n. by apply jit_inv_first_live.
  - intros x [e Hx]. eexists. by apply (DeleteJITCodeEntry_live x e).
Qed.

Lemma descriptor_coherence_witness :
  (∃ r s', CreateJITCodeEntry true elf_magic busy_state = Done (r, s') ∧
     is_Some r ∧
     first_entry_ (__jit_debug_descriptor (mem s')) = r ∧
     relevant_entry_ (__jit_debug_descriptor (mem s')) = r ∧
     action_flag_ (__jit_debug_descriptor (mem s')) = 1) ∧
  (∃ s' m, DeleteJITCodeEntry (Some 2%positive) busy_state = Done (tt, s') ∧
     log s' = log busy_state ++ [EvNotify m] ∧
     relevant_entry_ (__jit_debug_descriptor m) = Some 2%positive ∧
     action_flag_ (__jit_debug_descriptor m) = 2).
Proof.
  destruct (descriptor_coherence true busy_state) as (Hc & Hd & _ & Hct & Hdt).
  { apply busy_state_Inv. }
  split.
  - destruct (Hct elf_magic) as (r & s' & Hrun); [discriminate|].
    exists r, s'. split; [exact Hrun|]. exact (Hc _ _ _ Hrun).
  - destruct (Hdt 2%positive) as (s' & Hrun); [vm_compute; eauto|].
    destruct (Hd _ _ _ Hrun) as (m & Hm). exists s', m. split; [exact Hrun|exact Hm].
Defined.

(** ** The order of updates, notification and release *)



(** ** Attaching and detaching code addresses *)

Lemma same_for_debugger_set_ref_count v x f m :
  same_for_debugger m
    (upd_jit_code_entries f (upd_jit_heap (alter (set_ref_count v) x) m)).
Proof.
  constructor; simpl; try done.
  intros y. rewrite lookup_alter. case_decide; simplify_eq; [|done].
  by destruct (jit_heap m !! y).
Qed.

(** C10: a returning [IncrementJITCodeEntryRefcount] changes the reference
    count of its entry and the table of code addresses and nothing else:
    the descriptor, both lists, both timestamps and the accumulator are as
    before and no notification is made.  The same holds for a returning
    [DecrementJITCodeEntryRefcount] that leaves a count other than zero.
    Both calls return when their preconditions hold. *)
Theorem refcount_calls_frame d s :
  (∀ entry a r s',
     IncrementJITCodeEntryRefcount d entry a s = Done (r, s') →
     ∃ x e, entry = Some x ∧ jit_heap (mem s) !! x = Some e ∧
       mem s' = upd_jit_code_entries (emplace a (Some x))
                  (upd_jit_heap (alter (set_ref_count (wrap32 (ref_count e + 1))) x)
                     (mem s)) ∧
       same_for_debugger (mem s) (mem s') ∧
       g_dexfile_entries (mem s') = g_dexfile_entries (mem s) ∧
       g_jit_debug_mem_usage (mem s') = g_jit_debug_mem_usage (mem s) ∧
       log s' = log s) ∧
  (∀ entry a r s',
     DecrementJITCodeEntryRefcount d entry a s = Done (r, s') →
     ∃ x e, entry = Some x ∧ jit_heap (mem s) !! x = Some e ∧
       (wrap32 (ref_count e - 1) ≠ 0 →
        mem s' = upd_jit_code_entries (delete a)
                   (upd_jit_heap (alter (set_ref_count (wrap32 (ref_count e - 1))) x)
                      (mem s)) ∧
        same_for_debugger (mem s) (mem s') ∧
        g_dexfile_entries (mem s') = g_dexfile_entries (mem s) ∧
        g_jit_debug_mem_usage (mem s') = g_jit_debug_mem_usage (mem s) ∧
        log s' = log s)) ∧
  (∀ x e a, jit_heap (mem s) !! x = Some e →
     g_jit_code_entries (mem s) !! a = None →
     ∃ s', IncrementJITCodeEntryRefcount d (Some x) a s = Done (tt, s')) ∧
  (∀ x e a, jit_heap (mem s) !! x = Some e →
     g_jit_code_entries (mem s) !! a = Some (Some x) →
     wrap32 (ref_count e - 1) ≠ 0 →
     ∃ s', DecrementJITCodeEntryRefcount d (Some x) a s = Done (tt, s')).
Proof.
  split; [|split; [|split]].
  - intros entry a r s' Hrun.
    apply IncrementJITCodeEntryRefcount_Done in Hrun as (x & e & -> & Hx & _ & ->).
    exists x, e. split; [done|]. split; [done|]. split; [done|].
    split; [apply same_for_debugger_set_ref_count|]. done.
  - intros entry a r s' Hrun.
    destruct (DecrementJITCodeEntryRefcount_Done_pre _ _ _ _ _ _ Hrun)
      as (x & e & -> & Hx & Ha).
    exists x, e. split; [done|]. split; [done|]. intros Hrc.
    rewrite (DecrementJITCodeEntryRefcount_run_keep d x e) in Hrun by done.
    simplify_eq. split; [done|].
    split; [apply same_for_debugger_set_ref_count|]. done.
  - intros x e a Hx Ha. eexists.
    by apply (IncrementJITCodeEntryRefcount_run d x e).
  - intros x e a Hx Ha Hrc. eexists.
    by apply (DecrementJITCodeEntryRefcount_run_keep d x e).
Qed.

Lemma refcount_calls_frame_witness :
  (∃ s', IncrementJITCodeEntryRefcount true (Some 2%positive) 12288 busy_state
           = Done (tt, s') ∧
         same_for_debugger (mem busy_state) (mem s') ∧ log s' = log busy_state) ∧
  (∃ s', DecrementJITCodeEntryRefcount true (Some 1%positive) 4096 busy_state
           = Done (tt, s') ∧
         same_for_debugger (mem busy_state) (mem s') ∧ log s' = log busy_state).
Proof.
  destruct (refcount_calls_frame true busy_state) as (Hinc & Hdec & Hinct & Hdect).
  split.
  - destruct (Hinct 2%positive (mkJITCodeEntry (Some 1%positive) None (Some 2%positive) 2 0)
                12288) as (s' & Hrun); [vm_compute; reflexivity..|].
    destruct (Hinc _ _ _ _ Hrun) as (x & e & _ & _ & _ & Hsame & _ & _ & Hlog).
    exists s'. split; [exact Hrun|]. split; [exact Hsame|exact Hlog].
  - destruct (Hdect 1%positive (mkJITCodeEntry None (Some 2%positive) (Some 1%positive) 4 2)
                4096) as (s' & Hrun); [vm_compute; reflexivity..| |].
    { vm_compute. discriminate. }
    destruct (Hdec _ _ _ _ Hrun) as (x & e & [= <-] & He & Hkeep).
    destruct Hkeep as (_ & Hsame & _ & _ & Hlog).
    { assert (e = mkJITCodeEntry None (Some 2%positive) (Some 1%positive) 4 2) as ->.
      { revert He. vm_compute. congruence. }
      vm_compute. discriminate. }
    exists s'. split; [exact Hrun|]. split; [exact Hsame|exact Hlog].
Defined.

(** ** The life of a code entry *)

Lemma same_for_debugger_refl m : same_for_debugger m m.
Proof. by constructor. Qed.

Lemma same_for_debugger_trans m1 m2 m3 :
  same_for_debugger m1 m2 → same_for_debugger m2 m3 → same_for_debugger m1 m3.
Proof.
  intros [] []. constructor; congruence.
Qed.

Lemma wrap32_idemp a : wrap32 (wrap32 a) = wrap32 a.
Proof. unfold wrap32. by rewrite Zmod_mod. Qed.
Lemma wrap32_add_l a b : wrap32 (wrap32 a + b) = wrap32 (a + b).
Proof. unfold wrap32. by rewrite Zplus_mod_idemp_l. Qed.
Lemma wrap32_sub_l a b : wrap32 (wrap32 a - b) = wrap32 (a - b).
Proof. unfold wrap32. by rewrite Zminus_mod_idemp_l. Qed.
Lemma wrap32_small a : 0 ≤ a < 2 ^ 32 → wrap32 a = a.
Proof. intros. unfold wrap32. by apply Z.mod_small. Qed.

Lemma calls_cons_run d o ops s r s1 :
  call d o s = Done (r, s1) → calls d (o :: ops) s = calls d ops s1.
Proof. intros Hrun. simpl. by rewrite (bind_run _ _ _ _ _ Hrun). Qed.

Lemma calls_app_run d ops1 ops2 s s1 :
  calls d ops1 s = Done (tt, s1) → calls d (ops1 ++ ops2) s = calls d ops2 s1.
Proof.
  revert s. induction ops1 as [|o ops1 IH]; intros s Hrun; simpl in *.
  - unfold mret, M_ret in Hrun. by simplify_eq.
  - apply bind_Done in Hrun as (a & s' & Hcall & Hrest).
    rewrite (bind_run _ _ _ _ _ Hcall). by apply IH.
Qed.

(** Attaching the code addresses [addrs], none of them in the table, to the
    live entry [x]: the count of [x] grows by their number, modulo 2^32,
    the table maps each of them to [x], and nothing else changes. *)
Lemma attach_all d x addrs : ∀ s e,
  jit_heap (mem s) !! x = Some e →
  NoDup addrs →
  (∀ a, a ∈ addrs → g_jit_code_entries (mem s) !! a = None) →
  ∃ s' e',
    calls d (OpIncrement (Some x) <$> addrs) s = Done (tt, s') ∧
    log s' = log s ∧
    jit_heap (mem s') !! x = Some e' ∧
    set_ref_count 0 e' = set_ref_count 0 e ∧
    wrap32 (ref_count e') = wrap32 (ref_count e + Z.of_nat (length addrs)) ∧
    (∀ a, g_jit_code_entries (mem s') !! a =
            if decide (a ∈ addrs) then Some (Some x)
            else g_jit_code_entries (mem s) !! a) ∧
    g_jit_debug_mem_usage (mem s') = g_jit_debug_mem_usage (mem s) ∧
    same_for_debugger (mem s) (mem s').
Proof.
  induction addrs as [|a addrs IH]; intros s e Hx Hnd Hfree.
  - exists s, e. simpl. split; [done|]. split; [done|]. split; [done|].
    split; [done|]. split; [by rewrite Z.add_0_r|]. split; [done|].
    split; [done|]. apply same_for_debugger_refl.
  - apply NoDup_cons in Hnd as [Ha Hnd].
    assert (g_jit_code_entries (mem s) !! a = None) as Hfa by (apply Hfree; set_solver).
    pose proof (IncrementJITCodeEntryRefcount_run d x e a s Hx (λ _, Hfa)) as Hrun.
    set (s1 := mkState (incremented_mem x e a (mem s)) (log s)) in *.
    set (e1 := set_ref_count (wrap32 (ref_count e + 1)) e).
    destruct (IH s1 e1) as (s' & e' & Hcalls & Hlog & Hx' & Hsame & Hrc & Hidx & Hu & Hdbg).
    { simpl. by rewrite lookup_alter_eq, Hx. }
    { done. }
    { intros a' Ha'. simpl. unfold emplace. rewrite Hfa.
      rewrite lookup_insert_ne; [apply Hfree; set_solver|]. intros ->. done. }
    exists s', e'. split.
    { rewrite fmap_cons.
      rewrite (calls_cons_run d (OpIncrement (Some x) a) _ s tt s1 Hrun). exact Hcalls. }
    split; [done|]. split; [done|]. split; [by rewrite Hsame|]. split.
    { rewrite Hrc. simpl. rewrite wrap32_add_l. f_equal. lia. }
    split.
    { intros a'. rewrite Hidx. simpl. unfold emplace. rewrite Hfa.
      destruct (decide (a' = a)) as [->|Hne].
      - rewrite decide_False by done. rewrite lookup_insert_eq.
        rewrite decide_True by set_solver. done.
      - rewrite lookup_insert_ne by done.
        destruct (decide (a' ∈ addrs)).
        + by rewrite decide_True by set_solver.
        + by rewrite decide_False by set_solver. }
    split; [done|].
    eapply same_for_debugger_trans; [|exact Hdbg].
    apply same_for_debugger_set_ref_count.
Qed.

(** Detaching some of the code addresses attached to [x] while others stay
    attached: with at most 2^32 addresses attached the count does not reach
    zero, so the entry stays and nothing but the count and the table
    changes. *)
Lemma detach_some d x detached : ∀ s e (rest : list Z),
  jit_heap (mem s) !! x = Some e →
  wrap32 (ref_count e) = wrap32 (Z.of_nat (length (detached ++ rest))) →
  rest ≠ [] →
  Z.of_nat (length (detached ++ rest)) ≤ 2 ^ 32 →
  NoDup detached →
  (∀ a, a ∈ detached → g_jit_code_entries (mem s) !! a = Some (Some x)) →
  ∃ s' e',
    calls d (OpDecrement (Some x) <$> detached) s = Done (tt, s') ∧
    log s' = log s ∧
    jit_heap (mem s') !! x = Some e' ∧
    set_ref_count 0 e' = set_ref_count 0 e ∧
    wrap32 (ref_count e') = wrap32 (Z.of_nat (length rest)) ∧
    (∀ a, g_jit_code_entries (mem s') !! a =
            if decide (a ∈ detached) then None
            else g_jit_code_entries (mem s) !! a) ∧
    g_jit_debug_mem_usage (mem s') = g_jit_debug_mem_usage (mem s) ∧
    same_for_debugger (mem s) (mem s').
Proof.
  induction detached as [|a detached IH]; intros s e rest Hx Hrc Hrest Hlen Hnd Hidx.
  - exists s, e. simpl. split; [done|]. split; [done|]. split; [done|].
    split; [done|]. split; [done|]. split; [done|]. split; [done|].
    apply same_for_debugger_refl.
  - apply NoDup_cons in Hnd as [Ha Hnd].
    assert (g_jit_code_entries (mem s) !! a = Some (Some x)) as Hfa
      by (apply Hidx; set_solver).
    assert (wrap32 (ref_count e - 1) = wrap32 (Z.of_nat (length (detached ++ rest))))
      as Hrc1.
    { rewrite <-wrap32_sub_l, Hrc, wrap32_sub_l. f_equal. simpl. lia. }
    assert (wrap32 (ref_count e - 1) ≠ 0) as Hnz.
    { rewrite Hrc1. rewrite wrap32_small.
      - rewrite length_app. destruct rest; [done|]. simpl. lia.
      - simpl in Hlen. lia. }
    pose proof (DecrementJITCodeEntryRefcount_run_keep d x e a s Hx (λ _, Hfa) Hnz)
      as Hrun.
    set (s1 := mkState (upd_jit_code_entries (delete a) (decremented_mem x e (mem s)))
                 (log s)) in *.
    set (e1 := set_ref_count (wrap32 (ref_count e - 1)) e).
    destruct (IH s1 e1 rest)
      as (s' & e' & Hcalls & Hlog & Hx' & Hsame & Hrc' & Hidx' & Hu & Hdbg).
    { simpl. by rewrite lookup_alter_eq, Hx. }
    { simpl. by rewrite wrap32_idemp. }
    { done. }
    { simpl in Hlen. lia. }
    { done. }
    { intros a' Ha'. simpl. rewrite lookup_delete_ne; [apply Hidx; set_solver|].
      intros ->. done. }
    exists s', e'. split.
    { rewrite fmap_cons.
      rewrite (calls_cons_run d (OpDecrement (Some x) a) _ s tt s1 Hrun). exact Hcalls. }
    split; [done|]. split; [done|]. split; [by rewrite Hsame|]. split; [done|].
    split.
    { intros a'. rewrite Hidx'. simpl.
      destruct (decide (a' = a)) as [->|Hne].
      - rewrite decide_False by done. rewrite lookup_delete_eq.
        by rewrite decide_True by set_solver.
      - rewrite lookup_delete_ne by done.
        destruct (decide (a' ∈ detached)).
        + by rewrite decide_True by set_solver.
        + by rewrite decide_False by set_solver. }
    split; [done|].
    eapply same_for_debugger_trans; [|exact Hdbg].
    apply same_for_debugger_set_ref_count.
Qed.

(** Detaching the code address that brings the count of [x] to zero. *)
Lemma detach_last d x a s e :
  jit_inv (mem s) →
  jit_heap (mem s) !! x = Some e →
  wrap32 (ref_count e - 1) = 0 →
  g_jit_code_entries (mem s) !! a = Some (Some x) →
  ∃ s' m,
    DecrementJITCodeEntryRefcount d (Some x) a s = Done (tt, s') ∧
    log s' = log s ++ [EvNotify m] ∧
    relevant_entry_ (__jit_debug_descriptor m) = Some x ∧
    action_flag_ (__jit_debug_descriptor m) = JITAction_value JIT_UNREGISTER_FN ∧
    jit_heap (mem s') !! x = None ∧
    jit_inv (mem s') ∧
    g_jit_code_entries (mem s') = delete a (g_jit_code_entries (mem s)) ∧
    g_jit_debug_mem_usage (mem s') =
      wrap64 (g_jit_debug_mem_usage (mem s) - (sizeof_JITCodeEntry + symfile_size_ e)).
Proof.
  intros Hinv Hx Hrc Ha.
  destruct (jit_inv_delete_pre _ _ _ Hinv Hx) as (Hp & Hn & Hb).
  pose proof (DecrementJITCodeEntryRefcount_run_delete d x e a s Hx (λ _, Ha) Hrc Hp Hn Hb)
    as Hrun.
  eexists _, _. split; [exact Hrun|]. simpl.
  split; [done|]. split; [done|]. split; [done|].
  split; [by rewrite lookup_delete_eq|]. split.
  { apply jit_inv_code_entries, (jit_inv_deleted x).
    - by apply jit_inv_set_ref_count.
    - simpl. by rewrite lookup_alter_eq, Hx. }
  split; [done|]. by rewrite wrap64_sub_r.
Qed.

Lemma jit_entries_live m :
  jit_inv m →
  ∃ l, jit_entries m = Some l ∧ NoDup l ∧ ∀ x, x ∈ l ↔ is_Some (jit_heap m !! x).
Proof.
  intros [(l & Hd) _ _ _ _]. exists l.
  destruct (dll_walk _ _ _ _ _ Hd) as [Hw _].
  destruct Hd as (_ & _ & Hnd & Hl). done.
Qed.

Lemma GetJITCodeEntry_run a s :
  GetJITCodeEntry a s =
    Done (match g_jit_code_entries (mem s) !! a with Some v => v | None => None end, s).
Proof.
  unfold GetJITCodeEntry. run_unfold. simpl.
  by destruct (g_jit_code_entries (mem s) !! a).
Qed.

Lemma jit_inv_attach d entry addrs : ∀ s s',
  jit_inv (mem s) →
  calls d (OpIncrement entry <$> addrs) s = Done (tt, s') → jit_inv (mem s').
Proof.
  induction addrs as [|a addrs IH]; intros s s' Hinv Hc; simpl in Hc.
  - unfold mret, M_ret in Hc. by simplify_eq.
  - apply bind_Done in Hc as (r & t & Hcall & Hrest).
    apply IncrementJITCodeEntryRefcount_Done in Hcall as (y & ey & _ & _ & _ & ->).
    eapply IH; [|exact Hrest]. simpl.
    by apply jit_inv_code_entries, jit_inv_set_ref_count.
Qed.

Lemma jit_inv_detach d entry addrs : ∀ s s',
  jit_inv (mem s) →
  calls d (OpDecrement entry <$> addrs) s = Done (tt, s') → jit_inv (mem s').
Proof.
  induction addrs as [|a addrs IH]; intros s s' Hinv Hc; simpl in Hc.
  - unfold mret, M_ret in Hc. by simplify_eq.
  - apply bind_Done in Hc as (r & t & Hcall & Hrest).
    apply DecrementJITCodeEntryRefcount_Done in Hcall as (y & ey & _ & Hy & _ & ->);
      [|done].
    eapply IH; [|exact Hrest].
    pose proof (jit_inv_set_ref_count (wrap32 (ref_count ey - 1)) y _ Hinv) as Hinv1.
    case_bool_decide; simpl.
    + apply jit_inv_code_entries, (jit_inv_deleted y); [done|].
      simpl. by rewrite lookup_alter_eq, Hy.
    + by apply jit_inv_code_entries.
Qed.

(** A new entry with its code addresses attached. *)
Lemma create_and_attach d s symfile addrs :
  jit_inv (mem s) → symfile ≠ [] → NoDup addrs →
  (∀ a, a ∈ addrs → g_jit_code_entries (mem s) !! a = None) →
  ∃ s1 s2 e2,
    let x := next_entry (mem s) in
    CreateJITCodeEntry d symfile s = Done (Some x, s1) ∧
    calls d (OpIncrement (Some x) <$> addrs) s1 = Done (tt, s2) ∧
    jit_heap (mem s) !! x = None ∧
    jit_inv (mem s1) ∧ jit_inv (mem s2) ∧
    jit_heap (mem s2) !! x = Some e2 ∧
    wrap32 (ref_count e2) = wrap32 (Z.of_nat (length addrs)) ∧
    symfile_size_ e2 = Z.of_nat (length symfile) ∧
    (∀ a, g_jit_code_entries (mem s2) !! a =
            if decide (a ∈ addrs) then Some (Some x)
            else g_jit_code_entries (mem s) !! a) ∧
    g_jit_debug_mem_usage (mem s1) =
      wrap64 (g_jit_debug_mem_usage (mem s)
              + (sizeof_JITCodeEntry + Z.of_nat (length symfile))) ∧
    g_jit_debug_mem_usage (mem s2) = g_jit_debug_mem_usage (mem s1) ∧
    g_jit_code_entries (mem s1) = g_jit_code_entries (mem s) ∧
    log s2 = log s ++ [EvNotify (mem s1)].
Proof.
  intros Hinv Hne Hnd Hfree.
  pose proof (jit_inv_created symfile _ Hinv) as Hinv1.
  assert (CreateJITCodeEntry d symfile s =
    Done (Some (next_entry (mem s)),
          mkState (created_mem symfile (mem s))
            (log s ++ [EvNotify (created_mem symfile (mem s))]))) as Hrun.
  { apply CreateJITCodeEntry_run; [done|]. intros n. by apply jit_inv_first_live. }
  set (s1 := mkState (created_mem symfile (mem s))
               (log s ++ [EvNotify (created_mem symfile (mem s))])) in *.
  set (e0 := mkJITCodeEntry (first_entry_ (__jit_debug_descriptor (mem s))) None
               (Some (alloc (blob_heap (mem s)))) (Z.of_nat (length symfile)) 0).
  assert (jit_heap (mem s1) !! next_entry (mem s) = Some e0) as Hnew.
  { simpl. destruct Hinv as [(l & Hd) _ _ _ _].
    eapply (linked_lookup_new next_ prev_); [exact Hd|]. apply alloc_fresh. }
  destruct (attach_all d (next_entry (mem s)) addrs s1 e0 Hnew Hnd)
    as (s2 & e2 & Hcalls & Hlog & Hx2 & Hsame & Hrc & Hidx & Hu & Hdbg).
  { done. }
  exists s1, s2, e2. simpl.
  split; [done|]. split; [done|]. split; [apply alloc_fresh|]. split; [done|].
  split.
  { exact (jit_inv_attach d _ addrs s1 s2 Hinv1 Hcalls). }
  split; [done|]. split.
  { rewrite Hrc. by simpl. }
  split.
  { assert (symfile_size_ (set_ref_count 0 e2) = symfile_size_ (set_ref_count 0 e0)) as Hs
      by (by rewrite Hsame).
    exact Hs. }
  split; [done|]. split; [by rewrite wrap64_add_r|]. split; [done|]. split; [done|].
  done.
Qed.

Lemma detach_prefix d x addrs s2 e2 j :
  jit_inv (mem s2) → jit_heap (mem s2) !! x = Some e2 →
  wrap32 (ref_count e2) = wrap32 (Z.of_nat (length addrs)) →
  NoDup addrs → Z.of_nat (length addrs) ≤ 2 ^ 32 →
  (∀ a, a ∈ addrs → g_jit_code_entries (mem s2) !! a = Some (Some x)) →
  (j < length addrs)%nat →
  ∃ s3 e3,
    calls d (OpDecrement (Some x) <$> take j addrs) s2 = Done (tt, s3) ∧
    log s3 = log s2 ∧ jit_inv (mem s3) ∧
    jit_heap (mem s3) !! x = Some e3 ∧
    symfile_size_ e3 = symfile_size_ e2 ∧
    wrap32 (ref_count e3) = wrap32 (Z.of_nat (length (drop j addrs))) ∧
    (∀ a, g_jit_code_entries (mem s3) !! a =
            if decide (a ∈ take j addrs) then None
            else g_jit_code_entries (mem s2) !! a) ∧
    g_jit_debug_mem_usage (mem s3) = g_jit_debug_mem_usage (mem s2).
Proof.
  intros Hinv Hx Hrc Hnd Hlen Hidx Hj.
  pose proof (take_drop j addrs) as Hsplit.
  destruct (detach_some d x (take j addrs) s2 e2 (drop j addrs))
    as (s3 & e3 & Hcalls & Hlog & Hx3 & Hsame & Hrc3 & Hidx3 & Hu & _).
  - done.
  - by rewrite Hsplit.
  - intros Hnil. apply (f_equal length) in Hnil. rewrite length_drop in Hnil.
    simpl in Hnil. lia.
  - by rewrite Hsplit.
  - rewrite <-Hsplit in Hnd. by apply NoDup_app in Hnd as (? & _).
  - intros a Ha. apply Hidx. rewrite <-Hsplit. set_solver.
  - exists s3, e3. split; [done|]. split; [done|].
    split; [exact (jit_inv_detach d _ _ s2 s3 Hinv Hcalls)|]. split; [done|].
    split; [|done].
    assert (symfile_size_ (set_ref_count 0 e3) = symfile_size_ (set_ref_count 0 e2)) as Hs
      by (by rewrite Hsame).
    exact Hs.
Qed.

Lemma detach_all d x addrs s2 e2 :
  jit_inv (mem s2) → jit_heap (mem s2) !! x = Some e2 →
  wrap32 (ref_count e2) = wrap32 (Z.of_nat (length addrs)) →
  NoDup addrs → (1 ≤ length addrs)%nat → Z.of_nat (length addrs) ≤ 2 ^ 32 →
  (∀ a, a ∈ addrs → g_jit_code_entries (mem s2) !! a = Some (Some x)) →
  ∃ s3 m,
    calls d (OpDecrement (Some x) <$> addrs) s2 = Done (tt, s3) ∧
    log s3 = log s2 ++ [EvNotify m] ∧
    relevant_entry_ (__jit_debug_descriptor m) = Some x ∧
    action_flag_ (__jit_debug_descriptor m) = JITAction_value JIT_UNREGISTER_FN ∧
    jit_heap (mem s3) !! x = None ∧ jit_inv (mem s3) ∧
    (∀ a, g_jit_code_entries (mem s3) !! a =
            if decide (a ∈ addrs) then None
            else g_jit_code_entries (mem s2) !! a) ∧
    g_jit_debug_mem_usage (mem s3) =
      wrap64 (g_jit_debug_mem_usage (mem s2) - (sizeof_JITCodeEntry + symfile_size_ e2)).
Proof.
  intros Hinv Hx Hrc Hnd Hpos Hlen Hidx.
  destruct addrs as [|a0 addrs0] using rev_ind; [simpl in Hpos; lia|]. clear IHaddrs0.
  rename addrs0 into init, a0 into a.
  destruct (detach_prefix d x (init ++ [a]) s2 e2 (length init))
    as (s3 & e3 & Hcalls & Hlog & Hinv3 & Hx3 & Hsz & Hrc3 & Hidx3 & Hu); [done..| |].
  { rewrite length_app. simpl. lia. }
  rewrite take_app_length in Hcalls, Hidx3. rewrite drop_app_length in Hrc3.
  apply NoDup_app in Hnd as (_ & Hdisj & _).
  destruct (detach_last d x a s3 e3 Hinv3 Hx3)
    as (s4 & m & Hrun & Hlog4 & Hrel & Hact & Hgone & Hinv4 & Hidx4 & Hu4).
  { rewrite <-wrap32_sub_l, Hrc3. done. }
  { rewrite Hidx3. rewrite decide_False.
    - apply Hidx. set_solver.
    - intros Hin. apply (Hdisj a Hin). set_solver. }
  exists s4, m. split.
  { rewrite fmap_app. rewrite (calls_app_run d _ _ s2 s3 Hcalls). simpl.
    rewrite (bind_run _ _ _ _ _ Hrun). done. }
  split; [by rewrite Hlog4, Hlog|]. split; [done|]. split; [done|]. split; [done|].
  split; [done|]. split.
  - intros a'. rewrite Hidx4. destruct (decide (a' = a)) as [->|Hne].
    + rewrite lookup_delete_eq. by rewrite decide_True by set_solver.
    + rewrite lookup_delete_ne by done. rewrite Hidx3.
      destruct (decide (a' ∈ init)).
      * by rewrite decide_True by set_solver.
      * by rewrite decide_False by set_solver.
  - by rewrite Hu4, Hu, Hsz.
Qed.

(** C1, as the code has it: a new entry with k code addresses attached,
    1 ≤ k ≤ 2^32, which are then detached one by one.  After j < k of them
    are detached the entry is still allocated and on the list and no
    notification was made; after all k are detached the entry is released,
    off the list, and one unregistering notification for it was made.  At
    each point the detached addresses are no longer found and the others
    are still found.  (The count is 32 bits wide: see
    [refcount_wraps_at_2_32] for k = 2^32 + 1.) *)
Theorem refcount_lifecycle d s symfile addrs :
  jit_inv (mem s) → symfile ≠ [] → NoDup addrs →
  (∀ a, a ∈ addrs → g_jit_code_entries (mem s) !! a = None) →
  (1 ≤ length addrs)%nat → Z.of_nat (length addrs) ≤ 2 ^ 32 →
  ∃ x s1 s2,
    CreateJITCodeEntry d symfile s = Done (Some x, s1) ∧
    calls d (OpIncrement (Some x) <$> addrs) s1 = Done (tt, s2) ∧
    ∀ j, (j ≤ length addrs)%nat →
      ∃ s3 l,
        calls d (OpDecrement (Some x) <$> take j addrs) s2 = Done (tt, s3) ∧
        jit_entries (mem s3) = Some l ∧
        ((j < length addrs)%nat →
           is_Some (jit_heap (mem s3) !! x) ∧ x ∈ l ∧ log s3 = log s2) ∧
        (j = length addrs →
           jit_heap (mem s3) !! x = None ∧ (x ∉ l) ∧
           ∃ m, log s3 = log s2 ++ [EvNotify m] ∧
                relevant_entry_ (__jit_debug_descriptor m) = Some x ∧
                action_flag_ (__jit_debug_descriptor m) =
                  JITAction_value JIT_UNREGISTER_FN) ∧
        (∀ a, a ∈ take j addrs → GetJITCodeEntry a s3 = Done (None, s3)) ∧
        (∀ a, a ∈ drop j addrs → GetJITCodeEntry a s3 = Done (Some x, s3)).
Proof.
  intros Hinv Hne Hnd Hfree Hpos Hlen.
  destruct (create_and_attach d s symfile addrs Hinv Hne Hnd Hfree)
    as (s1 & s2 & e2 & Hcreate & Hattach & Hfresh & Hinv1 & Hinv2 & Hx2 & Hrc2 & Hsz2
        & Hidx2 & _).
  set (x := next_entry (mem s)) in *.
  exists x, s1, s2. split; [done|]. split; [done|].
  intros j Hj.
  assert (∀ a, a ∈ addrs → g_jit_code_entries (mem s2) !! a = Some (Some x)) as Hall.
  { intros a Ha. rewrite Hidx2. by rewrite decide_True. }
  assert (∀ a, a ∈ drop j addrs → a ∉ take j addrs) as Hdisj.
  { intros a Hd Ht. rewrite <-(take_drop j addrs) in Hnd.
    apply NoDup_app in Hnd as (_ & Hnd & _). by apply (Hnd a). }
  assert (∀ a, a ∈ drop j addrs → a ∈ addrs) as Hsub.
  { intros a Ha. rewrite <-(take_drop j addrs). set_solver. }
  destruct (decide (j < length addrs)%nat) as [Hlt|Hge].
  - destruct (detach_prefix d x addrs s2 e2 j)
      as (s3 & e3 & Hcalls & Hlog & Hinv3 & Hx3 & _ & _ & Hidx3 & _); [done..|].
    destruct (jit_entries_live _ Hinv3) as (l & Hl & _ & Hlive).
    exists s3, l. split; [done|]. split; [done|]. split.
    { intros _. split; [by eexists|]. split; [|done]. apply Hlive. by eexists. }
    split; [lia|]. split.
    + intros a Ha. rewrite GetJITCodeEntry_run, Hidx3. by rewrite decide_True.
    + intros a Ha. rewrite GetJITCodeEntry_run, Hidx3.
      rewrite decide_False by (by apply Hdisj). rewrite Hall; [done|by apply Hsub].
  - assert (j = length addrs) as -> by lia.
    rewrite firstn_all, drop_all in *.
    destruct (detach_all d x addrs s2 e2)
      as (s3 & m & Hcalls & Hlog & Hrel & Hact & Hgone & Hinv3 & Hidx3 & _); [done..|].
    destruct (jit_entries_live _ Hinv3) as (l & Hl & _ & Hlive).
    exists s3, l. split; [done|]. split; [done|]. split; [lia|]. split.
    { intros _. split; [done|]. split.
      - intros Hin. apply Hlive in Hin. rewrite Hgone in Hin. by destruct Hin.
      - by exists m. }
    split.
    + intros a Ha. rewrite GetJITCodeEntry_run, Hidx3. by rewrite decide_True.
    + intros a Ha. by apply elem_of_nil in Ha.
Qed.

Lemma refcount_lifecycle_witness :
  ∃ x s1 s2,
    CreateJITCodeEntry true elf_magic busy_state = Done (Some x, s1) ∧
    calls true (OpIncrement (Some x) <$> [16384; 20480; 24576]) s1 = Done (tt, s2) ∧
    ∀ j, (j ≤ 3)%nat →
      ∃ s3 l,
        calls true (OpDecrement (Some x) <$> take j [16384; 20480; 24576]) s2
          = Done (tt, s3) ∧
        jit_entries (mem s3) = Some l ∧
        ((j < 3)%nat → is_Some (jit_heap (mem s3) !! x) ∧ x ∈ l ∧ log s3 = log s2) ∧
        (j = 3%nat →
           jit_heap (mem s3) !! x = None ∧ (x ∉ l) ∧
           ∃ m, log s3 = log s2 ++ [EvNotify m] ∧
                relevant_entry_ (__jit_debug_descriptor m) = Some x ∧
                action_flag_ (__jit_debug_descriptor m) =
                  JITAction_value JIT_UNREGISTER_FN) ∧
        (∀ a, a ∈ take j [16384; 20480; 24576] →
           GetJITCodeEntry a s3 = Done (None, s3)) ∧
        (∀ a, a ∈ drop j [16384; 20480; 24576] →
           GetJITCodeEntry a s3 = Done (Some x, s3)).
Proof.
  apply (refcount_lifecycle true busy_state elf_magic [16384; 20480; 24576]).
  - apply busy_state_Inv.
  - discriminate.
  - repeat (apply NoDup_cons; split; [set_solver|]). apply NoDup_nil. done.
  - intros a Ha. repeat (apply elem_of_cons in Ha as [->|Ha]; [vm_compute; reflexivity|]).
    exfalso. by apply elem_of_nil in Ha.
  - simpl. lia.
  - simpl. lia.
Defined.

(** *** More than 2^32 code addresses *)

Lemma two_to_32_Z : Z.of_nat two_to_32 = 2 ^ 32.
Proof. unfold two_to_32. apply Z2Nat.id. lia. Qed.

Opaque two_to_32.

Lemma many_addresses_length : Z.of_nat (length many_addresses) = 2 ^ 32 + 1.
Proof.
  unfold many_addresses. rewrite length_cons, length_fmap, length_seq.
  rewrite Nat2Z.inj_succ, two_to_32_Z. lia.
Qed.

Lemma many_addresses_NoDup : NoDup many_addresses.
Proof.
  unfold many_addresses. apply NoDup_cons. split.
  - intros Hin. apply list_elem_of_fmap in Hin as (n & Hn & Hin).
    apply elem_of_seq in Hin. lia.
  - apply NoDup_fmap_2; [apply _|]. apply NoDup_seq.
Qed.

(** More than 2^32 code addresses make the 32-bit count wrap.  A new entry
    is attached to the 2^32 + 1 code addresses 0, ..., 2^32; its count is then 1, and
    detaching the first address alone releases the entry while 2^32 addresses
    are still attached to it. *)
Lemma refcount_wraps_at_2_32 :
  NoDup many_addresses ∧
  Z.of_nat (length many_addresses) = 2 ^ 32 + 1 ∧
  ∃ x s1 s2 s3,
    CreateJITCodeEntry true elf_magic initial_state = Done (Some x, s1) ∧
    calls true (OpIncrement (Some x) <$> many_addresses) s1 = Done (tt, s2) ∧
    calls true (OpDecrement (Some x) <$> take 1 many_addresses) s2 = Done (tt, s3) ∧
    jit_heap (mem s3) !! x = None ∧
    GetJITCodeEntry (2 ^ 32) s3 = Done (Some x, s3).
Proof.
  split; [apply many_addresses_NoDup|]. split; [apply many_addresses_length|].
  destruct (create_and_attach true initial_state elf_magic many_addresses)
    as (s1 & s2 & e2 & Hcreate & Hattach & _ & _ & Hinv2 & Hx2 & Hrc2 & _ & Hidx2 & _).
  { apply Inv_initial. }
  { discriminate. }
  { apply many_addresses_NoDup. }
  { intros a _. apply lookup_empty. }
  rewrite many_addresses_length in Hrc2.
  assert (wrap32 (ref_count e2 - 1) = 0) as Hzero.
  { rewrite <-wrap32_sub_l, Hrc2. reflexivity. }
  destruct (detach_last true _ 0 s2 e2 Hinv2 Hx2 Hzero)
    as (s3 & m & Hrun & _ & _ & _ & Hgone & _ & Hidx3 & _).
  { rewrite Hidx2. rewrite decide_True; [done|]. unfold many_addresses. apply list_elem_of_here. }
  eexists _, s1, s2, s3. split; [exact Hcreate|]. split; [exact Hattach|].
  split.
  { unfold many_addresses. cbn [take fmap list_fmap calls call].
    rewrite (bind_run _ _ _ _ _ Hrun). reflexivity. }
  split; [exact Hgone|].
  rewrite GetJITCodeEntry_run, Hidx3, lookup_delete_ne by done. rewrite Hidx2.
  rewrite decide_True; [done|]. unfold many_addresses.
  apply list_elem_of_further, list_elem_of_fmap. exists two_to_32.
  split; [by rewrite two_to_32_Z|]. apply elem_of_seq.
  pose proof two_to_32_Z. lia.
Qed.

(** ** Memory accounting *)

Lemma wrap64_query u n k :
  wrap64 (u + wrap64 (wrap64 (n * 2) * k)) = wrap64 (u + 2 * k * n).
Proof.
  unfold wrap64. rewrite Zplus_mod_idemp_r.
  rewrite <-(Zplus_mod_idemp_r ((n * 2) mod 2 ^ 64 * k)), Zmult_mod_idemp_l.
  rewrite Zplus_mod_idemp_r. f_equal. lia.
Qed.

Lemma mem_usage_run s :
  mem_usage s =
    Some (wrap64 (g_jit_debug_mem_usage (mem s)
                  + 2 * sizeof_voidp * Z.of_nat (size (g_jit_code_entries (mem s))))).
Proof.
  unfold mem_usage, GetJITCodeEntryMemUsage. run_unfold. simpl.
  by rewrite wrap64_query.
Qed.

Lemma mem_usage_accounted s :
  jit_inv (mem s) → mem_usage s = Some (wrap64 (accounted_bytes (mem s))).
Proof.
  intros Hinv. rewrite mem_usage_run, (jit_usage _ Hinv).
  by rewrite wrap64_add_l.
Qed.

Lemma total_bytes_nonneg (h : gmap ptr JITCodeEntry) :
  (∀ x e, h !! x = Some e → 0 ≤ symfile_size_ e) → 0 ≤ total_bytes h.
Proof.
  induction h as [|x e h Hx Hfold IH] using map_first_key_ind.
  - intros _. by rewrite total_bytes_empty.
  - intros Hall. rewrite total_bytes_insert by done.
    assert (0 ≤ symfile_size_ e) by (apply (Hall x); by rewrite lookup_insert_eq).
    assert (0 ≤ total_bytes h).
    { apply IH. intros y ey Hy. apply (Hall y). rewrite lookup_insert_ne; [done|].
      intros ->. congruence. }
    unfold entry_bytes, sizeof_JITCodeEntry. lia.
Qed.

Lemma accounted_bytes_nonneg m : jit_inv m → 0 ≤ accounted_bytes m.
Proof.
  intros Hinv. unfold accounted_bytes.
  assert (0 ≤ total_bytes (jit_heap m)).
  { apply total_bytes_nonneg. intros x e Hx.
    destruct (jit_blob_live _ Hinv x e Hx) as (b & Hb & [bs Hbs]).
    rewrite (jit_blob_size _ Hinv x e b bs Hx Hb Hbs). lia. }
  unfold sizeof_voidp. lia.
Qed.

(** Equations between wrapped sums. *)
Ltac wrap_lia :=
  unfold wrap64, sizeof_JITCodeEntry, sizeof_voidp;
  Z.to_euclidean_division_equations; lia.

(** C6: in a state the calls can reach, the query returns the accounted
    bytes, as a [size_t]: the records and symbol files of the live code
    entries plus two pointers for each code address in the table (the value
    itself whenever it fits 64 bits), where the recorded size of an entry is
    the length of its live symbol file.  Creating an entry from S bytes
    raises the query by S plus the size of the record, deleting an entry
    lowers it by the same amount, and creating an entry, attaching
    addresses and detaching them all (or deleting the entry directly)
    brings the query back to where it was. *)
Theorem memory_accounting d s :
  jit_inv (mem s) →
  (mem_usage s = Some (wrap64 (accounted_bytes (mem s))) ∧
   (accounted_bytes (mem s) < 2 ^ 64 → mem_usage s = Some (accounted_bytes (mem s))) ∧
   (∀ x e, jit_heap (mem s) !! x = Some e →
      ∃ b bs, symfile_addr_ e = Some b ∧ blob_heap (mem s) !! b = Some bs ∧
              symfile_size_ e = Z.of_nat (length bs))) ∧
  (∀ symfile r s' u,
     CreateJITCodeEntry d symfile s = Done (r, s') → mem_usage s = Some u →
     mem_usage s' =
       Some (wrap64 (u + (Z.of_nat (length symfile) + sizeof_JITCodeEntry)))) ∧
  (∀ x e r s' u,
     jit_heap (mem s) !! x = Some e →
     DeleteJITCodeEntry (Some x) s = Done (r, s') → mem_usage s = Some u →
     mem_usage s' = Some (wrap64 (u - (symfile_size_ e + sizeof_JITCodeEntry)))) ∧
  (∀ symfile addrs,
     symfile ≠ [] → NoDup addrs →
     (∀ a, a ∈ addrs → g_jit_code_entries (mem s) !! a = None) →
     (1 ≤ length addrs)%nat → Z.of_nat (length addrs) ≤ 2 ^ 32 →
     ∃ x s1 s2 s3,
       CreateJITCodeEntry d symfile s = Done (Some x, s1) ∧
       calls d (OpIncrement (Some x) <$> addrs) s1 = Done (tt, s2) ∧
       calls d (OpDecrement (Some x) <$> addrs) s2 = Done (tt, s3) ∧
       jit_heap (mem s3) !! x = None ∧
       mem_usage s3 = mem_usage s) ∧
  (∀ symfile,
     symfile ≠ [] →
     ∃ x s1 s2,
       CreateJITCodeEntry d symfile s = Done (Some x, s1) ∧
       DeleteJITCodeEntry (Some x) s1 = Done (tt, s2) ∧
       mem_usage s2 = mem_usage s).
Proof.
  intros Hinv. split; [|split; [|split; [|split]]].
  - split; [by apply mem_usage_accounted|]. split.
    + intros Hfit. rewrite mem_usage_accounted by done. f_equal.
      apply Z.mod_small. split; [by apply accounted_bytes_nonneg|done].
    + intros x e Hx. destruct (jit_blob_live _ Hinv x e Hx) as (b & Hb & [bs Hbs]).
      exists b, bs. split; [done|]. split; [done|].
      by apply (jit_blob_size _ Hinv x e b bs).
  - intros symfile r s' u Hrun Hu.
    apply CreateJITCodeEntry_Done in Hrun as (_ & _ & ->); [|done].
    rewrite mem_usage_run in Hu |- *. injection Hu as <-. simpl. f_equal.
    clear. wrap_lia.
  - intros x e r s' u Hx Hrun Hu.
    rewrite (DeleteJITCodeEntry_live x e) in Hrun by done. simplify_eq.
    rewrite mem_usage_run in Hu |- *. injection Hu as <-. simpl. f_equal.
    clear. wrap_lia.
  - intros symfile addrs Hne Hnd Hfree Hpos Hlen.
    destruct (create_and_attach d s symfile addrs Hinv Hne Hnd Hfree)
      as (s1 & s2 & e2 & Hcreate & Hattach & Hfresh & Hinv1 & Hinv2 & Hx2 & Hrc2 & Hsz2
          & Hidx2 & Hu1 & Hu2 & _).
    set (x := next_entry (mem s)) in *.
    destruct (detach_all d x addrs s2 e2)
      as (s3 & m & Hdetach & _ & _ & _ & Hgone & _ & Hidx3 & Hu3); [done..| |].
    { intros a Ha. rewrite Hidx2. by rewrite decide_True. }
    exists x, s1, s2, s3. split; [done|]. split; [done|]. split; [done|].
    split; [done|].
    rewrite !mem_usage_run. f_equal.
    assert (g_jit_code_entries (mem s3) = g_jit_code_entries (mem s)) as ->.
    { apply map_eq. intros a. rewrite Hidx3, Hidx2.
      destruct (decide (a ∈ addrs)); [|done]. symmetry. by apply Hfree. }
    rewrite Hu3, Hu2, Hu1, Hsz2, (jit_usage _ Hinv). clear. wrap_lia.
  - intros symfile Hne.
    destruct (create_and_attach d s symfile [] Hinv Hne)
      as (s1 & s2 & e2 & Hcreate & Hattach & Hfresh & Hinv1 & _ & Hx2 & _ & Hsz2
          & _ & Hu1 & _ & Hidx1 & _).
    { constructor. }
    { intros a Ha. by apply elem_of_nil in Ha. }
    simpl in Hattach. unfold mret, M_ret in Hattach. injection Hattach as <-.
    set (x := next_entry (mem s)) in *.
    pose proof (DeleteJITCodeEntry_live x e2 s1 Hinv1 Hx2) as Hdel.
    eexists x, s1, _. split; [done|]. split; [exact Hdel|].
    rewrite !mem_usage_run. simpl. f_equal.
    rewrite Hidx1, Hu1, Hsz2, (jit_usage _ Hinv). clear. wrap_lia.
Qed.

Lemma memory_accounting_witness :
  mem_usage busy_state = Some (accounted_bytes (mem busy_state)) ∧
  accounted_bytes (mem busy_state) = (40 + 4) + (40 + 2) + 2 * 8 * 2 ∧
  (∃ r s', CreateJITCodeEntry true elf_magic busy_state = Done (r, s') ∧
           mem_usage s' = Some (wrap64 (118 + (4 + sizeof_JITCodeEntry)))) ∧
  (∃ x s1 s2 s3,
     CreateJITCodeEntry true elf_magic busy_state = Done (Some x, s1) ∧
     calls true (OpIncrement (Some x) <$> [16384; 20480]) s1 = Done (tt, s2) ∧
     calls true (OpDecrement (Some x) <$> [16384; 20480]) s2 = Done (tt, s3) ∧
     jit_heap (mem s3) !! x = None ∧
     mem_usage s3 = mem_usage busy_state).
Proof.
  destruct (memory_accounting true busy_state) as ((_ & Hexact & _) & Hc & _ & Hcycle & _).
  { apply busy_state_Inv. }
  split; [apply Hexact; vm_compute; reflexivity|].
  split; [vm_compute; reflexivity|]. split.
  - assert (∃ r s', CreateJITCodeEntry true elf_magic busy_state = Done (r, s'))
      as (r & s' & Hrun) by (vm_compute; eauto).
    exists r, s'. split; [exact Hrun|].
    apply (Hc elf_magic r s' 118 Hrun). vm_compute. reflexivity.
  - apply (Hcycle elf_magic [16384; 20480]).
    + discriminate.
    + repeat (apply NoDup_cons; split; [set_solver|]). apply NoDup_nil. done.
    + intros a Ha.
      repeat (apply elem_of_cons in Ha as [->|Ha]; [vm_compute; reflexivity|]).
      exfalso. by apply elem_of_nil in Ha.
    + simpl. lia.
    + simpl. lia.
Defined.

(** ** List integrity *)

Lemma dll_well_formed {N} (nxt prv : N → option ptr) h l p :
  dll nxt prv h l p → well_formed_list nxt prv h p.
Proof.
  intros Hd. exists l. destruct (dll_walk _ _ _ _ _ Hd) as [? ?].
  by destruct Hd as (_ & _ & ? & ?).
Qed.

Lemma well_formed_dll {N} (nxt prv : N → option ptr) (h : gmap ptr N) p :
  well_formed_list nxt prv h p → ∃ l, dll nxt prv h l p.
Proof.
  intros (l & Hn & Hp & Hnd & Hl). exists l.
  split; [by eapply walk_chain|]. split; [by eapply walk_chain|]. done.
Qed.

Lemma dll_length {N} (nxt prv : N → option ptr) (h : gmap ptr N) l p :
  dll nxt prv h l p → length l = size h.
Proof.
  intros (_ & _ & Hnd & Hl).
  rewrite <-size_dom, <-(size_list_to_set (C := gset ptr) l Hnd). f_equal.
  apply set_eq. intros x. rewrite elem_of_list_to_set, elem_of_dom. apply Hl.
Qed.

Lemma size_alter_at {N} (g : N → N) p (h : gmap ptr N) :
  size (alter_at g p h) = size h.
Proof.
  destruct p as [y|]; simpl; [|done].
  by rewrite <-!size_dom, dom_alter_L.
Qed.

Lemma size_linked {N} (set_prv : option ptr → N → N) x e0 p (h : gmap ptr N) :
  h !! x = None → size (linked set_prv x e0 p h) = S (size h).
Proof.
  intros Hx. unfold linked. rewrite size_alter_at. by apply map_size_insert_None.
Qed.

Lemma size_unlinked {N} (nxt prv : N → option ptr)
    (set_nxt set_prv : option ptr → N → N) x e (h : gmap ptr N) :
  is_Some (h !! x) → S (size (unlinked nxt prv set_nxt set_prv x e h)) = size h.
Proof.
  intros Hx. unfold unlinked. rewrite map_size_delete_Some.
  2:{ by rewrite !alter_at_is_Some. }
  rewrite !size_alter_at.
  destruct Hx as [ex Hx]. assert (size h ≠ 0%nat); [|lia].
  intros Hz. apply map_size_empty_inv in Hz. subst h. by rewrite lookup_empty in Hx.
Qed.

(** *** Counting on the DEX file list *)

(** The calls on code entries leave the DEX side alone. *)
Lemma call_jit_dex_frame d o s r s' :
  jit_inv (mem s) → call d o s = Done (r, s') →
  (∀ h, o ≠ OpRegisterDexFile h) → (∀ h, o ≠ OpDeregisterDexFile h) →
  dex_heap (mem s') = dex_heap (mem s) ∧
  __art_debug_dexfiles (mem s') = __art_debug_dexfiles (mem s) ∧
  g_dexfile_entries (mem s') = g_dexfile_entries (mem s).
Proof.
  intros Hj Hrun Hr Hd.
  destruct o as [h|h|symfile|entry|entry a|entry a]; simpl in Hrun.
  - by destruct (Hr h).
  - by destruct (Hd h).
  - apply bind_Done in Hrun as (x & s1 & Hrun & Hret).
    apply CreateJITCodeEntry_Done in Hrun as (_ & _ & ->); [|done].
    unfold mret, M_ret in Hret. by simplify_eq.
  - by apply DeleteJITCodeEntry_Done in Hrun as (x & e & -> & Hx & ->).
  - by apply IncrementJITCodeEntryRefcount_Done in Hrun as (x & e & -> & Hx & _ & ->).
  - apply DecrementJITCodeEntryRefcount_Done in Hrun as (x & e & -> & Hx & _ & ->);
      [|done].
    by case_bool_decide.
Qed.

Lemma dex_count d ops : ∀ s0 s live,
  Inv (mem s0) → dom (g_dexfile_entries (mem s0)) = live →
  calls d ops s0 = Done (tt, s) →
  distinct_addresses live ops = true →
  (size (dex_heap (mem s)) + deregistrations ops
   = size (dex_heap (mem s0)) + registrations ops)%nat.
Proof.
  induction ops as [|o ops IH]; intros s0 s live Hinv Hdom Hrun Hok.
  - simpl in Hrun. unfold mret, M_ret in Hrun. simplify_eq. simpl. lia.
  - simpl in Hrun. apply bind_Done in Hrun as (r & s1 & Hcall & Hrest).
    pose proof (Inv_call _ _ _ _ _ Hinv Hcall) as Hinv1.
    destruct Hinv as [Hj Hd].
    destruct o as [h|h|symfile|entry|entry a|entry a].
    + simpl in Hok. apply andb_true_iff in Hok as [Hfresh Hok].
      apply bool_decide_eq_true in Hfresh.
      assert (g_dexfile_entries (mem s0) !! h = None) as Hk.
      { apply not_elem_of_dom. by rewrite Hdom. }
      simpl in Hcall. apply RegisterDexFileForNative_Done in Hcall; [|done].
      rewrite Hk in Hcall. subst s1.
      specialize (IH _ s (live ∪ {[h]}) Hinv1).
      simpl in IH. unfold emplace in IH. rewrite Hk in IH.
      rewrite size_linked in IH by apply alloc_fresh.
      simpl. rewrite dom_insert_L, Hdom in IH.
      assert ({[h]} ∪ live = live ∪ {[h]}) as Heq by set_solver.
      specialize (IH Heq Hrest Hok). lia.
    + simpl in Hok. apply andb_true_iff in Hok as [Hreg Hok].
      apply bool_decide_eq_true in Hreg.
      rewrite <-Hdom in Hreg. apply elem_of_dom in Hreg as [x Hk].
      pose proof Hk as Hk'. apply (dex_index _ Hd) in Hk' as (e & Hx & _).
      simpl in Hcall. rewrite DeregisterDexFileForNative_Done in Hcall by done.
      rewrite Hk, Hx in Hcall. simplify_eq.
      specialize (IH _ s _ Hinv1 eq_refl Hrest). simpl in IH.
      pose proof (size_unlinked dex_next_ dex_prev_ set_dex_next_ set_dex_prev_
                    x e (dex_heap (mem s0))) as Hsz.
      unfold unlinked in Hsz. specialize (Hsz (ex_intro _ e Hx)).
      rewrite dom_delete_L in IH.
      specialize (IH Hok). simpl. lia.
    + destruct (call_jit_dex_frame _ _ _ _ _ Hj Hcall) as (Hh & _ & Hi); [done..|].
      simpl. rewrite <-Hh. apply (IH s1 s live); [done|by rewrite Hi|done..].
    + destruct (call_jit_dex_frame _ _ _ _ _ Hj Hcall) as (Hh & _ & Hi); [done..|].
      simpl. rewrite <-Hh. apply (IH s1 s live); [done|by rewrite Hi|done..].
    + destruct (call_jit_dex_frame _ _ _ _ _ Hj Hcall) as (Hh & _ & Hi); [done..|].
      simpl. rewrite <-Hh. apply (IH s1 s live); [done|by rewrite Hi|done..].
    + destruct (call_jit_dex_frame _ _ _ _ _ Hj Hcall) as (Hh & _ & Hi); [done..|].
      simpl. rewrite <-Hh. apply (IH s1 s live); [done|by rewrite Hi|done..].
Qed.

(** *** Counting on the code entry list *)

Lemma notified_app a lg1 lg2 :
  notified a (lg1 ++ lg2) = (notified a lg1 + notified a lg2)%nat.
Proof. induction lg1 as [|ev lg1 IH]; simpl; [done|]. rewrite IH. lia. Qed.

Lemma jit_counted_call d o s r s' :
  Inv (mem s) → call d o s = Done (r, s') → jit_counted s → jit_counted s'.
Proof.
  intros [Hj Hd] Hrun Hc. unfold jit_counted in *.
  destruct o as [h|h|symfile|entry|entry a|entry a]; simpl in Hrun.
  - apply RegisterDexFileForNative_Done in Hrun; [|done]. subst s'.
    destruct (g_dexfile_entries (mem s) !! h); simpl;
      rewrite !notified_app; simpl; lia.
  - rewrite DeregisterDexFileForNative_Done in Hrun by done. simplify_eq.
    destruct (g_dexfile_entries (mem s) !! h) as [x|]; simpl.
    + destruct (dex_heap (mem s) !! x); simpl; [|done].
      rewrite !notified_app; simpl; lia.
    + rewrite !notified_app; simpl; lia.
  - apply bind_Done in Hrun as (x & s1 & Hrun & Hret).
    apply CreateJITCodeEntry_Done in Hrun as (_ & _ & ->); [|done].
    unfold mret, M_ret in Hret. simplify_eq. simpl.
    rewrite !notified_app. simpl. rewrite size_linked by apply alloc_fresh. lia.
  - apply DeleteJITCodeEntry_Done in Hrun as (x & e & -> & Hx & ->); [|done]. simpl.
    rewrite !notified_app. simpl.
    pose proof (size_unlinked next_ prev_ set_next_ set_prev_ x e (jit_heap (mem s))
                  (ex_intro _ e Hx)) as Hsz.
    unfold unlinked in Hsz. lia.
  - apply IncrementJITCodeEntryRefcount_Done in Hrun as (x & e & -> & Hx & _ & ->).
    pose proof (size_alter_at (set_ref_count (wrap32 (ref_count e + 1))) (Some x)
                  (jit_heap (mem s))) as Hsa. simpl in Hsa.
    simpl. by rewrite Hsa.
  - apply DecrementJITCodeEntryRefcount_Done in Hrun as (x & e & -> & Hx & _ & ->);
      [|done].
    pose proof (size_alter_at (set_ref_count (wrap32 (ref_count e - 1))) (Some x)
                  (jit_heap (mem s))) as Hsa. simpl in Hsa.
    case_bool_decide; simpl.
    + rewrite !notified_app. simpl.
      pose proof (size_unlinked next_ prev_ set_next_ set_prev_ x
                    (set_ref_count (wrap32 (ref_count e - 1)) e)
                    (alter (set_ref_count (wrap32 (ref_count e - 1))) x
                       (jit_heap (mem s)))) as Hsz.
      unfold unlinked in Hsz. simpl in Hsz. rewrite <-Hsa, <-Hsz in Hc.
      * lia.
      * rewrite lookup_alter_eq, Hx. by eexists.
    + by rewrite Hsa.
Qed.

Lemma jit_counted_calls d ops : ∀ s s',
  Inv (mem s) → calls d ops s = Done (tt, s') → jit_counted s → jit_counted s'.
Proof.
  induction ops as [|o ops IH]; intros s s' Hinv Hrun Hc; simpl in Hrun.
  - unfold mret, M_ret in Hrun. by simplify_eq.
  - apply bind_Done in Hrun as (r & s1 & Hcall & Hrest).
    apply (IH s1 s'); [by eapply Inv_call|done|by eapply jit_counted_call].
Qed.

(** *** What each call does to its list *)

(** Registering a header that is not in the table puts one new entry in
    front of the list and leaves the rest of the list as it is. *)
Lemma RegisterDexFileForNative_prepends dexfile_header s :
  dex_inv (mem s) →
  g_dexfile_entries (mem s) !! dexfile_header = None →
  ∃ x l s',
    RegisterDexFileForNative dexfile_header s = Done (tt, s') ∧
    dex_entries (mem s) = Some l ∧
    dex_entries (mem s') = Some (x :: l) ∧
    (x ∉ l) ∧
    dexfile_ <$> dex_heap (mem s') !! x = Some dexfile_header ∧
    g_dexfile_entries (mem s') = <[dexfile_header := x]> (g_dexfile_entries (mem s)) ∧
    (∀ y, y ∈ l →
       dexfile_ <$> dex_heap (mem s') !! y = dexfile_ <$> dex_heap (mem s) !! y) ∧
    __art_debug_dexfiles_timestamp (mem s') =
      wrap32 (__art_debug_dexfiles_timestamp (mem s) + 1).
Proof.
  intros Hinv Hk. pose proof Hinv as [(l & Hd) Hidx].
  pose proof (alloc_fresh (dex_heap (mem s))) as Hfresh.
  set (x := alloc (dex_heap (mem s))) in *.
  set (e0 := mkDEXFileEntry (__art_debug_dexfiles (mem s)) None dexfile_header).
  exists x, l. eexists. split.
  { apply RegisterDexFileForNative_run_new; [done|].
    intros n. by apply dex_inv_first_live. }
  simpl. split; [by apply dex_entries_dll|].
  assert (dll dex_next_ dex_prev_ (dex_heap (registered_mem dexfile_header (mem s)))
            (x :: l) (Some x)) as Hd'.
  { simpl. by apply dex_dll_linked. }
  split; [by apply dex_entries_dll|].
  assert (∀ y, y ∈ l → y ≠ x) as Hnex.
  { intros y Hy ->. destruct Hd as (_ & _ & _ & Hl). apply Hl in Hy.
    rewrite Hfresh in Hy. by destruct Hy. }
  split. { intros Hx. by apply (Hnex x). }
  split.
  { fold x. fold e0.
    by rewrite (linked_lookup_new dex_next_ dex_prev_ set_dex_prev_ x e0 _ _ l Hd Hfresh). }
  split. { unfold emplace. by rewrite Hk. }
  split; [|done].
  intros y Hy. fold x. fold e0. pose proof (Hnex y Hy) as Hne.
  destruct Hd as (_ & _ & _ & Hl). apply Hl in Hy as [ey Hy].
  destruct (linked_lookup_field dexfile_ set_dex_prev_ x e0
              (__art_debug_dexfiles (mem s)) (dex_heap (mem s)) y ey)
    as (ey' & Hy' & Hf); [done..|].
  rewrite Hy', Hy. simpl. by rewrite Hf.
Qed.

(** Deregistering a registered header takes its entry out of the list,
    wherever it is, and leaves the others in their order. *)
Lemma DeregisterDexFileForNative_splices dexfile_header x s :
  dex_inv (mem s) →
  g_dexfile_entries (mem s) !! dexfile_header = Some x →
  ∃ l1 l2 s',
    DeregisterDexFileForNative dexfile_header s = Done (tt, s') ∧
    dex_entries (mem s) = Some (l1 ++ x :: l2) ∧
    dex_entries (mem s') = Some (l1 ++ l2) ∧
    (x ∉ l1 ++ l2) ∧
    dex_heap (mem s') !! x = None ∧
    g_dexfile_entries (mem s') = delete dexfile_header (g_dexfile_entries (mem s)) ∧
    (∀ y, y ≠ x →
       dexfile_ <$> dex_heap (mem s') !! y = dexfile_ <$> dex_heap (mem s) !! y) ∧
    __art_debug_dexfiles_timestamp (mem s') =
      wrap32 (__art_debug_dexfiles_timestamp (mem s) + 1).
Proof.
  intros Hinv Hk. pose proof Hinv as [(l & Hd) Hidx].
  pose proof Hk as Hk'. apply Hidx in Hk' as (e & Hx & _).
  pose proof (dll_elem _ _ _ _ _ _ _ Hd Hx) as Hin.
  apply list_elem_of_split in Hin as (l1 & l2 & ->).
  exists l1, l2. eexists. split.
  { rewrite DeregisterDexFileForNative_Done by done. by rewrite Hk, Hx. }
  simpl. split; [by apply dex_entries_dll|].
  split. { apply dex_entries_dll. simpl. by apply (dex_dll_unlinked _ l1 x l2). }
  split.
  { destruct Hd as (_ & _ & Hnd & _). apply NoDup_app in Hnd as (_ & H1 & H2).
    apply NoDup_cons in H2 as [H2 _]. intros [Hi|Hi]%elem_of_app; [|done].
    apply (H1 x Hi). set_solver. }
  split; [by rewrite lookup_delete_eq|]. split; [done|]. split; [|done].
  intros y Hne.
  by apply (unlinked_lookup_field dex_next_ dex_prev_ set_dex_next_ set_dex_prev_ dexfile_).
Qed.

(** [CreateJITCodeEntry] puts the new entry in front of the list. *)
Lemma CreateJITCodeEntry_prepends d symfile s :
  jit_inv (mem s) → (d = true → symfile ≠ []) →
  ∃ x l s',
    CreateJITCodeEntry d symfile s = Done (Some x, s') ∧
    jit_entries (mem s) = Some l ∧
    jit_entries (mem s') = Some (x :: l) ∧
    (x ∉ l) ∧
    (∀ y, y ∈ l →
       entry_data <$> jit_heap (mem s') !! y = entry_data <$> jit_heap (mem s) !! y) ∧
    (∀ b, is_Some (blob_heap (mem s) !! b) →
       blob_heap (mem s') !! b = blob_heap (mem s) !! b) ∧
    g_jit_code_entries (mem s') = g_jit_code_entries (mem s).
Proof.
  intros Hinv Hne. pose proof Hinv as [(l & Hd) _ _ _ _].
  pose proof (alloc_fresh (jit_heap (mem s))) as Hfresh.
  pose proof (alloc_fresh (blob_heap (mem s))) as Hbfresh.
  exists (next_entry (mem s)), l. eexists. split.
  { apply CreateJITCodeEntry_run; [done|]. intros n. by apply jit_inv_first_live. }
  simpl. split; [by apply jit_entries_dll|].
  split. { apply jit_entries_dll. simpl. by apply jit_dll_linked. }
  assert (∀ y, y ∈ l → y ≠ next_entry (mem s)) as Hnex.
  { intros y Hy ->. destruct Hd as (_ & _ & _ & Hl). apply Hl in Hy.
    unfold next_entry in Hy. rewrite Hfresh in Hy. by destruct Hy. }
  split. { intros Hx. by apply (Hnex (next_entry (mem s))). }
  split; [|split; [|done]].
  - intros y Hy. pose proof (Hnex y Hy) as Hney.
    destruct Hd as (_ & _ & _ & Hl). apply Hl in Hy as [ey Hy].
    match goal with |- context [jit_linked ?x ?e0 ?p ?h] =>
      destruct (linked_lookup_field entry_data set_prev_ x e0 p h y ey)
        as (ey' & Hy' & Hf); [done..|] end.
    rewrite Hy', Hy. simpl. by rewrite Hf.
  - intros b [bs Hb]. rewrite lookup_insert_ne; [done|]. congruence.
Qed.

(** [DeleteJITCodeEntry] takes the entry out of the list, wherever it is. *)
Lemma DeleteJITCodeEntry_splices x s :
  jit_inv (mem s) → is_Some (jit_heap (mem s) !! x) →
  ∃ l1 l2 s',
    DeleteJITCodeEntry (Some x) s = Done (tt, s') ∧
    jit_entries (mem s) = Some (l1 ++ x :: l2) ∧
    jit_entries (mem s') = Some (l1 ++ l2) ∧
    (x ∉ l1 ++ l2) ∧
    (∀ y, y ≠ x →
       entry_data <$> jit_heap (mem s') !! y = entry_data <$> jit_heap (mem s) !! y) ∧
    (∀ y ey b, y ≠ x → jit_heap (mem s) !! y = Some ey → symfile_addr_ ey = Some b →
       blob_heap (mem s') !! b = blob_heap (mem s) !! b).
Proof.
  intros Hinv [e Hx]. pose proof Hinv as [(l & Hd) Hlive Hinj _ _].
  pose proof (dll_elem _ _ _ _ _ _ _ Hd Hx) as Hin.
  apply list_elem_of_split in Hin as (l1 & l2 & ->).
  exists l1, l2. eexists. split; [by apply DeleteJITCodeEntry_live|].
  simpl. split; [by apply jit_entries_dll|].
  split.
  { apply jit_entries_dll. simpl.
    pose proof (jit_dll_unlinked _ l1 x l2 _ e Hd Hx) as Hd'.
    revert Hd'. unfold unlinked. by destruct (prev_ e). }
  split.
  { destruct Hd as (_ & _ & Hnd & _). apply NoDup_app in Hnd as (_ & H1 & H2).
    apply NoDup_cons in H2 as [H2 _]. intros [Hi|Hi]%elem_of_app; [|done].
    apply (H1 x Hi). set_solver. }
  split.
  - intros y Hne.
    by apply (unlinked_lookup_field next_ prev_ set_next_ set_prev_ entry_data).
  - intros y ey b Hne Hy Hb.
    destruct (Hlive x e Hx) as (bx & Hbx & _). rewrite Hbx. simpl.
    rewrite lookup_delete_ne; [done|]. intros ->.
    apply Hne. apply (Hinj y x ey e); [done..|]. congruence.
Qed.

(** *** Counting against the calls made *)

(** A sequence of registrations and deregistrations returns, whatever the
    headers. *)
Lemma dex_calls_return d ops : ∀ s0,
  Inv (mem s0) → dex_only ops = true → ∃ s, calls d ops s0 = Done (tt, s).
Proof.
  induction ops as [|o ops IH]; intros s0 Hinv Hok; simpl.
  - by eexists.
  - destruct o as [h|h| | | |]; simpl in Hok; try done.
    + pose proof (RegisterDexFileForNative_total h s0 (proj2 Hinv)) as Hrun.
      destruct (IH _ (Inv_call d (OpRegisterDexFile h) _ _ _ Hinv Hrun) Hok) as [s Hs].
      exists s. by rewrite (bind_run _ _ _ _ _ Hrun).
    + pose proof (DeregisterDexFileForNative_Done h s0 (proj2 Hinv)) as Hrun.
      destruct (IH _ (Inv_call d (OpDeregisterDexFile h) _ _ _ Hinv Hrun) Hok) as [s Hs].
      exists s. by rewrite (bind_run _ _ _ _ _ Hrun).
Qed.

(** What a call does to the number of code entries. *)
Lemma jit_size_call d o s r s' :
  Inv (mem s) → call d o s = Done (r, s') →
  match o with
  | OpCreate _ => size (jit_heap (mem s')) = S (size (jit_heap (mem s)))
  | OpDelete _ => S (size (jit_heap (mem s'))) = size (jit_heap (mem s))
  | OpDecrement _ _ =>
      size (jit_heap (mem s')) = size (jit_heap (mem s)) ∨
      S (size (jit_heap (mem s'))) = size (jit_heap (mem s))
  | _ => size (jit_heap (mem s')) = size (jit_heap (mem s))
  end.
Proof.
  intros [Hj Hd] Hrun.
  destruct o as [h|h|symfile|entry|entry a|entry a]; simpl in Hrun.
  - apply RegisterDexFileForNative_Done in Hrun; [|done]. subst s'.
    by destruct (g_dexfile_entries (mem s) !! h).
  - rewrite DeregisterDexFileForNative_Done in Hrun by done. simplify_eq.
    destruct (g_dexfile_entries (mem s) !! h) as [x|]; simpl; [|done].
    by destruct (dex_heap (mem s) !! x).
  - apply bind_Done in Hrun as (x & s1 & Hrun & Hret).
    apply CreateJITCodeEntry_Done in Hrun as (_ & _ & ->); [|done].
    unfold mret, M_ret in Hret. simplify_eq. simpl.
    by rewrite size_linked by apply alloc_fresh.
  - apply DeleteJITCodeEntry_Done in Hrun as (x & e & -> & Hx & ->); [|done]. simpl.
    pose proof (size_unlinked next_ prev_ set_next_ set_prev_ x e (jit_heap (mem s))
                  (ex_intro _ e Hx)) as Hsz.
    by unfold unlinked in Hsz.
  - apply IncrementJITCodeEntryRefcount_Done in Hrun as (x & e & -> & Hx & _ & ->).
    pose proof (size_alter_at (set_ref_count (wrap32 (ref_count e + 1))) (Some x)
                  (jit_heap (mem s))) as Hsa. by simpl in *.
  - apply DecrementJITCodeEntryRefcount_Done in Hrun as (x & e & -> & Hx & _ & ->);
      [|done].
    pose proof (size_alter_at (set_ref_count (wrap32 (ref_count e - 1))) (Some x)
                  (jit_heap (mem s))) as Hsa. simpl in Hsa.
    case_bool_decide; simpl; [right|by left].
    pose proof (size_unlinked next_ prev_ set_next_ set_prev_ x
                  (set_ref_count (wrap32 (ref_count e - 1)) e)
                  (alter (set_ref_count (wrap32 (ref_count e - 1))) x
                     (jit_heap (mem s)))) as Hsz.
    unfold unlinked in Hsz. simpl in Hsz. rewrite Hsz, Hsa; [done|].
    rewrite lookup_alter_eq, Hx. by eexists.
Qed.

(** So the entries created are those still in the list, those deleted and
    at most one for every detach. *)
Lemma jit_size_calls d ops : ∀ s0 s,
  Inv (mem s0) → calls d ops s0 = Done (tt, s) →
  (size (jit_heap (mem s)) + deletions ops
     ≤ size (jit_heap (mem s0)) + creations ops)%nat ∧
  (size (jit_heap (mem s0)) + creations ops
     ≤ size (jit_heap (mem s)) + deletions ops + detaches ops)%nat.
Proof.
  induction ops as [|o ops IH]; intros s0 s Hinv Hrun; simpl in Hrun.
  - unfold mret, M_ret in Hrun. simplify_eq. simpl. lia.
  - apply bind_Done in Hrun as (r & s1 & Hcall & Hrest).
    pose proof (Inv_call _ _ _ _ _ Hinv Hcall) as Hinv1.
    pose proof (jit_size_call _ _ _ _ _ Hinv Hcall) as Hsz.
    specialize (IH s1 s Hinv1 Hrest).
    destruct o; simpl; lia.
Qed.

(** The one way to split a list of three around its middle entry. *)
Lemma splice_lists l1 l2 :
  l1 ++ 2%positive :: l2 = [3; 2; 1]%positive → l1 = [3%positive] ∧ l2 = [1%positive].
Proof.
  intros Heq. destruct l1 as [|a [|b [|c l1]]]; simplify_eq/=; try done.
  destruct l1; done.
Qed.

(** C5: every call keeps both lists well formed, from any memory that
    satisfies the invariant; so after any sequence of calls from the
    initial state the forward walk of each list visits exactly its live
    entries and the backward walk visits them in reverse.  After N
    registrations and M deregistrations of distinct headers the DEX file
    list holds N - M entries, and the code entry list holds as many entries
    as registering notifications were made minus unregistering ones.

    Counted against the calls made: after creations, deletions and detaches
    the code entry list holds the entries created minus those deleted, less
    at most one for every detach (exactly N - M when nothing was detached).
    Every sequence of registrations and deregistrations returns.  Call by
    call: a registration of a new header and a creation return and put the
    new entry in front of the list; a deregistration of a registered header
    and a deletion of a live entry return and take that entry out of the
    list, from whatever position, leaving the others in their order. *)
Theorem list_integrity d ops :
  (∀ s0 s, Inv (mem s0) → calls d ops s0 = Done (tt, s) →
     Inv (mem s) ∧
     well_formed_list dex_next_ dex_prev_ (dex_heap (mem s))
       (__art_debug_dexfiles (mem s)) ∧
     well_formed_list next_ prev_ (jit_heap (mem s))
       (first_entry_ (__jit_debug_descriptor (mem s)))) ∧
  (∀ s, calls d ops initial_state = Done (tt, s) →
     well_formed_list dex_next_ dex_prev_ (dex_heap (mem s))
       (__art_debug_dexfiles (mem s)) ∧
     well_formed_list next_ prev_ (jit_heap (mem s))
       (first_entry_ (__jit_debug_descriptor (mem s))) ∧
     (distinct_addresses ∅ ops = true →
        ∃ l, dex_entries (mem s) = Some l ∧
             (deregistrations ops ≤ registrations ops)%nat ∧
             length l = (registrations ops - deregistrations ops)%nat) ∧
     (∃ l, jit_entries (mem s) = Some l ∧
           (notified JIT_UNREGISTER_FN (log s) ≤ notified JIT_REGISTER_FN (log s))%nat ∧
           length l = (notified JIT_REGISTER_FN (log s)
                       - notified JIT_UNREGISTER_FN (log s))%nat)) ∧
  (∀ s, calls d ops initial_state = Done (tt, s) →
     ∃ l, jit_entries (mem s) = Some l ∧
          (length l + deletions ops ≤ creations ops)%nat ∧
          (creations ops ≤ length l + deletions ops + detaches ops)%nat) ∧
  (∀ s0, Inv (mem s0) → dex_only ops = true → ∃ s, calls d ops s0 = Done (tt, s)) ∧
  (∀ s, Inv (mem s) →
     (∀ h, g_dexfile_entries (mem s) !! h = None →
        ∃ x l s', RegisterDexFileForNative h s = Done (tt, s') ∧
                  dex_entries (mem s) = Some l ∧
                  dex_entries (mem s') = Some (x :: l) ∧ (x ∉ l)) ∧
     (∀ h x, g_dexfile_entries (mem s) !! h = Some x →
        ∃ l1 l2 s', DeregisterDexFileForNative h s = Done (tt, s') ∧
                    dex_entries (mem s) = Some (l1 ++ x :: l2) ∧
                    dex_entries (mem s') = Some (l1 ++ l2) ∧ (x ∉ l1 ++ l2)) ∧
     (∀ symfile, (d = true → symfile ≠ []) →
        ∃ x l s', CreateJITCodeEntry d symfile s = Done (Some x, s') ∧
                  jit_entries (mem s) = Some l ∧
                  jit_entries (mem s') = Some (x :: l) ∧ (x ∉ l)) ∧
     (∀ x, is_Some (jit_heap (mem s) !! x) →
        ∃ l1 l2 s', DeleteJITCodeEntry (Some x) s = Done (tt, s') ∧
                    jit_entries (mem s) = Some (l1 ++ x :: l2) ∧
                    jit_entries (mem s') = Some (l1 ++ l2) ∧ (x ∉ l1 ++ l2))).
Proof.
  assert (∀ s0 s, Inv (mem s0) → calls d ops s0 = Done (tt, s) →
     Inv (mem s) ∧
     well_formed_list dex_next_ dex_prev_ (dex_heap (mem s))
       (__art_debug_dexfiles (mem s)) ∧
     well_formed_list next_ prev_ (jit_heap (mem s))
       (first_entry_ (__jit_debug_descriptor (mem s)))) as Hpres.
  { intros s0 s Hinv Hrun.
    pose proof (Inv_calls _ _ _ _ _ Hinv Hrun) as Hinv'. split; [done|].
    destruct Hinv' as [[(lj & Hdj) _ _ _ _] [(ld & Hdd) _]].
    split; by eapply dll_well_formed. }
  split; [exact Hpres|]. split; [|split; [|split; [|]]].
  - intros s Hrun. destruct (Hpres initial_state s Inv_initial Hrun) as (Hinv & Hwd & Hwj).
    split; [done|]. split; [done|].
    destruct Hinv as [[(lj & Hdj) _ _ _ _] [(ld & Hdd) _]]. split.
    + intros Hok. exists ld. unfold dex_entries.
      destruct (dll_walk _ _ _ _ _ Hdd) as [-> _]. split; [done|].
      rewrite (dll_length _ _ _ _ _ Hdd).
      pose proof (dex_count d ops initial_state s ∅ Inv_initial) as Hcount.
      simpl in Hcount. rewrite dom_empty_L, map_size_empty in Hcount.
      specialize (Hcount eq_refl Hrun Hok). lia.
    + exists lj. unfold jit_entries.
      destruct (dll_walk _ _ _ _ _ Hdj) as [-> _]. split; [done|].
      rewrite (dll_length _ _ _ _ _ Hdj).
      pose proof (jit_counted_calls d ops initial_state s Inv_initial Hrun) as Hcount.
      unfold jit_counted in Hcount. simpl in Hcount.
      rewrite map_size_empty in Hcount. specialize (Hcount eq_refl). lia.
  - intros s Hrun. destruct (Hpres initial_state s Inv_initial Hrun) as (Hinv & _ & _).
    destruct Hinv as [[(lj & Hdj) _ _ _ _] _].
    exists lj. split; [by apply jit_entries_dll|].
    rewrite (dll_length _ _ _ _ _ Hdj).
    pose proof (jit_size_calls d ops initial_state s Inv_initial Hrun) as Hsz.
    simpl in Hsz. rewrite map_size_empty in Hsz. lia.
  - intros s0 Hinv Hok. by apply dex_calls_return.
  - intros s [Hj Hd]. split; [|split; [|split]].
    + intros h Hk.
      destruct (RegisterDexFileForNative_prepends h s Hd Hk) as (x & l & s' & ? & ? & ? & ? & _).
      by exists x, l, s'.
    + intros h x Hk.
      destruct (DeregisterDexFileForNative_splices h x s Hd Hk)
        as (l1 & l2 & s' & ? & ? & ? & ? & _).
      by exists l1, l2, s'.
    + intros symfile Hne.
      destruct (CreateJITCodeEntry_prepends d symfile s Hj Hne) as (x & l & s' & ? & ? & ? & ? & _).
      by exists x, l, s'.
    + intros x Hx.
      destruct (DeleteJITCodeEntry_splices x s Hj Hx) as (l1 & l2 & s' & ? & ? & ? & ? & _).
      by exists l1, l2, s'.
Qed.

Lemma list_integrity_witness :
  (∃ s ld lj,
     calls true splice_ops initial_state = Done (tt, s) ∧
     well_formed_list dex_next_ dex_prev_ (dex_heap (mem s))
       (__art_debug_dexfiles (mem s)) ∧
     well_formed_list next_ prev_ (jit_heap (mem s))
       (first_entry_ (__jit_debug_descriptor (mem s))) ∧
     dex_entries (mem s) = Some ld ∧ length ld = (3 - 1)%nat ∧
     jit_entries (mem s) = Some lj ∧ length lj = (3 - 1)%nat) ∧
  (∃ s', DeregisterDexFileForNative 8192 three_each = Done (tt, s') ∧
         dex_entries (mem three_each) = Some [3; 2; 1]%positive ∧
         dex_entries (mem s') = Some [3; 1]%positive) ∧
  (∃ s', DeleteJITCodeEntry (Some 2%positive) three_each = Done (tt, s') ∧
         jit_entries (mem three_each) = Some [3; 2; 1]%positive ∧
         jit_entries (mem s') = Some [3; 1]%positive).
Proof.
  assert (∃ s, calls true splice_ops initial_state = Done (tt, s)) as [s Hrun]
    by (vm_compute; eauto).
  destruct (list_integrity true splice_ops) as (_ & Hreach & Hcount & _ & Hcall).
  destruct (Hreach s Hrun) as (Hwd & Hwj & Hd & _).
  destruct Hd as (ld & Hld & _ & Hlen); [vm_compute; reflexivity|].
  destruct (Hcount s Hrun) as (lj & Hlj & Hle1 & Hle2).
  destruct (Hcall three_each three_each_Inv) as (_ & Hdereg & _ & Hdel).
  split; [|split].
  - exists s, ld, lj. split; [exact Hrun|]. split; [exact Hwd|]. split; [exact Hwj|].
    split; [exact Hld|]. split; [exact Hlen|]. split; [exact Hlj|].
    simpl in Hle1, Hle2. lia.
  - destruct (Hdereg 8192 2%positive) as (l1 & l2 & s' & Hr & Hb & Ha & _);
      [vm_compute; reflexivity|].
    assert (dex_entries (mem three_each) = Some [3; 2; 1]%positive) as Hc
      by (vm_compute; reflexivity).
    rewrite Hc in Hb. injection Hb as Hb. symmetry in Hb.
    apply splice_lists in Hb as [-> ->].
    exists s'. split; [exact Hr|]. split; [exact Hc|exact Ha].
  - destruct (Hdel 2%positive) as (l1 & l2 & s' & Hr & Hb & Ha & _);
      [vm_compute; eauto|].
    assert (jit_entries (mem three_each) = Some [3; 2; 1]%positive) as Hc
      by (vm_compute; reflexivity).
    rewrite Hc in Hb. injection Hb as Hb. symmetry in Hb.
    apply splice_lists in Hb as [-> ->].
    exists s'. split; [exact Hr|]. split; [exact Hc|exact Ha].
Defined.

(** ** The lock *)




(** * Further properties of the code *)

(** ** The DEX file list *)

Lemma wrap32_add_add t a b : wrap32 (wrap32 (t + a) + b) = wrap32 (t + (a + b)).
Proof. unfold wrap32. Z.to_euclidean_division_equations; lia. Qed.

(** The head of a well-formed list has no predecessor. *)
Lemma dll_head_prv {N} (nxt prv : N → option ptr) (h : gmap ptr N) l n e :
  dll nxt prv h l (Some n) → h !! n = Some e → prv e = None.
Proof.
  intros Hd Hn. pose proof (dll_head _ _ _ _ _ Hd) as Hh.
  destruct l as [|y l]; [done|]. injection Hh as ->.
  by destruct (dll_neighbours nxt prv h [] y l (Some y) e Hd Hn) as [_ ?].
Qed.

(** Two memories with the same globals and stores are the same. *)
Lemma Mem_ext (m m' : Mem) :
  jit_heap m = jit_heap m' → blob_heap m = blob_heap m' → dex_heap m = dex_heap m' →
  __jit_debug_descriptor m = __jit_debug_descriptor m' →
  __jit_debug_descriptor_timestamp m = __jit_debug_descriptor_timestamp m' →
  __art_debug_dexfiles m = __art_debug_dexfiles m' →
  __art_debug_dexfiles_timestamp m = __art_debug_dexfiles_timestamp m' →
  g_jit_debug_mem_usage m = g_jit_debug_mem_usage m' →
  g_dexfile_entries m = g_dexfile_entries m' →
  g_jit_code_entries m = g_jit_code_entries m' →
  m = m'.
Proof. destruct m, m'; simpl. by intros -> -> -> -> -> -> -> -> -> ->. Qed.

(** Unlinking the object that was linked last gives the store back. *)
Lemma delete_linked_head {N} (prv : N → option ptr) (set_prv : option ptr → N → N)
    (h : gmap ptr N) x e0 p :
  (∀ v e, prv e = v → set_prv v e = e) →
  (∀ v w e, set_prv v (set_prv w e) = set_prv v e) →
  h !! x = None →
  (∀ n, p = Some n → ∃ en, h !! n = Some en ∧ prv en = None) →
  delete x (alter_at (set_prv None) p (linked set_prv x e0 p h)) = h.
Proof.
  intros Hid Hset Hx Hp. unfold linked. apply map_eq. intros y.
  destruct (decide (y = x)) as [->|Hy]; [by rewrite lookup_delete_eq|].
  rewrite lookup_delete_ne by done. destruct p as [n|]; simpl.
  - destruct (Hp n eq_refl) as (en & Hn & Hpn).
    destruct (decide (y = n)) as [->|Hyn].
    + rewrite !lookup_alter_eq, lookup_insert_ne, Hn by done. simpl. f_equal.
      rewrite Hset. by apply Hid.
    + by rewrite !lookup_alter_ne, lookup_insert_ne.
  - by rewrite lookup_insert_ne.
Qed.

(** X1: registering a header that is not registered and deregistering it
    again gives back the memory as it was, entry for entry and link for
    link, except that the timestamp of the list has advanced by 2 (modulo
    2^32); both calls return. *)
Theorem register_deregister_round_trip dexfile_header s :
  dex_inv (mem s) →
  g_dexfile_entries (mem s) !! dexfile_header = None →
  ∃ s1 s2,
    RegisterDexFileForNative dexfile_header s = Done (tt, s1) ∧
    DeregisterDexFileForNative dexfile_header s1 = Done (tt, s2) ∧
    mem s2 = upd_dexfiles_timestamp (λ t, wrap32 (t + 2)) (mem s).
Proof.
  intros Hinv Hk. pose proof Hinv as [(l & Hd) Hidx].
  pose proof (alloc_fresh (dex_heap (mem s))) as Hfresh.
  pose proof (dex_inv_registered _ _ Hinv Hk) as Hinv1.
  set (e0 := mkDEXFileEntry (__art_debug_dexfiles (mem s)) None dexfile_header).
  assert (dex_heap (registered_mem dexfile_header (mem s)) !! alloc (dex_heap (mem s))
          = Some e0) as Hnew.
  { simpl. by apply (linked_lookup_new dex_next_ dex_prev_ set_dex_prev_ _ e0 _ _ l). }
  eexists _, _. split.
  { apply RegisterDexFileForNative_run_new; [done|].
    intros n. by apply dex_inv_first_live. }
  split.
  { rewrite DeregisterDexFileForNative_Done by done. simpl.
    unfold emplace. rewrite Hk, lookup_insert_eq. simpl in Hnew. by rewrite Hnew. }
  clear Hinv1 Hnew Hinv Hidx.
  apply Mem_ext; simpl; try reflexivity.
  - apply (delete_linked_head dex_prev_ set_dex_prev_); [| |done|].
    + intros v [] <-. reflexivity.
    + reflexivity.
    + intros n Hn. destruct (dll_head_live _ _ _ _ _ n Hd Hn) as [en Hen].
      exists en. split; [done|]. rewrite Hn in Hd. by eapply dll_head_prv.
  - apply wrap32_add_add.
  - unfold emplace. rewrite Hk. by apply delete_insert_id.
Qed.

Lemma register_deregister_round_trip_witness :
  ∃ s1 s2,
    RegisterDexFileForNative 8192 busy_state = Done (tt, s1) ∧
    DeregisterDexFileForNative 8192 s1 = Done (tt, s2) ∧
    mem s2 = upd_dexfiles_timestamp (λ t, wrap32 (t + 2)) (mem busy_state).
Proof.
  apply (register_deregister_round_trip 8192 busy_state).
  - exact (proj2 busy_state_Inv).
  - vm_compute. reflexivity.
Defined.

Lemma notifications_app lg1 lg2 :
  notifications (lg1 ++ lg2) = (notifications lg1 + notifications lg2)%nat.
Proof. induction lg1 as [|[] lg1 IH]; simpl; rewrite ?IH; done. Qed.

(** X2: from a memory that satisfies the invariant of the DEX files,
    [RegisterDexFileForNative] and [DeregisterDexFileForNative] return for
    every header, registered or not.  After the first the table holds the
    header, after the second it does not; both keep the invariant, leave
    everything that belongs to the code entries as it is and make no
    notification. *)
Theorem dex_calls_always_return dexfile_header s :
  dex_inv (mem s) →
  ∃ s1 s2,
    RegisterDexFileForNative dexfile_header s = Done (tt, s1) ∧
    DeregisterDexFileForNative dexfile_header s = Done (tt, s2) ∧
    is_Some (g_dexfile_entries (mem s1) !! dexfile_header) ∧
    g_dexfile_entries (mem s2) !! dexfile_header = None ∧
    dex_inv (mem s1) ∧ dex_inv (mem s2) ∧
    jit_state (mem s1) = jit_state (mem s) ∧
    jit_state (mem s2) = jit_state (mem s) ∧
    notifications (log s1) = notifications (log s) ∧
    notifications (log s2) = notifications (log s).
Proof.
  intros Hinv.
  eexists _, _. split; [by apply RegisterDexFileForNative_total|].
  split; [by apply DeregisterDexFileForNative_Done|].
  destruct (g_dexfile_entries (mem s) !! dexfile_header) as [x|] eqn:Hk.
  - pose proof Hk as Hk'. apply (dex_index _ Hinv) in Hk' as (e & Hx & _).
    rewrite Hx. simpl. rewrite Hk, lookup_delete_eq, !notifications_app. simpl.
    split; [by eauto|]. split; [done|]. split; [done|].
    split; [by apply dex_inv_deregistered|]. split; [done|]. split; [done|]. lia.
  - simpl. unfold emplace. rewrite Hk, lookup_insert_eq, !notifications_app. simpl.
    split; [by eauto|]. split; [done|]. split; [by apply dex_inv_registered|].
    split; [done|]. split; [done|]. split; [done|]. lia.
Qed.

Lemma dex_calls_always_return_witness :
  ∃ s1 s2,
    RegisterDexFileForNative 4096 busy_state = Done (tt, s1) ∧
    DeregisterDexFileForNative 4096 busy_state = Done (tt, s2) ∧
    is_Some (g_dexfile_entries (mem s1) !! 4096) ∧
    g_dexfile_entries (mem s2) !! 4096 = None ∧
    dex_inv (mem s1) ∧ dex_inv (mem s2) ∧
    jit_state (mem s1) = jit_state (mem busy_state) ∧
    jit_state (mem s2) = jit_state (mem busy_state) ∧
    notifications (log s1) = notifications (log busy_state) ∧
    notifications (log s2) = notifications (log busy_state).
Proof. exact (dex_calls_always_return 4096 busy_state (proj2 busy_state_Inv)). Defined.

(** X3: a call of [CreateJITCodeEntry], [DeleteJITCodeEntry],
    [IncrementJITCodeEntryRefcount] or [DecrementJITCodeEntryRefcount] that
    returns leaves the DEX files alone: their entries, the head of their
    list, its timestamp and the table are as before, and the call adds no
    lock operation to the log. *)
Theorem code_entry_calls_leave_dex_files d o s r s' :
  jit_inv (mem s) → call d o s = Done (r, s') →
  (∀ h, o ≠ OpRegisterDexFile h) → (∀ h, o ≠ OpDeregisterDexFile h) →
  dex_state (mem s') = dex_state (mem s) ∧
  filter (λ ev, is_lock_event ev = true) (log s') =
    filter (λ ev, is_lock_event ev = true) (log s).
Proof.
  intros Hj Hrun Hr Hd.
  destruct o as [h|h|symfile|entry|entry a|entry a]; simpl in Hrun.
  - by destruct (Hr h).
  - by destruct (Hd h).
  - apply bind_Done in Hrun as (x & s1 & Hrun & Hret).
    apply CreateJITCodeEntry_Done in Hrun as (_ & _ & ->); [|done].
    unfold mret, M_ret in Hret. simplify_eq. simpl.
    split; [done|]. rewrite filter_app. simpl. by rewrite app_nil_r.
  - apply DeleteJITCodeEntry_Done in Hrun as (x & e & -> & Hx & ->); [|done].
    split; [done|]. simpl. rewrite filter_app. simpl. by rewrite app_nil_r.
  - by apply IncrementJITCodeEntryRefcount_Done in Hrun as (x & e & -> & Hx & _ & ->).
  - apply DecrementJITCodeEntryRefcount_Done in Hrun as (x & e & -> & Hx & _ & ->);
      [|done].
    case_bool_decide; [|done].
    split; [done|]. simpl. rewrite filter_app. simpl. by rewrite app_nil_r.
Qed.

Lemma code_entry_calls_leave_dex_files_witness :
  ∃ s', call true (OpDelete (Some 2%positive)) busy_state = Done (tt, s') ∧
        dex_state (mem s') = dex_state (mem busy_state) ∧
        filter (λ ev, is_lock_event ev = true) (log s') =
          filter (λ ev, is_lock_event ev = true) (log busy_state).
Proof.
  assert (∃ s', call true (OpDelete (Some 2%positive)) busy_state = Done (tt, s'))
    as (s' & Hrun) by (vm_compute; eauto).
  exists s'. split; [exact Hrun|].
  apply (code_entry_calls_leave_dex_files true (OpDelete (Some 2%positive))
           busy_state tt s' (proj1 busy_state_Inv) Hrun); discriminate.
Defined.

Lemma wrap32_succ t n :
  wrap32 (wrap32 (t + 1) + Z.of_nat n) = wrap32 (t + Z.of_nat (S n)).
Proof. rewrite wrap32_add_add. f_equal. lia. Qed.

Lemma dex_timestamp_calls d ops : ∀ s0 s,
  Inv (mem s0) → calls d ops s0 = Done (tt, s) →
  wrap32 (__art_debug_dexfiles_timestamp (mem s0)) = __art_debug_dexfiles_timestamp (mem s0) →
  __art_debug_dexfiles_timestamp (mem s) =
    wrap32 (__art_debug_dexfiles_timestamp (mem s0)
            + Z.of_nat (dex_changes (dom (g_dexfile_entries (mem s0))) ops)).
Proof.
  induction ops as [|o ops IH]; intros s0 s Hinv Hrun Hts.
  - simpl in Hrun. unfold mret, M_ret in Hrun. simplify_eq. simpl.
    by rewrite Z.add_0_r.
  - simpl in Hrun. apply bind_Done in Hrun as (r & s1 & Hcall & Hrest).
    pose proof (Inv_call _ _ _ _ _ Hinv Hcall) as Hinv1.
    specialize (IH s1 s Hinv1 Hrest).
    destruct Hinv as [Hj Hd].
    assert (∀ t, wrap32 (wrap32 t) = wrap32 t) as Hidem.
    { intros t. unfold wrap32. Z.to_euclidean_division_equations; lia. }
    destruct o as [h|h|symfile|entry|entry a|entry a]; simpl in Hcall.
    + rewrite RegisterDexFileForNative_total in Hcall by done. simplify_eq.
      simpl. destruct (g_dexfile_entries (mem s0) !! h) as [x|] eqn:Hk; simpl in *.
      * rewrite bool_decide_eq_true_2 by (apply elem_of_dom; eauto). by apply IH.
      * rewrite bool_decide_eq_false_2 by (by apply not_elem_of_dom).
        unfold emplace in IH. rewrite Hk, dom_insert_L in IH.
        rewrite (comm_L (∪)) in IH. rewrite IH by apply Hidem. apply wrap32_succ.
    + rewrite DeregisterDexFileForNative_Done in Hcall by done. simplify_eq.
      simpl. destruct (g_dexfile_entries (mem s0) !! h) as [x|] eqn:Hk; simpl in *.
      * pose proof Hk as Hk'. apply (dex_index _ Hd) in Hk' as (e & Hx & _).
        rewrite Hx in *. simpl in *.
        rewrite bool_decide_eq_true_2 by (apply elem_of_dom; eauto).
        rewrite dom_delete_L in IH. rewrite IH by apply Hidem. apply wrap32_succ.
      * rewrite bool_decide_eq_false_2 by (by apply not_elem_of_dom). by apply IH.
    + apply bind_Done in Hcall as (x & s2 & Hrun & Hret).
      apply CreateJITCodeEntry_Done in Hrun as (_ & _ & ->); [|done].
      unfold mret, M_ret in Hret. simplify_eq. by apply IH.
    + apply DeleteJITCodeEntry_Done in Hcall as (x & e & -> & Hx & ->); [|done].
      by apply IH.
    + apply IncrementJITCodeEntryRefcount_Done in Hcall as (x & e & -> & Hx & _ & ->).
      by apply IH.
    + apply DecrementJITCodeEntryRefcount_Done in Hcall as (x & e & -> & Hx & _ & ->);
        [|done].
      revert IH. case_bool_decide; intros IH; by apply IH.
Qed.

(** X4: [__art_debug_dexfiles_timestamp] counts the changes of the list,
    modulo 2^32: after any sequence of calls from the initial state it is
    the number of registrations of a header that was not registered plus
    the number of deregistrations of one that was.  Registering a
    registered header, deregistering an unregistered one and the calls on
    code entries do not move it. *)
Theorem dex_timestamp_counts_changes d ops s :
  calls d ops initial_state = Done (tt, s) →
  __art_debug_dexfiles_timestamp (mem s) = wrap32 (Z.of_nat (dex_changes ∅ ops)).
Proof.
  intros Hrun.
  rewrite (dex_timestamp_calls d ops initial_state s Inv_initial Hrun); [|done].
  simpl. by rewrite dom_empty_L.
Qed.

Lemma dex_timestamp_counts_changes_witness :
  __art_debug_dexfiles_timestamp (mem busy_state) = wrap32 4.
Proof. exact (dex_timestamp_counts_changes true busy_ops busy_state busy_state_run). Defined.

(** ** The code entry list *)

Lemma wrap64_add_sub u k : wrap64 u = u → wrap64 (wrap64 (u + wrap64 k) - wrap64 k) = u.
Proof. unfold wrap64. intros Hu. Z.to_euclidean_division_equations; lia. Qed.

(** X5: creating a code entry and deleting it gives back the memory as it
    was (the list, the other entries and their links, the symbol files, the
    byte count, the table), except for what the two notifications leave
    behind: the timestamp has advanced by 2 (modulo 2^32), the action is
    [JIT_UNREGISTER_FN] and [relevant_entry_] still holds the address of
    the entry that was deleted.  Both calls return. *)
Theorem create_delete_round_trip d symfile s :
  jit_inv (mem s) → (d = true → symfile ≠ []) →
  ∃ x s1 s2,
    CreateJITCodeEntry d symfile s = Done (Some x, s1) ∧
    DeleteJITCodeEntry (Some x) s1 = Done (tt, s2) ∧
    mem s2 =
      upd_descriptor_timestamp (λ t, wrap32 (t + 2))
        (upd_descriptor
           (λ dsc, set_action_flag_ (JITAction_value JIT_UNREGISTER_FN)
                     (set_relevant_entry_ (Some x) dsc)) (mem s)).
Proof.
  intros Hinv Hne. pose proof Hinv as [(l & Hd) _ _ Hus _].
  pose proof (alloc_fresh (jit_heap (mem s))) as Hfresh.
  pose proof (alloc_fresh (blob_heap (mem s))) as Hbfresh.
  pose proof (jit_inv_created symfile _ Hinv) as Hinv1.
  set (e0 := mkJITCodeEntry (first_entry_ (__jit_debug_descriptor (mem s))) None
               (Some (alloc (blob_heap (mem s)))) (Z.of_nat (length symfile)) 0).
  assert (jit_heap (created_mem symfile (mem s)) !! next_entry (mem s) = Some e0) as Hnew.
  { simpl. by apply (linked_lookup_new next_ prev_ set_prev_ _ e0 _ _ l). }
  exists (next_entry (mem s)). eexists _, _. split.
  { apply CreateJITCodeEntry_run; [done|]. intros n. by apply jit_inv_first_live. }
  split; [by apply (DeleteJITCodeEntry_live _ e0)|].
  clear Hinv1 Hnew Hinv.
  apply Mem_ext; simpl; try reflexivity.
  - apply (delete_linked_head prev_ set_prev_); [| |done|].
    + intros v [] <-. reflexivity.
    + reflexivity.
    + intros n Hn. destruct (dll_head_live _ _ _ _ _ n Hd Hn) as [en Hen].
      exists en. split; [done|]. rewrite Hn in Hd. by eapply dll_head_prv.
  - by apply delete_insert_id.
  - apply wrap32_add_add.
  - apply wrap64_add_sub. rewrite Hus. unfold wrap64.
    Z.to_euclidean_division_equations; lia.
Qed.

Lemma create_delete_round_trip_witness :
  ∃ x s1 s2,
    CreateJITCodeEntry true elf_magic busy_state = Done (Some x, s1) ∧
    DeleteJITCodeEntry (Some x) s1 = Done (tt, s2) ∧
    mem s2 =
      upd_descriptor_timestamp (λ t, wrap32 (t + 2))
        (upd_descriptor
           (λ dsc, set_action_flag_ (JITAction_value JIT_UNREGISTER_FN)
                     (set_relevant_entry_ (Some x) dsc)) (mem busy_state)).
Proof.
  apply (create_delete_round_trip true elf_magic busy_state (proj1 busy_state_Inv)).
  discriminate.
Defined.



(** ** Arguments the calls accept *)

(** X7: when the calls on code entries return, from a memory that
    satisfies the invariant.  [CreateJITCodeEntry] returns unless the
    symbol file is empty in a debug build; [DeleteJITCodeEntry] returns
    exactly for a live entry; [IncrementJITCodeEntryRefcount] exactly for a
    live entry and, in a debug build, a code address that is not in the
    table; [DecrementJITCodeEntryRefcount] exactly for a live entry and, in
    a debug build, a code address that the table maps to that entry. *)
Theorem calls_return_exactly_when d s :
  jit_inv (mem s) →
  (∀ symfile,
     (∃ r s', CreateJITCodeEntry d symfile s = Done (r, s')) ↔
     (d = true → symfile ≠ [])) ∧
  (∀ entry,
     (∃ r s', DeleteJITCodeEntry entry s = Done (r, s')) ↔
     (∃ x, entry = Some x ∧ is_Some (jit_heap (mem s) !! x))) ∧
  (∀ entry a,
     (∃ r s', IncrementJITCodeEntryRefcount d entry a s = Done (r, s')) ↔
     (∃ x, entry = Some x ∧ is_Some (jit_heap (mem s) !! x)) ∧
     (d = true → g_jit_code_entries (mem s) !! a = None)) ∧
  (∀ entry a,
     (∃ r s', DecrementJITCodeEntryRefcount d entry a s = Done (r, s')) ↔
     (∃ x, entry = Some x ∧ is_Some (jit_heap (mem s) !! x)) ∧
     (d = true → g_jit_code_entries (mem s) !! a = Some entry)).
Proof.
  intros Hinv. split; [|split; [|split]].
  - intros symfile. split.
    + intros (r & s' & Hrun). by apply CreateJITCodeEntry_Done in Hrun as (? & _).
    + intros Hne. eexists _, _. apply CreateJITCodeEntry_run; [done|].
      intros n. by apply jit_inv_first_live.
  - intros entry. split.
    + intros (r & s' & Hrun).
      apply DeleteJITCodeEntry_Done in Hrun as (x & e & -> & Hx & _); [|done].
      exists x. by eauto.
    + intros (x & -> & e & Hx). eexists _, _. by apply DeleteJITCodeEntry_live.
  - intros entry a. split.
    + intros (r & s' & Hrun).
      apply IncrementJITCodeEntryRefcount_Done in Hrun as (x & e & -> & Hx & Ha & _).
      split; [|done]. exists x. by eauto.
    + intros [(x & -> & e & Hx) Ha]. eexists _, _.
      by apply IncrementJITCodeEntryRefcount_run.
  - intros entry a. split.
    + intros (r & s' & Hrun).
      apply DecrementJITCodeEntryRefcount_Done_pre in Hrun as (x & e & -> & Hx & Ha).
      split; [|done]. exists x. by eauto.
    + intros [(x & -> & e & Hx) Ha].
      destruct (decide (wrap32 (ref_count e - 1) = 0)) as [Hz|Hz].
      * destruct (jit_inv_delete_pre _ _ _ Hinv Hx) as (? & ? & ?).
        eexists _, _. by apply (DecrementJITCodeEntryRefcount_run_delete d x e).
      * eexists _, _. by apply (DecrementJITCodeEntryRefcount_run_keep d x e).
Qed.

Lemma calls_return_exactly_when_witness :
  (∃ r s', DeleteJITCodeEntry (Some 2%positive) busy_state = Done (r, s')) ∧
  ¬ (∃ r s', DeleteJITCodeEntry (Some 7%positive) busy_state = Done (r, s')) ∧
  ¬ (∃ r s', IncrementJITCodeEntryRefcount true (Some 2%positive) 4096 busy_state
             = Done (r, s')) ∧
  (∃ r s', DecrementJITCodeEntryRefcount true (Some 1%positive) 4096 busy_state
           = Done (r, s')).
Proof.
  destruct (calls_return_exactly_when true busy_state (proj1 busy_state_Inv))
    as (_ & Hdel & Hinc & Hdec).
  split; [|split; [|split]].
  - apply Hdel. exists 2%positive. split; [reflexivity|]. vm_compute. eauto.
  - intros Hr. apply Hdel in Hr as (x & [= <-] & Hx).
    vm_compute in Hx. by destruct Hx.
  - intros Hr. apply Hinc in Hr as [_ Ha]. specialize (Ha eq_refl).
    vm_compute in Ha. discriminate.
  - apply Hdec. split.
    + exists 1%positive. split; [reflexivity|]. vm_compute. eauto.
    + intros _. vm_compute. reflexivity.
Defined.

(** The computations that never fail a check. *)
Lemma no_check_bind {A B} (c : M A) (k : A → M B) :
  no_check c → (∀ a, no_check (k a)) → no_check (c ≫= k).
Proof.
  intros Hc Hk s. unfold mbind, M_bind. specialize (Hc s).
  destruct (c s) as [[a s1]| |]; [apply Hk|done..].
Qed.

Lemma no_check_ret {A} (a : A) : no_check (mret a).
Proof. by intros s. Qed.

Lemma no_check_gets {A} (f : Mem → A) : no_check (gets f).
Proof. by intros s. Qed.

Lemma no_check_update f : no_check (update f).
Proof. by intros s. Qed.

Lemma no_check_emit ev : no_check (emit ev).
Proof. by intros s. Qed.

Lemma no_check_undefined {A} : no_check (@undefined A).
Proof. by intros s. Qed.

Ltac no_check :=
  repeat first
    [ apply no_check_ret | apply no_check_gets | apply no_check_update
    | apply no_check_emit | apply no_check_undefined
    | apply no_check_bind; [|intros ?]
    | match goal with
      | |- no_check (match ?x with _ => _ end) => destruct x
      | |- no_check (if ?b then _ else _) => destruct b
      end ].

Lemma no_check_rd_jit {A} p (f : JITCodeEntry → A) : no_check (rd_jit p f).
Proof. unfold rd_jit. no_check. Qed.

Lemma no_check_wr_jit p g : no_check (wr_jit p g).
Proof. unfold wr_jit. no_check. Qed.

Lemma no_check_rd_dex {A} p (f : DEXFileEntry → A) : no_check (rd_dex p f).
Proof. unfold rd_dex. no_check. Qed.

Lemma no_check_wr_dex p g : no_check (wr_dex p g).
Proof. unfold wr_dex. no_check. Qed.

Lemma no_check_delete_bytes p : no_check (delete_bytes p).
Proof. unfold delete_bytes. no_check. Qed.

Lemma no_check_delete_JITCodeEntry p : no_check (delete_JITCodeEntry p).
Proof. unfold delete_JITCodeEntry. no_check. Qed.

Lemma no_check_DeleteJITCodeEntry entry : no_check (DeleteJITCodeEntry entry).
Proof.
  unfold DeleteJITCodeEntry, delete_bytes, delete_JITCodeEntry,
    __jit_debug_register_code.
  repeat first [apply no_check_rd_jit | apply no_check_wr_jit | progress no_check].
Qed.

Lemma no_check_RegisterDexFileForNative h : no_check (RegisterDexFileForNative h).
Proof.
  unfold RegisterDexFileForNative, new_DEXFileEntry.
  repeat first [apply no_check_rd_dex | apply no_check_wr_dex | progress no_check].
Qed.

Lemma no_check_DeregisterDexFileForNative h : no_check (DeregisterDexFileForNative h).
Proof.
  unfold DeregisterDexFileForNative, delete_DEXFileEntry.
  repeat first [apply no_check_rd_dex | apply no_check_wr_dex | progress no_check].
Qed.

Lemma CreateJITCodeEntry_release symfile : no_check (CreateJITCodeEntry false symfile).
Proof.
  unfold CreateJITCodeEntry, DCHECK, new_bytes, new_JITCodeEntry,
    __jit_debug_register_code.
  repeat first [apply no_check_rd_jit | apply no_check_wr_jit | progress no_check].
Qed.

Lemma IncrementJITCodeEntryRefcount_release entry a :
  no_check (IncrementJITCodeEntryRefcount false entry a).
Proof.
  unfold IncrementJITCodeEntryRefcount, DCHECK.
  repeat first [apply no_check_rd_jit | apply no_check_wr_jit | progress no_check].
Qed.

Lemma DecrementJITCodeEntryRefcount_release entry a :
  no_check (DecrementJITCodeEntryRefcount false entry a).
Proof.
  unfold DecrementJITCodeEntryRefcount, DCHECK.
  repeat first [apply no_check_rd_jit | apply no_check_wr_jit
               | apply no_check_delete_bytes | apply no_check_delete_JITCodeEntry
               | progress no_check].
Qed.

(** A debug build runs its checks and then does what a release build does. *)
Lemma CreateJITCodeEntry_debug symfile s :
  CreateJITCodeEntry true symfile s =
    match symfile with
    | [] => CheckFailure
    | _ => CreateJITCodeEntry false symfile s
    end.
Proof. by destruct symfile. Qed.

Lemma IncrementJITCodeEntryRefcount_debug entry a s :
  IncrementJITCodeEntryRefcount true entry a s =
    if bool_decide (entry ≠ None ∧ g_jit_code_entries (mem s) !! a = None)
    then IncrementJITCodeEntryRefcount false entry a s
    else CheckFailure.
Proof.
  unfold IncrementJITCodeEntryRefcount, DCHECK. run_unfold. simpl.
  destruct entry as [x|]; simpl; [|done].
  destruct (g_jit_code_entries (mem s) !! a) eqn:Ha; simpl; [done|].
  reflexivity.
Qed.

Lemma DecrementJITCodeEntryRefcount_debug entry a s :
  DecrementJITCodeEntryRefcount true entry a s =
    if bool_decide (entry ≠ None ∧ g_jit_code_entries (mem s) !! a = Some entry)
    then DecrementJITCodeEntryRefcount false entry a s
    else CheckFailure.
Proof.
  unfold DecrementJITCodeEntryRefcount, DCHECK, g_jit_code_entries_subscript.
  run_unfold. simpl.
  destruct entry as [x|]; simpl; [|done].
  destruct (g_jit_code_entries (mem s) !! a) as [v|] eqn:Ha; simpl; [|done].
  destruct (decide (v = Some x)) as [->|Hv].
  - rewrite !bool_decide_eq_true_2; done.
  - rewrite !bool_decide_eq_false_2; [done| |done]. intros [_ ?]. congruence.
Qed.

(** X8: when a check fails, in any memory.  In a debug build
    [CreateJITCodeEntry] fails its check exactly for the empty symbol file,
    [IncrementJITCodeEntryRefcount] exactly for a null entry or a code
    address that is already in the table, and
    [DecrementJITCodeEntryRefcount] exactly for a null entry or a code
    address that the table does not map to the entry.  No other call fails
    a check, and in a release build no call does. *)
Theorem debug_checks_fire_exactly_when s :
  (∀ symfile, CreateJITCodeEntry true symfile s = CheckFailure ↔ symfile = []) ∧
  (∀ entry a,
     IncrementJITCodeEntryRefcount true entry a s = CheckFailure ↔
     entry = None ∨ is_Some (g_jit_code_entries (mem s) !! a)) ∧
  (∀ entry a,
     DecrementJITCodeEntryRefcount true entry a s = CheckFailure ↔
     entry = None ∨ g_jit_code_entries (mem s) !! a ≠ Some entry) ∧
  (∀ d o, (∀ symfile, o ≠ OpCreate symfile) →
          (∀ entry a, o ≠ OpIncrement entry a) →
          (∀ entry a, o ≠ OpDecrement entry a) → call d o s ≠ CheckFailure) ∧
  (∀ o, call false o s ≠ CheckFailure).
Proof.
  split; [|split; [|split; [|split]]].
  - intros symfile. rewrite CreateJITCodeEntry_debug.
    destruct symfile as [|b bs]; [done|]. split; [|done].
    intros Hf. by apply CreateJITCodeEntry_release in Hf.
  - intros entry a. rewrite IncrementJITCodeEntryRefcount_debug.
    case_bool_decide as Hc.
    + split.
      * intros Hf. by apply IncrementJITCodeEntryRefcount_release in Hf.
      * destruct Hc as [Hne Ha]. rewrite Ha. intros [?|[? ?]]; done.
    + split; [intros _|done].
      destruct entry as [x|]; [|by left]. right.
      destruct (g_jit_code_entries (mem s) !! a) eqn:Ha; [by eauto|].
      destruct Hc. by split.
  - intros entry a. rewrite DecrementJITCodeEntryRefcount_debug.
    case_bool_decide as Hc.
    + split.
      * intros Hf. by apply DecrementJITCodeEntryRefcount_release in Hf.
      * destruct Hc as [Hne Ha]. intros [?|?]; done.
    + split; [intros _|done].
      destruct entry as [x|]; [|by left]. right. intros Ha. destruct Hc. by split.
  - intros d o Hc Hi Hd.
    destruct o as [h|h|symfile|entry|entry a|entry a]; simpl.
    + apply no_check_RegisterDexFileForNative.
    + apply no_check_DeregisterDexFileForNative.
    + by destruct (Hc symfile).
    + apply no_check_DeleteJITCodeEntry.
    + by destruct (Hi entry a).
    + by destruct (Hd entry a).
  - intros o. destruct o as [h|h|symfile|entry|entry a|entry a]; simpl.
    + apply no_check_RegisterDexFileForNative.
    + apply no_check_DeregisterDexFileForNative.
    + apply no_check_bind; [apply CreateJITCodeEntry_release|intros; apply no_check_ret].
    + apply no_check_DeleteJITCodeEntry.
    + apply IncrementJITCodeEntryRefcount_release.
    + apply DecrementJITCodeEntryRefcount_release.
Qed.

(** X9: the checks of a debug build have no effect of their own: a call
    in a debug build either fails a check or does exactly what the same
    call does in a release build, although the check of
    [DecrementJITCodeEntryRefcount] looks the code address up with the
    subscript operator, which inserts a missing key. *)
Theorem debug_build_refines_release o s :
  call true o s = CheckFailure ∨ call true o s = call false o s.
Proof.
  destruct o as [h|h|symfile|entry|entry a|entry a]; simpl; try by right.
  - unfold mbind, M_bind. rewrite CreateJITCodeEntry_debug.
    destruct symfile; [by left|by right].
  - rewrite IncrementJITCodeEntryRefcount_debug. case_bool_decide; [by right|by left].
  - rewrite DecrementJITCodeEntryRefcount_debug. case_bool_decide; [by right|by left].
Qed.

(** X10: the empty symbol file.  A debug build fails the check; a release
    build returns an entry of size 0 with an empty copy, puts it at the
    head of the list, adds the size of the record alone to the byte count
    and makes the notification. *)
Theorem create_empty_symfile s :
  jit_inv (mem s) →
  CreateJITCodeEntry true [] s = CheckFailure ∧
  ∃ x b e s',
    CreateJITCodeEntry false [] s = Done (Some x, s') ∧
    jit_heap (mem s') !! x = Some e ∧
    symfile_size_ e = 0 ∧
    symfile_addr_ e = Some b ∧
    blob_heap (mem s') !! b = Some [] ∧
    first_entry_ (__jit_debug_descriptor (mem s')) = Some x ∧
    g_jit_debug_mem_usage (mem s') =
      wrap64 (g_jit_debug_mem_usage (mem s) + sizeof_JITCodeEntry) ∧
    log s' = log s ++ [EvNotify (mem s')].
Proof.
  intros Hinv. split; [done|]. pose proof Hinv as [(l & Hd) _ _ _ _].
  eexists _, _, _, _. split.
  { apply CreateJITCodeEntry_run; [done|]. intros n. by apply jit_inv_first_live. }
  simpl. split.
  { eapply (linked_lookup_new next_ prev_); [exact Hd|]. apply alloc_fresh. }
  split; [done|]. split; [done|]. split; [by rewrite lookup_insert_eq|].
  split; [done|]. split; [|done].
  unfold wrap64, sizeof_JITCodeEntry. Z.to_euclidean_division_equations; lia.
Qed.

Lemma create_empty_symfile_witness :
  CreateJITCodeEntry true [] busy_state = CheckFailure ∧
  ∃ x b e s',
    CreateJITCodeEntry false [] busy_state = Done (Some x, s') ∧
    jit_heap (mem s') !! x = Some e ∧
    symfile_size_ e = 0 ∧
    symfile_addr_ e = Some b ∧
    blob_heap (mem s') !! b = Some [] ∧
    first_entry_ (__jit_debug_descriptor (mem s')) = Some x ∧
    g_jit_debug_mem_usage (mem s') =
      wrap64 (g_jit_debug_mem_usage (mem busy_state) + sizeof_JITCodeEntry) ∧
    log s' = log busy_state ++ [EvNotify (mem s')].
Proof. exact (create_empty_symfile busy_state (proj1 busy_state_Inv)). Defined.

(** X11: attaching a live entry to a code address that is already in the
    table.  A debug build fails the check; a release build counts the
    reference but leaves the table as it is, since [emplace] does not
    replace: the address still looks up what it was mapped to. *)
Theorem release_attach_keeps_old_mapping x e a v s :
  jit_heap (mem s) !! x = Some e →
  g_jit_code_entries (mem s) !! a = Some v →
  IncrementJITCodeEntryRefcount true (Some x) a s = CheckFailure ∧
  ∃ s',
    IncrementJITCodeEntryRefcount false (Some x) a s = Done (tt, s') ∧
    ref_count <$> jit_heap (mem s') !! x = Some (wrap32 (ref_count e + 1)) ∧
    g_jit_code_entries (mem s') = g_jit_code_entries (mem s) ∧
    GetJITCodeEntry a s' = Done (v, s').
Proof.
  intros Hx Ha. split.
  { rewrite IncrementJITCodeEntryRefcount_debug. rewrite bool_decide_eq_false_2; [done|].
    rewrite Ha. by intros [_ ?]. }
  eexists. split; [by apply (IncrementJITCodeEntryRefcount_run false x e)|].
  simpl. rewrite lookup_alter_eq, Hx. split; [done|].
  unfold emplace. rewrite Ha. split; [done|].
  rewrite GetJITCodeEntry_run. simpl. unfold emplace. by rewrite !Ha.
Qed.

Lemma release_attach_keeps_old_mapping_witness :
  IncrementJITCodeEntryRefcount true (Some 2%positive) 4096 busy_state = CheckFailure ∧
  ∃ s',
    IncrementJITCodeEntryRefcount false (Some 2%positive) 4096 busy_state = Done (tt, s') ∧
    ref_count <$> jit_heap (mem s') !! 2%positive = Some (wrap32 (0 + 1)) ∧
    g_jit_code_entries (mem s') = g_jit_code_entries (mem busy_state) ∧
    GetJITCodeEntry 4096 s' = Done (Some 1%positive, s').
Proof.
  apply (release_attach_keeps_old_mapping 2%positive
           (mkJITCodeEntry (Some 1%positive) None (Some 2%positive) 2 0)
           4096 (Some 1%positive) busy_state); vm_compute; reflexivity.
Defined.

(** X12: detaching a live entry from a code address that the table does
    not map to it, when the count does not reach zero.  A debug build fails
    the check; a release build takes one from the count of the entry
    (modulo 2^32) and erases the address from the table, whatever it was
    mapped to. *)
Theorem release_detach_erases_any_mapping x e a s :
  jit_heap (mem s) !! x = Some e →
  g_jit_code_entries (mem s) !! a ≠ Some (Some x) →
  wrap32 (ref_count e - 1) ≠ 0 →
  DecrementJITCodeEntryRefcount true (Some x) a s = CheckFailure ∧
  ∃ s',
    DecrementJITCodeEntryRefcount false (Some x) a s = Done (tt, s') ∧
    ref_count <$> jit_heap (mem s') !! x = Some (wrap32 (ref_count e - 1)) ∧
    g_jit_code_entries (mem s') = delete a (g_jit_code_entries (mem s)) ∧
    log s' = log s.
Proof.
  intros Hx Ha Hrc. split.
  { rewrite DecrementJITCodeEntryRefcount_debug. rewrite bool_decide_eq_false_2; [done|].
    by intros [_ ?]. }
  eexists. split; [by apply (DecrementJITCodeEntryRefcount_run_keep false x e)|].
  simpl. by rewrite lookup_alter_eq, Hx.
Qed.

Lemma release_detach_erases_any_mapping_witness :
  DecrementJITCodeEntryRefcount true (Some 2%positive) 4096 busy_state = CheckFailure ∧
  ∃ s',
    DecrementJITCodeEntryRefcount false (Some 2%positive) 4096 busy_state = Done (tt, s') ∧
    ref_count <$> jit_heap (mem s') !! 2%positive = Some (wrap32 (0 - 1)) ∧
    g_jit_code_entries (mem s') = delete 4096 (g_jit_code_entries (mem busy_state)) ∧
    log s' = log busy_state.
Proof.
  apply (release_detach_erases_any_mapping 2%positive
           (mkJITCodeEntry (Some 1%positive) None (Some 2%positive) 2 0)
           4096 busy_state).
  - vm_compute. reflexivity.
  - vm_compute. discriminate.
  - vm_compute. discriminate.
Defined.

(** X13: a code address that is not in the table looks up [nullptr]; once
    a live entry is attached to it, it looks up that entry, every other
    address looks up what it did before, and the table has one mapping
    more.  The lookups leave the state as it is. *)
Theorem attach_then_lookup d x a s :
  is_Some (jit_heap (mem s) !! x) →
  g_jit_code_entries (mem s) !! a = None →
  ∃ s',
    IncrementJITCodeEntryRefcount d (Some x) a s = Done (tt, s') ∧
    GetJITCodeEntry a s = Done (None, s) ∧
    GetJITCodeEntry a s' = Done (Some x, s') ∧
    (∀ b, b ≠ a → ∀ v, GetJITCodeEntry b s = Done (v, s) →
                       GetJITCodeEntry b s' = Done (v, s')) ∧
    size (g_jit_code_entries (mem s')) = S (size (g_jit_code_entries (mem s))).
Proof.
  intros [e Hx] Ha.
  eexists. split; [by apply (IncrementJITCodeEntryRefcount_run d x e)|].
  rewrite !GetJITCodeEntry_run. simpl. unfold emplace. rewrite Ha.
  rewrite lookup_insert_eq. split; [done|]. split; [done|]. split.
  - intros b Hb v. rewrite !GetJITCodeEntry_run. simpl. unfold emplace. rewrite Ha.
    rewrite lookup_insert_ne by done. by intros [= ->].
  - by rewrite map_size_insert_None.
Qed.

Lemma attach_then_lookup_witness :
  ∃ s',
    IncrementJITCodeEntryRefcount true (Some 2%positive) 12288 busy_state = Done (tt, s') ∧
    GetJITCodeEntry 12288 busy_state = Done (None, busy_state) ∧
    GetJITCodeEntry 12288 s' = Done (Some 2%positive, s') ∧
    (∀ b, b ≠ 12288 → ∀ v, GetJITCodeEntry b busy_state = Done (v, busy_state) →
                          GetJITCodeEntry b s' = Done (v, s')) ∧
    size (g_jit_code_entries (mem s')) = S (size (g_jit_code_entries (mem busy_state))).
Proof.
  apply (attach_then_lookup true 2%positive 12288 busy_state).
  - vm_compute. eauto.
  - vm_compute. reflexivity.
Defined.

(** ** What holds after any sequence of calls *)

Lemma last_notified_app lg1 lg2 :
  last_notified (lg1 ++ lg2) =
    match last_notified lg2 with
    | Some m => Some m
    | None => last_notified lg1
    end.
Proof.
  induction lg1 as [|ev lg1 IH]; simpl.
  - by destruct (last_notified lg2).
  - rewrite IH. by destruct (last_notified lg2), (last_notified lg1), ev.
Qed.

Lemma wrap32_of_succ n : wrap32 (wrap32 (Z.of_nat n) + 1) = wrap32 (Z.of_nat (S n)).
Proof. unfold wrap32. Z.to_euclidean_division_equations; lia. Qed.

Lemma descriptor_tracked_lock s m' a b :
  __jit_debug_descriptor m' = __jit_debug_descriptor (mem s) →
  __jit_debug_descriptor_timestamp m' = __jit_debug_descriptor_timestamp (mem s) →
  descriptor_tracked s →
  descriptor_tracked (mkState m' (log s ++ [EvAcquire a; EvRelease b])).
Proof.
  intros Hd Ht (Hv & Hts & Hl). unfold descriptor_tracked. simpl.
  rewrite notifications_app, last_notified_app, Hd, Ht. simpl.
  rewrite Nat.add_0_r. done.
Qed.

Lemma descriptor_tracked_silent s m' :
  __jit_debug_descriptor m' = __jit_debug_descriptor (mem s) →
  __jit_debug_descriptor_timestamp m' = __jit_debug_descriptor_timestamp (mem s) →
  descriptor_tracked s → descriptor_tracked (mkState m' (log s)).
Proof.
  intros Hd Ht (Hv & Hts & Hl). unfold descriptor_tracked. simpl.
  by rewrite Hd, Ht.
Qed.

Lemma descriptor_tracked_notify s m' m'' :
  version_ (__jit_debug_descriptor m') = version_ (__jit_debug_descriptor (mem s)) →
  __jit_debug_descriptor m'' = __jit_debug_descriptor m' →
  __jit_debug_descriptor_timestamp m'' = __jit_debug_descriptor_timestamp m' →
  __jit_debug_descriptor_timestamp m' =
    wrap32 (__jit_debug_descriptor_timestamp (mem s) + 1) →
  descriptor_tracked s →
  descriptor_tracked (mkState m'' (log s ++ [EvNotify m'])).
Proof.
  intros Hv' Hd Ht Hts' (Hv & Hts & Hl). unfold descriptor_tracked. simpl.
  rewrite notifications_app, last_notified_app, Hd, Ht. simpl.
  split; [congruence|]. split; [|done].
  rewrite Hts', Hts, Nat.add_1_r. apply wrap32_of_succ.
Qed.

Lemma descriptor_tracked_call d o s r s' :
  Inv (mem s) → call d o s = Done (r, s') →
  descriptor_tracked s → descriptor_tracked s'.
Proof.
  intros [Hj Hd] Hrun Ht.
  destruct o as [h|h|symfile|entry|entry a|entry a]; simpl in Hrun.
  - rewrite RegisterDexFileForNative_total in Hrun by done. simplify_eq.
    destruct (g_dexfile_entries (mem s) !! h); by apply descriptor_tracked_lock.
  - rewrite DeregisterDexFileForNative_Done in Hrun by done. simplify_eq.
    destruct (g_dexfile_entries (mem s) !! h) as [x|]; [|by apply descriptor_tracked_lock].
    destruct (dex_heap (mem s) !! x); [by apply descriptor_tracked_lock|done].
  - apply bind_Done in Hrun as (x & s1 & Hrun & Hret).
    apply CreateJITCodeEntry_Done in Hrun as (_ & _ & ->); [|done].
    unfold mret, M_ret in Hret. simplify_eq.
    by apply descriptor_tracked_notify.
  - apply DeleteJITCodeEntry_Done in Hrun as (x & e & -> & Hx & ->); [|done].
    apply descriptor_tracked_notify; try done. simpl. by destruct (prev_ e).
  - apply IncrementJITCodeEntryRefcount_Done in Hrun as (x & e & -> & Hx & _ & ->).
    by apply descriptor_tracked_silent.
  - apply DecrementJITCodeEntryRefcount_Done in Hrun as (x & e & -> & Hx & _ & ->);
      [|done].
    case_bool_decide; [|by apply descriptor_tracked_silent].
    apply descriptor_tracked_notify; try done. simpl. by destruct (prev_ e).
Qed.

(** X14: after any sequence of calls from the initial state, the
    descriptor has version 1, its timestamp is the number of notifications
    made (modulo 2^32), and descriptor and timestamp are exactly as the
    most recent notification showed them (as statically initialised, if
    none was made): nothing changes the descriptor without notifying. *)
Theorem descriptor_tracks_notifications d ops s :
  calls d ops initial_state = Done (tt, s) →
  version_ (__jit_debug_descriptor (mem s)) = 1 ∧
  __jit_debug_descriptor_timestamp (mem s) = wrap32 (Z.of_nat (notifications (log s))) ∧
  match last_notified (log s) with
  | Some m =>
      __jit_debug_descriptor (mem s) = __jit_debug_descriptor m ∧
      __jit_debug_descriptor_timestamp (mem s) = __jit_debug_descriptor_timestamp m
  | None => __jit_debug_descriptor (mem s) = __jit_debug_descriptor initial_mem
  end.
Proof.
  change (calls d ops initial_state = Done (tt, s) → descriptor_tracked s).
  assert (∀ s0, Inv (mem s0) → descriptor_tracked s0 →
            calls d ops s0 = Done (tt, s) → descriptor_tracked s) as Hgen.
  { induction ops as [|o ops IH]; intros s0 Hinv Ht Hrun; simpl in Hrun.
    - unfold mret, M_ret in Hrun. by simplify_eq.
    - apply bind_Done in Hrun as (r & s1 & Hcall & Hrest).
      apply (IH s1); [by eapply Inv_call|by eapply descriptor_tracked_call|done]. }
  apply Hgen; [apply Inv_initial|]. by split.
Qed.

Lemma descriptor_tracks_notifications_witness :
  version_ (__jit_debug_descriptor (mem busy_state)) = 1 ∧
  __jit_debug_descriptor_timestamp (mem busy_state) = wrap32 2 ∧
  ∃ m, last_notified (log busy_state) = Some m ∧
       __jit_debug_descriptor (mem busy_state) = __jit_debug_descriptor m ∧
       __jit_debug_descriptor_timestamp (mem busy_state) =
         __jit_debug_descriptor_timestamp m.
Proof.
  destruct (descriptor_tracks_notifications true busy_ops busy_state busy_state_run)
    as (Hv & Hts & Hlast).
  split; [exact Hv|]. split; [exact Hts|].
  assert (∃ m, last_notified (log busy_state) = Some m) as [m Hm]
    by (vm_compute; eauto).
  rewrite Hm in Hlast. exists m. split; [exact Hm|exact Hlast].
Defined.

Lemma blobs_owned_frame m m' :
  jit_heap m' = jit_heap m → blob_heap m' = blob_heap m →
  blobs_owned m → blobs_owned m'.
Proof. intros Hh Hb. unfold blobs_owned. by rewrite Hh, Hb. Qed.

Lemma blobs_owned_created symfile m :
  jit_inv m → blobs_owned m → blobs_owned (created_mem symfile m).
Proof.
  intros [(l & Hd) _ _ _ _] [Hown Hsz].
  pose proof (alloc_fresh (jit_heap m)) as Hfresh.
  pose proof (alloc_fresh (blob_heap m)) as Hbfresh.
  split; simpl.
  - intros b Hb. destruct (decide (b = alloc (blob_heap m))) as [->|Hne].
    + eexists _, _.
      split; [eapply (linked_lookup_new next_ prev_); [exact Hd|apply alloc_fresh]|].
      reflexivity.
    + rewrite lookup_insert_ne in Hb by done.
      destruct (Hown b Hb) as (y & ey & Hy & Hey).
      match goal with |- context [jit_linked ?x ?e0 ?p ?h] =>
        destruct (linked_lookup_field symfile_addr_ set_prev_ x e0 p h y ey)
          as (ey' & Hy' & Hf); [done|unfold next_entry; congruence|done|] end.
      exists y, ey'. split; [done|]. congruence.
  - rewrite map_size_insert_None by done.
    rewrite size_linked by apply alloc_fresh. by rewrite Hsz.
Qed.

Lemma blobs_owned_deleted x e m :
  jit_inv m → jit_heap m !! x = Some e → blobs_owned m →
  blobs_owned (deleted_mem x e m).
Proof.
  intros [_ Hlive _ _ _] Hx [Hown Hsz].
  destruct (Hlive x e Hx) as (bx & Hbx & Hbs).
  split; simpl; rewrite Hbx; simpl.
  - intros b Hb. destruct (decide (b = bx)) as [->|Hne].
    { rewrite lookup_delete_eq in Hb. by destruct Hb. }
    rewrite lookup_delete_ne in Hb by done.
    destruct (Hown b Hb) as (y & ey & Hy & Hey).
    assert (y ≠ x) as Hyx by (intros ->; congruence).
    destruct (unlinked_lookup_fwd next_ prev_ set_next_ set_prev_ symfile_addr_
                x e (jit_heap m) y ey) as (ey' & Hy' & Hf); [done..|].
    exists y, ey'. split; [done|]. congruence.
  - pose proof (size_unlinked next_ prev_ set_next_ set_prev_ x e (jit_heap m)
                  (ex_intro _ e Hx)) as Hs.
    unfold unlinked in Hs.
    rewrite map_size_delete_Some by done. lia.
Qed.

Lemma blobs_owned_set_ref_count v x m :
  blobs_owned m → blobs_owned (upd_jit_heap (alter (set_ref_count v) x) m).
Proof.
  intros [Hown Hsz]. split; simpl.
  - intros b Hb. destruct (Hown b Hb) as (y & ey & Hy & Hey).
    destruct (decide (y = x)) as [->|Hne].
    + eexists x, _. rewrite lookup_alter_eq, Hy. by split.
    + exists y, ey. by rewrite lookup_alter_ne.
  - pose proof (size_alter_at (set_ref_count v) (Some x) (jit_heap m)) as Hs.
    simpl in Hs. by rewrite Hs.
Qed.

Lemma blobs_owned_code_entries f m :
  blobs_owned m → blobs_owned (upd_jit_code_entries f m).
Proof. by apply blobs_owned_frame. Qed.

Lemma blobs_owned_call d o s r s' :
  Inv (mem s) → call d o s = Done (r, s') →
  blobs_owned (mem s) → blobs_owned (mem s').
Proof.
  intros [Hj Hd] Hrun Hb.
  destruct o as [h|h|symfile|entry|entry a|entry a]; simpl in Hrun.
  - rewrite RegisterDexFileForNative_total in Hrun by done. simplify_eq.
    by destruct (g_dexfile_entries (mem s) !! h).
  - rewrite DeregisterDexFileForNative_Done in Hrun by done. simplify_eq.
    destruct (g_dexfile_entries (mem s) !! h) as [x|]; [|done].
    by destruct (dex_heap (mem s) !! x).
  - apply bind_Done in Hrun as (x & s1 & Hrun & Hret).
    apply CreateJITCodeEntry_Done in Hrun as (_ & _ & ->); [|done].
    unfold mret, M_ret in Hret. simplify_eq. by apply blobs_owned_created.
  - apply DeleteJITCodeEntry_Done in Hrun as (x & e & -> & Hx & ->); [|done].
    by apply blobs_owned_deleted.
  - apply IncrementJITCodeEntryRefcount_Done in Hrun as (x & e & -> & Hx & _ & ->).
    by apply blobs_owned_code_entries, blobs_owned_set_ref_count.
  - apply DecrementJITCodeEntryRefcount_Done in Hrun as (x & e & -> & Hx & _ & ->);
      [|done].
    pose proof (jit_inv_set_ref_count (wrap32 (ref_count e - 1)) x _ Hj) as Hj'.
    pose proof (blobs_owned_set_ref_count (wrap32 (ref_count e - 1)) x _ Hb) as Hb'.
    case_bool_decide; simpl.
    + apply blobs_owned_code_entries, blobs_owned_deleted; [done| |done].
      simpl. by rewrite lookup_alter_eq, Hx.
    + by apply blobs_owned_code_entries.
Qed.

(** X15: after any sequence of calls from the initial state, the live
    copies of symbol files are exactly those that live code entries point
    to, there are as many copies as entries, and when the list is empty no
    copy is left: no call leaks a copy or frees one that is in use. *)
Theorem no_symfile_copy_is_leaked d ops s :
  calls d ops initial_state = Done (tt, s) →
  (∀ b, is_Some (blob_heap (mem s) !! b) ↔
        ∃ x e, jit_heap (mem s) !! x = Some e ∧ symfile_addr_ e = Some b) ∧
  size (blob_heap (mem s)) = size (jit_heap (mem s)) ∧
  (jit_entries (mem s) = Some [] → blob_heap (mem s) = ∅).
Proof.
  assert (∀ s0, Inv (mem s0) → blobs_owned (mem s0) →
            calls d ops s0 = Done (tt, s) → blobs_owned (mem s)) as Hgen.
  { induction ops as [|o ops IH]; intros s0 Hinv Ht Hrun0; simpl in Hrun0.
    - unfold mret, M_ret in Hrun0. by simplify_eq.
    - apply bind_Done in Hrun0 as (r & s1 & Hcall & Hrest).
      apply (IH s1); [by eapply Inv_call|by eapply blobs_owned_call|done]. }
  intros Hrun.
  destruct (Hgen initial_state Inv_initial) as [Hown Hsz]; [|done|].
  { split; [|done]. intros b [? Hb]. simpl in Hb. by rewrite lookup_empty in Hb. }
  pose proof (Inv_calls _ _ initial_state _ _ Inv_initial Hrun) as [Hj _].
  split; [|split; [done|]].
  - intros b. split; [apply Hown|].
    intros (x & e & Hx & Hb). destruct (jit_blob_live _ Hj x e Hx) as (b' & Hb' & ?).
    congruence.
  - intros Hl. apply (jit_entries_inv _ _ Hj) in Hl as (_ & _ & _ & Hl).
    apply map_size_empty_inv. rewrite Hsz. apply map_size_empty_iff.
    apply map_empty. intros x. apply eq_None_not_Some. rewrite <-Hl. set_solver.
Qed.

Lemma no_symfile_copy_is_leaked_witness :
  (∀ b, is_Some (blob_heap (mem busy_state) !! b) ↔
        ∃ x e, jit_heap (mem busy_state) !! x = Some e ∧ symfile_addr_ e = Some b) ∧
  size (blob_heap (mem busy_state)) = size (jit_heap (mem busy_state)) ∧
  (jit_entries (mem busy_state) = Some [] → blob_heap (mem busy_state) = ∅).
Proof. exact (no_symfile_copy_is_leaked true busy_ops busy_state busy_state_run). Defined.

(** An entry that is live before and after a call keeps what it holds. *)
Lemma created_keeps_entry symfile m y ey ey' :
  jit_inv m → jit_heap m !! y = Some ey →
  jit_heap (created_mem symfile m) !! y = Some ey' →
  entry_data ey' = entry_data ey ∧
  (∀ b, symfile_addr_ ey = Some b →
        blob_heap (created_mem symfile m) !! b = blob_heap m !! b).
Proof.
  intros Hinv Hy Hy'. pose proof (alloc_fresh (jit_heap m)) as Hfresh.
  pose proof (alloc_fresh (blob_heap m)) as Hbfresh.
  assert (y ≠ next_entry m) as Hne by (unfold next_entry; congruence).
  split.
  - simpl in Hy'.
    match type of Hy' with context [jit_linked ?x ?e0 ?p ?h] =>
      destruct (linked_lookup_field entry_data set_prev_ x e0 p h y ey)
        as (ey'' & Hy'' & Hf); [done..|] end.
    congruence.
  - intros b Hb. simpl. rewrite lookup_insert_ne; [done|]. intros <-.
    destruct (jit_blob_live _ Hinv y ey Hy) as (b' & Hb' & [bs Hbs]). congruence.
Qed.

Lemma deleted_keeps_entry x e m y ey ey' :
  jit_inv m → jit_heap m !! x = Some e → jit_heap m !! y = Some ey →
  jit_heap (deleted_mem x e m) !! y = Some ey' →
  y ≠ x ∧ entry_data ey' = entry_data ey ∧
  (∀ b, symfile_addr_ ey = Some b →
        blob_heap (deleted_mem x e m) !! b = blob_heap m !! b).
Proof.
  intros Hinv Hx Hy Hy'. simpl in Hy'.
  apply (unlinked_lookup_inv next_ prev_ set_next_ set_prev_ entry_data) in Hy'
    as (Hne & ey0 & Hy0 & Hf); [|done..].
  split; [done|]. split; [congruence|].
  intros b Hb. simpl.
  destruct (jit_blob_live _ Hinv x e Hx) as (bx & Hbx & _). rewrite Hbx. simpl.
  rewrite lookup_delete_ne; [done|]. intros ->.
  apply Hne. apply (jit_blob_inj _ Hinv y x ey e); [done..|]. congruence.
Qed.

(** X16: a call that returns changes, in an entry that is live before and
    after it, nothing but the links and, for an attach or detach of that
    very entry, the reference count: the address and the size of its symbol
    file, and the bytes of the copy, are as before. *)
Theorem calls_keep_symfiles d o s r s' x e e' :
  Inv (mem s) → call d o s = Done (r, s') →
  jit_heap (mem s) !! x = Some e → jit_heap (mem s') !! x = Some e' →
  symfile_addr_ e' = symfile_addr_ e ∧
  symfile_size_ e' = symfile_size_ e ∧
  (∀ b, symfile_addr_ e = Some b → blob_heap (mem s') !! b = blob_heap (mem s) !! b) ∧
  ((∀ a, o ≠ OpIncrement (Some x) a) → (∀ a, o ≠ OpDecrement (Some x) a) →
     ref_count e' = ref_count e).
Proof.
  intros [Hj Hd] Hrun Hx Hx'.
  assert (∀ e1 e2, entry_data e1 = entry_data e2 →
          symfile_addr_ e1 = symfile_addr_ e2 ∧ symfile_size_ e1 = symfile_size_ e2 ∧
          ref_count e1 = ref_count e2) as Hdata.
  { unfold entry_data. by intros e1 e2 [= -> -> ->]. }
  destruct o as [h|h|symfile|entry|entry a|entry a]; simpl in Hrun.
  - rewrite RegisterDexFileForNative_total in Hrun by done. simplify_eq.
    destruct (g_dexfile_entries (mem s) !! h); simpl in Hx'; simplify_eq;
      repeat split; by intros.
  - rewrite DeregisterDexFileForNative_Done in Hrun by done. simplify_eq.
    destruct (g_dexfile_entries (mem s) !! h) as [y|]; simpl in Hx';
      [destruct (dex_heap (mem s) !! y); simpl in Hx'|]; simplify_eq;
      repeat split; by intros.
  - apply bind_Done in Hrun as (y & s1 & Hrun & Hret).
    apply CreateJITCodeEntry_Done in Hrun as (_ & _ & ->); [|done].
    unfold mret, M_ret in Hret. simplify_eq.
    destruct (created_keeps_entry symfile (mem s) x e e' Hj Hx Hx') as [He Hb].
    destruct (Hdata _ _ He) as (? & ? & ?).
    split; [done|]. split; [done|]. split; [exact Hb|done].
  - apply DeleteJITCodeEntry_Done in Hrun as (y & ey & -> & Hy & ->); [|done].
    destruct (deleted_keeps_entry y ey (mem s) x e e' Hj Hy Hx Hx') as (_ & He & Hb).
    destruct (Hdata _ _ He) as (? & ? & ?).
    split; [done|]. split; [done|]. split; [exact Hb|done].
  - apply IncrementJITCodeEntryRefcount_Done in Hrun as (y & ey & -> & Hy & _ & ->).
    simpl in Hx'. destruct (decide (x = y)) as [->|Hne].
    + rewrite lookup_alter_eq, Hx in Hx'. simpl in Hx'. simplify_eq. simpl.
      split; [done|]. split; [done|]. split; [by intros|].
      intros Hi. by destruct (Hi a).
    + rewrite lookup_alter_ne, Hx in Hx' by done. simplify_eq.
      repeat split; by intros.
  - apply DecrementJITCodeEntryRefcount_Done in Hrun as (y & ey & -> & Hy & _ & ->);
      [|done].
    set (v := wrap32 (ref_count ey - 1)) in *.
    pose proof (jit_inv_set_ref_count v y _ Hj) as Hj'.
    assert (∃ e1, jit_heap (decremented_mem y ey (mem s)) !! x = Some e1 ∧
              symfile_addr_ e1 = symfile_addr_ e ∧ symfile_size_ e1 = symfile_size_ e ∧
              (x ≠ y → ref_count e1 = ref_count e)) as (e1 & He1 & Ha1 & Hs1 & Hr1).
    { simpl. destruct (decide (x = y)) as [->|Hne].
      - rewrite lookup_alter_eq, Hx. simpl. eexists. by split.
      - rewrite lookup_alter_ne, Hx by done. eexists. by split. }
    assert ((∀ a0, OpDecrement (Some y) a ≠ OpDecrement (Some x) a0) → x ≠ y) as Hxy.
    { intros Hn ->. by apply (Hn a). }
    revert Hx'. case_bool_decide; simpl; intros Hx'.
    + assert (jit_heap (decremented_mem y ey (mem s)) !! y = Some (set_ref_count v ey))
        as Hy1.
      { simpl. by rewrite lookup_alter_eq, Hy. }
      destruct (deleted_keeps_entry y (set_ref_count v ey) (decremented_mem y ey (mem s))
                  x e1 e' Hj' Hy1 He1 Hx') as (Hne & He & Hb).
      destruct (Hdata _ _ He) as (Ha' & Hs' & Hr').
      split; [congruence|]. split; [congruence|]. split.
      * intros b Hbb. rewrite <-Ha1 in Hbb. exact (Hb b Hbb).
      * intros _ _. rewrite Hr'. by apply Hr1.
    + simpl in He1. rewrite He1 in Hx'. simplify_eq.
      split; [done|]. split; [done|]. split; [by intros|].
      intros _ Hn. by apply Hr1, Hxy.
Qed.

Lemma calls_keep_symfiles_witness :
  ∃ s' e e',
    call true (OpDelete (Some 2%positive)) busy_state = Done (tt, s') ∧
    jit_heap (mem busy_state) !! 1%positive = Some e ∧
    jit_heap (mem s') !! 1%positive = Some e' ∧
    symfile_addr_ e' = symfile_addr_ e ∧
    symfile_size_ e' = symfile_size_ e ∧
    (∀ b, symfile_addr_ e = Some b →
          blob_heap (mem s') !! b = blob_heap (mem busy_state) !! b) ∧
    ref_count e' = ref_count e ∧
    prev_ e' ≠ prev_ e.
Proof.
  assert (∃ s' e e',
    call true (OpDelete (Some 2%positive)) busy_state = Done (tt, s') ∧
    jit_heap (mem busy_state) !! 1%positive = Some e ∧
    jit_heap (mem s') !! 1%positive = Some e' ∧ prev_ e' ≠ prev_ e)
    as (s' & e & e' & Hrun & He & He' & Hp).
  { eexists _, _, _. split; [vm_compute; reflexivity|].
    split; [vm_compute; reflexivity|]. split; [vm_compute; reflexivity|].
    vm_compute. discriminate. }
  exists s', e, e'. split; [exact Hrun|]. split; [exact He|]. split; [exact He'|].
  destruct (calls_keep_symfiles true (OpDelete (Some 2%positive)) busy_state tt s'
              1%positive e e' busy_state_Inv Hrun He He') as (Ha & Hs & Hb & Hr).
  split; [exact Ha|]. split; [exact Hs|]. split; [exact Hb|].
  split; [apply Hr; discriminate|exact Hp].
Defined.
